(* ===== verification/_CoqProject ===== *)
-Q . S2P
Prelude.v
DateFormat.v
DateProofs.v
JsValue.v
Store.v
Notify.v
Reconcile.v
Api.v
Interleave.v
RebookRace.v
Frontend.v
TickRun.v
Refinement.v
ClientAsync.v
SerialRefines.v
Concurrency.v
