(* ===== verification/Prelude.v ===== *)
(** * Verification of the missed-appointment service

    The repository is a small Node.js service and its React client:

    - [src/backend/index.js]: an Express server over MongoDB (Mongoose). It
      keeps two collections, [Appointment] (lines 23-29) and [DoctorSchedule]
      (lines 31-34). A timer (lines 80-100) runs every minute, marks every
      appointment that is still ['scheduled'] fifteen minutes after its time
      as ['missed'] and notifies the patient by e-mail and SMS (the wrappers
      [sendEmail] and [sendSMS], lines 43-77). Four HTTP handlers read and
      change the collections: [GET /api/slots/:doctorId] (103-112),
      [POST /api/rebook] (115-137), [GET /api/missedAppointments/:patientId]
      (140-157) and [POST /api/test-notification] (160-175).
    - [src/frontend/src/App.js]: the browser client; it lists a doctor's
      slots, should list missed appointments, and posts the rebooking
      request.

    The components interact only through the shared collections, through
    the JSON sent over HTTP, and through the notification providers.

    ** Files of the development (in dependency order)

    - [Prelude] (this file): the exceptions of the JavaScript runtime
      ([js_error]); the state-and-exception monad [M] in which every handler
      is written (the state is kept when an exception escapes, as with
      [await]); [for_each] for [for (const x of xs) await f(x)] and
      [try_catch] for [try ... catch]; total
      correctness triples [triple] and the all-outcomes invariant
      [preserves], with their rules (bind, read, loop); runs of a step
      relation ([rtc_invariant], and [rtc_simulation] for a refinement);
      the tactic [bind_inv] for option binds; the hint databases [appt]
      and [appt_rw].
    - [DateFormat]: ECMAScript time values (milliseconds in [Z]), the civil
      calendar, [Date.prototype.toISOString], [Date.prototype.toString] in a
      process running in UTC, and [Date.parse] for those two formats; the
      lemma that no ISO text equals a [toString] text.
    - [DateProofs]: the round trips of [Date.parse]: [days_from_civil]
      inverts [civil_from_days] on every day (the era arithmetic by [lia]),
      a time value is its day and clock fields, and the digit readers give
      back what [fixed_dec] printed; so [Date.parse] gives back [t] from
      [toISOString t], and [t] without its milliseconds from [toString t].
    - [JsValue]: the JSON values of a request, the loose equality [==] that
      [MongooseArray.includes] uses (line 124) and the strict [!==] of the
      [filter] (line 133) between such a value and a stored [Date],
      [new Date(v)], [join] over dates, [JSON.stringify] of a date; every
      path of [new Date] ends in TimeClip.
    - [Store]: the two Mongoose models as records (Modules [Appointment] and
      [DoctorSchedule]), the database [Db] as two ordered collections,
      [find], [findOne], [findById] with the Mongoose cast of its filter
      (ObjectId texts, [$in] arrays, query operators), and [save] as a
      [$set] of the assigned paths; the well-formedness [db_wf] (unique
      identifiers); the lens class [DbState] through which any world holds
      a database, and the class [DbConn] of a connection that can be lost,
      on which the query of [GET /api/missedAppointments] rejects.
    - [Notify]: the gateway interface [Gateway] (a type class: the two
      sends never touch the database, and do not throw while the gateway is
      ready), the concrete [World] (database, outbox of sends, provider
      oracle, whether the twilio client can be built, whether the MongoDB
      connection is up) and [sendEmail],
      [sendSMS] as instances of it.
    - [Reconcile]: the timer callback [detect_no_shows], proved against the
      [Gateway] interface; the notification trace in the concrete world;
      concrete scenarios.
    - [Api]: the handlers [get_slots], [rebook] and
      [get_missed_appointments] over any [DbState] world, and
      [test_notification] over any [Gateway]; every path of [rebook], and
      scenarios that chain the timer and the handlers.
    - [Interleave]: the timer callback split at its [await]s into a
      thread ([tick_step]), and the system where [setInterval] fires new
      callbacks while earlier ones are still running, interleaved with
      rebooking requests ([cstep]), with executable schedules.
    - [RebookRace]: [POST /api/rebook] split at its four [await]s, its
      saves as the [$set] of the paths that differ from the document it
      read, and the system of requests in flight ([rstep]).
    - [Frontend]: the component state [AppState], its event handlers
      ([app_handle]), and the whole system as a step relation [sys_step]
      (client events, timer ticks at any instant, requests of other clients)
      with its reachable states.
    - [TickRun]: the callback of Interleave run to its end without fuel,
      by Equations' well-founded recursion on [pc_measure] (the [await]s
      left: one for the query, four per appointment of the snapshot), with
      the [inspect] pattern that keeps the step's equation.
    - [Refinement]: the server's contract as an abstract machine
      [spec_step] over stdpp [gmap]s (appointments by id, offered slots by
      doctor), the abstraction [abs] of a database, and [server_step], the
      server with every handler and every tick up to an instant, each run
      to its end.
    - [ClientAsync]: the client's slot request of [handleDoctorChange]
      split into sending, the server's answer and the delivery, in any
      order, with an executable scheduler.
    - [Concurrency]: timer callbacks and rebooking requests in one
      configuration ([kstep]), the callbacks whole ([TicksAtomic]) or as
      serial threads ([TicksSerial]), the requests at their [await]s, with
      an executable scheduler.
    - [SerialRefines]: the interleaved system of Interleave against the
      abstract machine of Refinement: the database writes of a thread
      step ([tick_step_db]), and the abstract machine's own invariant
      ([spec_missed_ok]).

    ** What is proved (PROJECT.json lists the claims C1-C32)

    - Timer (C1, C9-C11, C13): on a well-formed database with a ready
      gateway a tick returns normally and marks exactly the overdue
      ['scheduled'] appointments ['missed']; even when a send throws, a
      tick only ever moves overdue appointments to ['missed'] and never
      touches a schedule; the outbox gains exactly an e-mail and an SMS per
      overdue appointment whose doctor offers slots, addressed to the empty
      recipient; a second tick at the same instant does nothing; with a
      refused SMS client the tick is cut short by the exception of
      [sendSMS] at the first overdue appointment whose doctor offers
      slots, after its save and its e-mail, for any database (C13).
    - Timer runs (C19-C20): [n] ticks every 60 s from [t0] leave the
      collections as one marking at the time of the last tick; so once the
      timer has run past [scheduledTime + GRACE_PERIOD + 60 s] the
      appointment is ['missed'] (the latency bound).
    - Missed-appointments query (C14): every answer of
      [GET /api/missedAppointments], the 500 of a lost connection included.
    - Rebooking (C2-C8, C15, C21): every path of [rebook], for any value
      of [appointmentId]: the filter [findById] builds from it (an ObjectId
      text, an array as [$in], an object of query operators) and the
      document it finds; 400 without any write when no ['missed']
      appointment is found and for a slot that is not offered; the cast's
      rejection and a [TypeError] for a doctor without schedule, both
      thrown instead of answered; a slot sent in the ISO form that
      [GET /api/slots] serves is always refused; an operator id rebooks the
      least-[_id] appointment its filter matches (C8); a successful
      rebooking needs the [toString] text of a slot, books it at the slot
      truncated to whole seconds (C21, the converse of C3) and never
      removes the slot, so any two ['missed'] appointments of a doctor can
      be booked on the same slot, one request after the other (C15).
    - Overlapping ticks (C22-C23): when each callback ends before the
      timer fires again and each request runs whole, every reachable state
      has only overdue appointments ['missed']; when callbacks overlap (a
      slow provider), a concrete trace makes a callback save its stale copy
      of an appointment that another callback marked and the patient
      rebooked, which is then ['missed'] at its new future time.
    - Concurrent rebooking (C26-C27): one after the other, a ['missed']
      appointment is booked once; interleaved at their [await]s, two
      requests for it both answer 200, and the first client's confirmation
      names a slot the store no longer holds.
    - Test notifications (C24-C25): the handler always answers, 200 or
      500, and never touches the database; in the concrete world it sends
      the request's values and, when the twilio client cannot be built,
      answers 500 after the e-mail has gone out.
    - Client (C17-C18, C28, C31): in every reachable state of client and
      server no appointment can be selected and "Rebook" sends no request;
      the slot value the client holds would be refused by the server
      anyway; choosing a doctor without a schedule leaves the previous
      doctor's slots on the page; with requests in flight, answers that
      arrive out of order leave one doctor's slots under another doctor's
      name.
    - Refinement (C29-C30): every run of [server_step] is a run of the
      abstract machine through [abs] (only appointments overdue at the
      instant are marked, only ['missed'] ones are booked, on a valid
      offered slot without its milliseconds, and no slot is withdrawn); an
      appointment not overdue and not ['missed'] is never changed (this
      fails with overlapping ticks, C23).
    - Timer and requests together (C12, C16): with whole callbacks,
      requests interleaved at their [await]s in any way keep the promise of
      C22; with serial callback threads a request's stale [$set] and the
      callback's stale save together mark an appointment ['missed'] at a
      future time.
    - Interleaved refinement (C32): with serial callbacks and each request
      run whole, the interleaved system refines the abstract machine at
      the instant of the last firing (each save one mark, each rebooking
      one booking).
    - Supporting lemmas, not claims: the round trips of [Date.parse] with
      [toISOString] and [toString] and the width of [JSON.stringify] of a
      date (JsValue); that the callback and the request split at their
      [await]s compute the atomic handler (Interleave, TickRun,
      RebookRace), with the fuel they need; that a run of the server keeps
      the stored times valid (Refinement); and that overlapping callbacks
      reach a database outside the abstract machine (SerialRefines).

    ** Modelling choices, bounds and what is left out

    - Times are ECMAScript time values in [Z], valid when at most 8.64e15
      in magnitude (TimeClip); a valid year has at most six digits, which
      is the widest field [toString] pads. Every loop is structural on a
      list, and [run_timer] on its number of ticks; the only fuel is that
      of Interleave's [run_thread] and RebookRace's [run_request], and
      their lemmas [run_thread_detect_no_shows], [run_request_rebook] and
      [run_thread_enough_fuel] show the bounds used are enough
      ([pc_measure], which is also the well-founded measure of
      [run_tick]).
    - The process time zone is UTC (the [toString] model prints
      [GMT+0000 (Coordinated Universal Time)]).
    - JSON numbers are integers (every number the handlers compare or
      convert is a time value).
    - The providers behind nodemailer and twilio are an oracle of the world;
      logging ([console.log], [console.error]) is not modelled.
    - A lost connection is modelled only for the query of
      [GET /api/missedAppointments], the one handler whose [catch] turns the
      rejection into an answer (500); the other queries run on a connection
      that holds, so their unhandled rejections while it is down are not
      modelled: each would need the connection threaded through every
      proof of those handlers and of the timer, and ends in the same
      unhandled rejection the model already has for [CastError] and
      [TypeError]. The bootstrap (express, cors, body-parser, the
      connection events, [app.listen]) is I/O and configuration, and the
      page styles of App.js (lines 66-118) are constants with no behaviour:
      neither is modelled.
    - Outside Interleave, RebookRace and ClientAsync, each handler and each
      tick runs to completion before the next step. In Interleave the ticks are
      threads and a rebooking request is one step (one of its
      interleavings: the trace of C23 is a real one, while C22 assumes it);
      in RebookRace the requests are threads and no tick runs; in
      Concurrency both are threads, with the callbacks either whole or
      serial threads.
    - In ClientAsync the refresh of the slots after a successful
      rebooking (App.js line 54) stays inside the event: no reachable state
      gets there (C17).
    - [findById] follows Mongoose 8 (bson 6): a text casts to an ObjectId
      only when it has 24 hexadecimal digits; the ObjectId schema type's
      operators [$eq $ne $in $nin $all $gt $gte $lt $lte $exists $type]
      and [$not] are evaluated on the stored [_id] texts (lower-case
      hexadecimal, ordered as their bytes); when several documents match,
      [findOne] answers through the [_id] index and returns the least
      [_id]. The order [Object.keys] gives integer-like keys, which only
      decides which of two rejections is reported, is not modelled.

    - The race on slots of the specification's section 9 (two bookings
      removing the same slot) cannot happen in this code, which never
      removes a slot (C2, C15).
*)

From Stdlib Require Import ZArith String List Lia.
From stdpp Require Export base list decidable.
From stdpp Require Import relations.
Import ListNotations.

Create HintDb appt.
Create Rewrite HintDb appt_rw.

(** ** Exceptions of the JavaScript runtime and of Mongoose *)

(** An exception that escapes an [async] function rejects its promise. In
    an Express 4 handler or a [setInterval] callback nobody awaits that
    promise, so it becomes an unhandled rejection (which ends the Node.js
    process since version 15). *)
Inductive js_error :=
| TypeError (msg : string)
| CastError (path : string)
| DocumentNotFoundError
| Error (msg : string).

(** ** The state-and-exception monad *)

Inductive outcome (A : Type) :=
| Ok (a : A)
| Throw (e : js_error).
Arguments Ok {A} a.
Arguments Throw {A} e.

Definition M (S A : Type) : Type := S -> outcome A * S.

Section Monad.
Context {S : Type}.

Definition ret {A} (a : A) : M S A := fun s => (Ok a, s).

Definition bind {A B} (m : M S A) (k : A -> M S B) : M S B :=
  fun s => match m s with
           | (Ok a, s') => k a s'
           | (Throw e, s') => (Throw e, s')
           end.

Definition throw {A} (e : js_error) : M S A := fun s => (Throw e, s).

(** [try { m } catch (error) { h(error) }] *)
Definition try_catch {A} (m : M S A) (h : js_error -> M S A) : M S A :=
  fun s => match m s with
           | (Ok a, s') => (Ok a, s')
           | (Throw e, s') => h e s'
           end.

Definition get : M S S := fun s => (Ok s, s).

Definition put (s : S) : M S unit := fun _ => (Ok tt, s).

Definition modify (f : S -> S) : M S unit := fun s => (Ok tt, f s).

(** [for (const x of xs) { await f(x); }] *)
Fixpoint for_each {A} (f : A -> M S unit) (xs : list A) : M S unit :=
  match xs with
  | [] => ret tt
  | x :: xs' => bind (f x) (fun _ => for_each f xs')
  end.

End Monad.

Declare Scope js_scope.
Delimit Scope js_scope with js.
Notation "x <- m ;; k" := (bind m (fun x => k))
  (at level 100, m at next level, right associativity) : js_scope.
Notation "m ;; k" := (bind m (fun _ => k))
  (at level 100, right associativity) : js_scope.

(** ** Total-correctness triples over [M] *)

Section Triples.
Context {S : Type}.

(** [triple P m Q]: from a state satisfying [P], [m] returns normally a
    value [a] in a state [s'] with [Q a s']; it does not throw. *)
Definition triple {A} (P : S -> Prop) (m : M S A) (Q : A -> S -> Prop) : Prop :=
  forall s, P s -> match m s with
                   | (Ok a, s') => Q a s'
                   | (Throw _, _) => False
                   end.

Lemma triple_ret {A} (P : S -> Prop) (a : A) :
  triple P (ret a) (fun r s => r = a /\ P s).
Proof. intros s Hs. simpl. auto. Qed.

Lemma triple_bind {A B} (P : S -> Prop) (Q : A -> S -> Prop) (R : B -> S -> Prop)
      (m : M S A) (k : A -> M S B) :
  triple P m Q -> (forall a, triple (Q a) (k a) R) -> triple P (bind m k) R.
Proof.
  intros Hm Hk s Hs. unfold bind. specialize (Hm s Hs).
  destruct (m s) as [[a|e] s']; [apply Hk; exact Hm | contradiction].
Qed.

Lemma triple_consequence {A} (P P' : S -> Prop) (Q Q' : A -> S -> Prop) (m : M S A) :
  triple P' m Q' -> (forall s, P s -> P' s) -> (forall a s, Q' a s -> Q a s) ->
  triple P m Q.
Proof.
  intros H HP HQ s Hs. specialize (H s (HP s Hs)).
  destruct (m s) as [[a|e] s']; auto.
Qed.

Lemma triple_run {A} (P : S -> Prop) (m : M S A) (Q : A -> S -> Prop) (s : S) :
  triple P m Q -> P s -> exists a s', m s = (Ok a, s') /\ Q a s'.
Proof.
  intros H Hs. specialize (H s Hs). destruct (m s) as [[a|e] s']; [|contradiction].
  exists a, s'. split; [reflexivity | exact H].
Qed.

(** A read: [m] returns [f s] and leaves the state alone. *)
Lemma triple_read {A B} (P : S -> Prop) (m : M S A) (f : S -> A) (k : A -> M S B)
      (Q : B -> S -> Prop) :
  (forall s, m s = (Ok (f s), s)) ->
  (forall a, triple (fun s => P s /\ a = f s) (k a) Q) ->
  triple P (bind m k) Q.
Proof.
  intros Hm Hk s Hs. unfold bind. rewrite Hm. apply Hk. split; [exact Hs | reflexivity].
Qed.

Lemma triple_ret_weaken {A} (P : S -> Prop) (Q : A -> S -> Prop) (a : A) :
  (forall s, P s -> Q a s) -> triple P (ret a) Q.
Proof. intros H s Hs. apply H, Hs. Qed.

Lemma triple_pre {A} (P P' : S -> Prop) (Q : A -> S -> Prop) (m : M S A) :
  triple P' m Q -> (forall s, P s -> P' s) -> triple P m Q.
Proof. intros H HP s Hs. apply H, HP, Hs. Qed.

(** The loop rule: an invariant indexed by the elements already done. *)
Lemma triple_for_each {A} (I : list A -> S -> Prop) (f : A -> M S unit) (xs : list A) :
  (forall done x rest, xs = done ++ x :: rest ->
     triple (I done) (f x) (fun _ => I (done ++ [x]))) ->
  triple (I []) (for_each f xs) (fun _ => I xs).
Proof.
  intros Hstep.
  enough (Hgen : forall done rest, xs = done ++ rest ->
            triple (I done) (for_each f rest) (fun _ => I xs)).
  { apply (Hgen [] xs). reflexivity. }
  intros done rest. revert done.
  induction rest as [|x rest IH]; intros done Hxs s Hs; simpl.
  - rewrite Hxs, app_nil_r. exact Hs.
  - unfold bind. specialize (Hstep done x rest Hxs s Hs).
    destruct (f x s) as [[[]|e] s']; [|contradiction].
    apply (IH (done ++ [x])); [rewrite Hxs, <- app_assoc; reflexivity | exact Hstep].
Qed.

(** [preserves P m]: whatever [m] does, normal return or exception, it
    leads from a state satisfying [P] to one satisfying [P]. *)
Definition preserves {A} (P : S -> Prop) (m : M S A) : Prop :=
  forall s, P s -> P (snd (m s)).

Lemma preserves_ret {A} (P : S -> Prop) (a : A) : preserves P (ret a).
Proof. intros s Hs. exact Hs. Qed.

Lemma preserves_throw {A} (P : S -> Prop) (e : js_error) : preserves P (@throw S A e).
Proof. intros s Hs. exact Hs. Qed.

Lemma preserves_bind {A B} (P : S -> Prop) (m : M S A) (k : A -> M S B) :
  preserves P m -> (forall a, preserves P (k a)) -> preserves P (bind m k).
Proof.
  intros Hm Hk s Hs. unfold bind. specialize (Hm s Hs).
  destruct (m s) as [[a|e] s']; simpl in *; [apply Hk|]; exact Hm.
Qed.

(** With unique keys, two members with the same key are the same. *)
Lemma nodup_map_inj {A K} (key : A -> K) (l : list A) (x y : A) :
  NoDup (map key l) -> In x l -> In y l -> key x = key y -> x = y.
Proof.
  induction l as [|z l IH]; simpl; intros Hnd Hx Hy Hk; [contradiction|].
  inversion Hnd as [|? ? Hz Hnd']; subst.
  destruct Hx as [<-|Hx], Hy as [<-|Hy]; auto.
  - exfalso. apply Hz, list_elem_of_In. rewrite Hk. apply in_map, Hy.
  - exfalso. apply Hz, list_elem_of_In. rewrite <- Hk. apply in_map, Hx.
Qed.

Lemma triple_preserves_conj {A} (P R : S -> Prop) (Q : A -> S -> Prop) (m : M S A) :
  triple P m Q -> preserves R m -> triple (fun s => P s /\ R s) m (fun a s => Q a s /\ R s).
Proof.
  intros Ht Hp s [HP HR]. specialize (Ht s HP). specialize (Hp s HR).
  destruct (m s) as [[a|e] s']; simpl in *; auto.
Qed.

Lemma preserves_for_each {A} (P : S -> Prop) (f : A -> M S unit) (xs : list A) :
  (forall x, In x xs -> preserves P (f x)) -> preserves P (for_each f xs).
Proof.
  induction xs as [|x xs IH]; intros Hf; simpl; [apply preserves_ret|].
  apply preserves_bind; [apply Hf; left; reflexivity|].
  intros _. apply IH. intros y Hy. apply Hf. right. exact Hy.
Qed.

(** [for] over a concatenation runs the two loops in sequence. *)
Lemma for_each_app {A} (f : A -> M S unit) (xs ys : list A) (s : S) :
  for_each f (xs ++ ys) s = bind (for_each f xs) (fun _ => for_each f ys) s.
Proof.
  revert s. induction xs as [|x xs IH]; intros s; [reflexivity|].
  simpl. specialize (IH (snd (f x s))). unfold bind in *.
  destruct (f x s) as [[u|e] s']; [exact IH | reflexivity].
Qed.

End Triples.

#[export] Hint Resolve preserves_ret preserves_throw : appt.

(** ** Shared lemmas on lists *)

Lemma filter_all_true {A} (p : A -> bool) (l : list A) :
  (forall x, In x l -> p x = true) -> List.filter p l = l.
Proof.
  induction l as [|x l IH]; intros H; simpl; [reflexivity|].
  rewrite (H x (or_introl eq_refl)), IH; [reflexivity|].
  intros y Hy. apply H. right. exact Hy.
Qed.

Lemma existsb_false_forall {A} (p : A -> bool) (l : list A) :
  existsb p l = false <-> (forall x, In x l -> p x = false).
Proof.
  induction l as [|x l IH]; simpl; [split; auto; contradiction|].
  rewrite orb_false_iff, IH. split.
  - intros [Hx Hl] y [<-|Hy]; auto.
  - intros H. split; [apply H; left; reflexivity | intros y Hy; apply H; right; exact Hy].
Qed.

#[export] Hint Resolve filter_all_true : appt.

(** ** Strings *)

Lemma string_length_app (s1 s2 : string) :
  String.length (String.append s1 s2) = (String.length s1 + String.length s2)%nat.
Proof. induction s1 as [|c s1 IH]; simpl; [reflexivity | rewrite IH; reflexivity]. Qed.

#[export] Hint Rewrite string_length_app : appt_rw.

(** ** Options *)

(** Invert a hypothesis [x ← m; k x = Some y] (possibly with a pair
    pattern), one bind after the other. *)
Ltac bind_inv H :=
  repeat match type of H with
  | mbind _ _ = Some _ =>
      let x := fresh "x" in let Hx := fresh "Hx" in
      apply bind_Some in H as (x & Hx & H); clear Hx; try destruct x as [? ?]; cbv beta iota in H
  end.

(** ** Runs of a step relation *)

Section Runs.
Context {A B : Type} (R : A -> A -> Prop) (Sp : B -> B -> Prop) (I : A -> Prop).

(** An invariant of every step holds along every run. *)
Lemma rtc_invariant (x y : A) :
  (forall a b, I a -> R a b -> I b) -> I x -> rtc R x y -> I y.
Proof. intros Hstep Hx Hr. induction Hr; eauto. Qed.

(** A step that an abstraction [f] maps to abstract steps, in states of
    the invariant [I], makes every run an abstract run. *)
Lemma rtc_simulation (f : A -> B) (x y : A) :
  (forall a b, I a -> R a b -> I b) ->
  (forall a b, I a -> R a b -> rtc Sp (f a) (f b)) ->
  I x -> rtc R x y -> rtc Sp (f x) (f y).
Proof.
  intros Hinv Hsim Hx Hr. induction Hr as [|a b c Hab Hbc IH]; [reflexivity|].
  etrans; [exact (Hsim a b Hx Hab) | exact (IH (Hinv a b Hx Hab))].
Qed.

End Runs.
