(* ===== verification/DateFormat.v ===== *)
(** * ECMAScript dates: time values, [toISOString], [toString], [Date.parse]

    The backend stores every time as a JavaScript [Date] (the schema fields
    [scheduledTime: Date] and [availableSlots: [Date]]). Three conversions
    between dates and strings decide what the handlers do:
    - [JSON.stringify] (used by [res.json]) writes a date with [toJSON], that
      is [toISOString] (ECMA-262, 21.4.4.36-37);
    - [Array.prototype.join] and the loose comparison [==] turn a date into
      a string with [toString] (21.4.4.41);
    - [new Date(string)] reads it back with [Date.parse] (21.4.3.2).
    The process is assumed to run with the time zone UTC, the zone whose
    [toString] this file prints. *)

From Stdlib Require Import ZArith String Ascii List Lia.
From S2P Require Import Prelude.
Import ListNotations.
#[local] Open Scope string_scope.
#[local] Open Scope Z_scope.

(** ** Time values and calendar fields (ECMA-262, 21.4.1) *)

Definition msPerDay : Z := 86400000.

(** TimeClip: a time value is valid when its magnitude is at most 8.64e15. *)
Definition time_valid (t : Z) : bool := Z.abs t <=? 8640000000000000.

Definition Day (t : Z) : Z := t / msPerDay.
Definition TimeWithinDay (t : Z) : Z := t mod msPerDay.
Definition WeekDay (t : Z) : Z := (Day t + 4) mod 7.
Definition HourFromTime (t : Z) : Z := (t / 3600000) mod 24.
Definition MinFromTime (t : Z) : Z := (t / 60000) mod 60.
Definition SecFromTime (t : Z) : Z := (t / 1000) mod 60.
Definition msFromTime (t : Z) : Z := t mod 1000.

(** Year, month (1-12) and day of the month of a day number, by the
    proleptic Gregorian calendar (the era computation of H. Hinnant's
    [civil_from_days], which ECMA-262's YearFromTime/MonthFromTime/
    DateFromTime agree with). *)
Definition civil_from_days (z0 : Z) : Z * Z * Z :=
  let z := z0 + 719468 in
  let era := z / 146097 in
  let doe := z - era * 146097 in
  let yoe := (doe - doe / 1460 + doe / 36524 - doe / 146096) / 365 in
  let doy := doe - (365 * yoe + yoe / 4 - yoe / 100) in
  let mp := (5 * doy + 2) / 153 in
  let d := doy - (153 * mp + 2) / 5 + 1 in
  let m := if mp <? 10 then mp + 3 else mp - 9 in
  let y := yoe + era * 400 in
  (if m <=? 2 then y + 1 else y, m, d).

(** MakeDay for a civil date: the inverse of [civil_from_days]. *)
Definition days_from_civil (y0 m d : Z) : Z :=
  let y := if m <=? 2 then y0 - 1 else y0 in
  let era := y / 400 in
  let yoe := y - era * 400 in
  let mp := if m >? 2 then m - 3 else m + 9 in
  let doy := (153 * mp + 2) / 5 + d - 1 in
  let doe := yoe * 365 + yoe / 4 - yoe / 100 + doy in
  era * 146097 + doe - 719468.

Definition YearFromTime (t : Z) : Z := fst (fst (civil_from_days (Day t))).
Definition MonthFromTime (t : Z) : Z := snd (fst (civil_from_days (Day t))).
Definition DateFromTime (t : Z) : Z := snd (civil_from_days (Day t)).

(** ** Decimal digits *)

Definition digit_char (d : Z) : ascii := ascii_of_nat (48 + Z.to_nat d).

(** The [w] last decimal digits of [n], most significant first. *)
Fixpoint fixed_dec_aux (w : nat) (n : Z) (acc : string) : string :=
  match w with
  | O => acc
  | S w' => fixed_dec_aux w' (n / 10) (String (digit_char (n mod 10)) acc)
  end.

Definition fixed_dec (w : nat) (n : Z) : string := fixed_dec_aux w n "".

Definition is_digit (c : ascii) : bool :=
  (48 <=? nat_of_ascii c)%nat && (nat_of_ascii c <=? 57)%nat.

(** ** [Date.prototype.toISOString] *)

(** The year: four digits between 0 and 9999, otherwise a sign and six
    digits (the expanded years of 21.4.1.32.1). *)
Definition iso_year (y : Z) : string :=
  if (0 <=? y) && (y <=? 9999) then fixed_dec 4 y
  else (if y <? 0 then "-" else "+") ++ fixed_dec 6 (Z.abs y).

(** [None] is the RangeError thrown on an invalid date. *)
Definition date_toISOString (t : Z) : option string :=
  if time_valid t then
    Some (iso_year (YearFromTime t) ++ "-" ++ fixed_dec 2 (MonthFromTime t) ++ "-"
          ++ fixed_dec 2 (DateFromTime t) ++ "T" ++ fixed_dec 2 (HourFromTime t) ++ ":"
          ++ fixed_dec 2 (MinFromTime t) ++ ":" ++ fixed_dec 2 (SecFromTime t) ++ "."
          ++ fixed_dec 3 (msFromTime t) ++ "Z")
  else None.

(** ** [Date.prototype.toString] in the time zone UTC *)

Definition week_day_name (wd : Z) : string :=
  match wd with
  | 0 => "Sun" | 1 => "Mon" | 2 => "Tue" | 3 => "Wed"
  | 4 => "Thu" | 5 => "Fri" | _ => "Sat"
  end.

Definition month_name (m : Z) : string :=
  match m with
  | 1 => "Jan" | 2 => "Feb" | 3 => "Mar" | 4 => "Apr" | 5 => "May" | 6 => "Jun"
  | 7 => "Jul" | 8 => "Aug" | 9 => "Sep" | 10 => "Oct" | 11 => "Nov" | _ => "Dec"
  end.

(** The year is padded to at least four digits; a valid time value has a
    year of at most six digits (|year| <= 275760). *)
Definition year_digits (y : Z) : nat :=
  if y <? 10000 then 4 else if y <? 100000 then 5 else 6.

(** DateString (21.4.4.41.2). *)
Definition DateString (t : Z) : string :=
  let y := YearFromTime t in
  week_day_name (WeekDay t) ++ " " ++ month_name (MonthFromTime t) ++ " "
  ++ fixed_dec 2 (DateFromTime t) ++ " " ++ (if y <? 0 then "-" else "")
  ++ fixed_dec (year_digits (Z.abs y)) (Z.abs y).

(** TimeString and TimeZoneString (21.4.4.41.1, 21.4.4.41.3) for UTC, with
    the zone name Node.js prints. *)
Definition TimeString (t : Z) : string :=
  fixed_dec 2 (HourFromTime t) ++ ":" ++ fixed_dec 2 (MinFromTime t) ++ ":"
  ++ fixed_dec 2 (SecFromTime t) ++ " GMT".

Definition TimeZoneString : string := "+0000 (Coordinated Universal Time)".

Definition date_toString (t : Z) : string :=
  if time_valid t then DateString t ++ " " ++ TimeString t ++ TimeZoneString
  else "Invalid Date".

(** ** [Date.parse] on the two formats above (21.4.3.2)

    The standard requires [Date.parse] to read the Date Time String Format
    that [toISOString] writes, and to give back [x] from [x.toString()] when
    [x] has no milliseconds. These are the two readers below; any other
    string is read as NaN ([None]). (Node.js also accepts further
    implementation-specific formats; no claim of the development reads one.) *)

Definition digit_val (c : ascii) : option Z :=
  if is_digit c then Some (Z.of_nat (nat_of_ascii c) - 48) else None.

(** Exactly [n] digits, most significant first. *)
Fixpoint read_fixed (n : nat) (acc : Z) (cs : list ascii) : option (Z * list ascii) :=
  match n with
  | O => Some (acc, cs)
  | S n' =>
      match cs with
      | c :: cs' => d ← digit_val c; read_fixed n' (acc * 10 + d) cs'
      | [] => None
      end
  end.

Definition expect (c : ascii) (cs : list ascii) : option (list ascii) :=
  match cs with
  | c' :: cs' => if Ascii.eqb c c' then Some cs' else None
  | [] => None
  end.

Definition is_leap (y : Z) : bool :=
  (y mod 4 =? 0) && (negb (y mod 100 =? 0) || (y mod 400 =? 0)).

Definition days_in_month (y m : Z) : Z :=
  match m with
  | 2 => if is_leap y then 29 else 28
  | 4 | 6 | 9 | 11 => 30
  | _ => 31
  end.

(** MakeDate (MakeDay y m d) (MakeTime h mi s ms), then TimeClip, after the
    range checks of the format. *)
Definition make_time_value (y m d h mi s ms : Z) : option Z :=
  if (1 <=? m) && (m <=? 12) && (1 <=? d) && (d <=? days_in_month y m)
     && (0 <=? h) && (h <=? 23) && (0 <=? mi) && (mi <=? 59) && (0 <=? s) && (s <=? 59)
  then let t := days_from_civil y m d * msPerDay + h * 3600000 + mi * 60000 + s * 1000 + ms in
       if time_valid t then Some t else None
  else None.

Definition read_iso_year (cs : list ascii) : option (Z * list ascii) :=
  match cs with
  | "+"%char :: cs' => read_fixed 6 0 cs'
  | "-"%char :: cs' =>
      '(y, r) ← read_fixed 6 0 cs'; if y =? 0 then None else Some (- y, r)
  | _ => read_fixed 4 0 cs
  end.

(** YYYY-MM-DDTHH:mm:ss.sssZ, with the expanded years. *)
Definition parse_iso (cs : list ascii) : option Z :=
  '(y, r) ← read_iso_year cs; r ← expect "-" r;
  '(m, r) ← read_fixed 2 0 r; r ← expect "-" r;
  '(d, r) ← read_fixed 2 0 r; r ← expect "T" r;
  '(h, r) ← read_fixed 2 0 r; r ← expect ":" r;
  '(mi, r) ← read_fixed 2 0 r; r ← expect ":" r;
  '(s, r) ← read_fixed 2 0 r; r ← expect "." r;
  '(ms, r) ← read_fixed 3 0 r; r ← expect "Z" r;
  match r with [] => make_time_value y m d h mi s ms | _ => None end.

Definition month_of_name (a b c : ascii) : option Z :=
  let s := String a (String b (String c "")) in
  List.find (fun m => String.eqb (month_name m) s) [1; 2; 3; 4; 5; 6; 7; 8; 9; 10; 11; 12].

(** The year of [toString]: an optional minus sign and four to six digits. *)
Definition read_year_dec (cs : list ascii) : option (Z * list ascii) :=
  let '(neg, r) := match cs with "-"%char :: r => (true, r) | _ => (false, cs) end in
  let go n := '(y, r') ← read_fixed n 0 r;
              match r' with " "%char :: _ => Some (if neg then - y else y, r') | _ => None end in
  match go 4%nat with Some p => Some p | None =>
  match go 5%nat with Some p => Some p | None => go 6%nat end end.

(** Www Mmm DD YYYY HH:mm:ss GMT+hhmm, followed by anything (the zone name). *)
Definition parse_date_string (cs : list ascii) : option Z :=
  match cs with
  | _ :: _ :: _ :: " "%char :: m1 :: m2 :: m3 :: " "%char :: r =>
      m ← month_of_name m1 m2 m3;
      '(d, r) ← read_fixed 2 0 r; r ← expect " " r;
      '(y, r) ← read_year_dec r; r ← expect " " r;
      '(h, r) ← read_fixed 2 0 r; r ← expect ":" r;
      '(mi, r) ← read_fixed 2 0 r; r ← expect ":" r;
      '(s, r) ← read_fixed 2 0 r;
      r ← expect " " r; r ← expect "G" r; r ← expect "M" r; r ← expect "T" r;
      let '(sg, r) := match r with
                      | "-"%char :: r => (-1, r) | "+"%char :: r => (1, r) | _ => (0, r) end in
      '(oh, r) ← read_fixed 2 0 r; '(om, _) ← read_fixed 2 0 r;
      if sg =? 0 then None else
      t ← make_time_value y m d h mi s 0;
      let t' := t - sg * (oh * 3600000 + om * 60000) in
      if time_valid t' then Some t' else None
  | _ => None
  end.

Definition date_parse (s : string) : option Z :=
  let cs := list_ascii_of_string s in
  match parse_iso cs with
  | Some t => Some t
  | None => parse_date_string cs
  end.

(** ** The two formats never meet

    Every string [toISOString] writes starts with a digit or a sign; every
    string [toString] writes starts with an upper-case letter (a week-day
    name, or the [I] of ["Invalid Date"]). *)

Definition is_upper (c : ascii) : bool :=
  (65 <=? nat_of_ascii c)%nat && (nat_of_ascii c <=? 90)%nat.

Definition head_char (s : string) : option ascii :=
  match s with String c _ => Some c | EmptyString => None end.

Lemma digit_char_is_digit (n : Z) : is_digit (digit_char (n mod 10)) = true.
Proof.
  unfold is_digit, digit_char.
  pose proof (Z.mod_pos_bound n 10 ltac:(lia)).
  rewrite nat_ascii_embedding by lia.
  apply andb_true_iff; split; apply Nat.leb_le; lia.
Qed.

Lemma fixed_dec_aux_head (w : nat) (n : Z) (acc : string) :
  (w > 0)%nat \/ (exists c, head_char acc = Some c /\ is_digit c = true) ->
  exists c, head_char (fixed_dec_aux w n acc) = Some c /\ is_digit c = true.
Proof.
  revert n acc. induction w as [|w IH]; intros n acc H; simpl.
  - destruct H as [H|H]; [lia | exact H].
  - apply IH. right. exists (digit_char (n mod 10)).
    split; [reflexivity | apply digit_char_is_digit].
Qed.

Lemma fixed_dec_head (w : nat) (n : Z) :
  (w > 0)%nat -> exists c, head_char (fixed_dec w n) = Some c /\ is_digit c = true.
Proof. intros Hw. apply fixed_dec_aux_head. left. exact Hw. Qed.

Lemma head_char_app (s1 s2 : string) (c : ascii) :
  head_char s1 = Some c -> head_char (s1 ++ s2) = Some c.
Proof. destruct s1; simpl; congruence. Qed.

Lemma toISOString_head (t : Z) (s : string) :
  date_toISOString t = Some s ->
  exists c, head_char s = Some c /\
            (is_digit c = true \/ c = "+"%char \/ c = "-"%char).
Proof.
  unfold date_toISOString. destruct (time_valid t); [|discriminate].
  intros [= <-]. unfold iso_year.
  destruct ((0 <=? YearFromTime t) && (YearFromTime t <=? 9999)).
  - destruct (fixed_dec_head 4 (YearFromTime t)) as (c & Hc & Hd); [lia|].
    exists c. split; [apply head_char_app; exact Hc | left; exact Hd].
  - destruct (YearFromTime t <? 0); eexists; (split; [reflexivity | auto]).
Qed.

Lemma week_day_name_head (wd : Z) :
  exists c, head_char (week_day_name wd) = Some c /\ is_upper c = true.
Proof. unfold week_day_name. repeat case_match; eexists; split; reflexivity. Qed.

Lemma toString_head (t : Z) :
  exists c, head_char (date_toString t) = Some c /\ is_upper c = true.
Proof.
  unfold date_toString. destruct (time_valid t); [|eexists; split; reflexivity].
  unfold DateString. destruct (week_day_name_head (WeekDay t)) as (c & Hc & Hu).
  exists c. split; [| exact Hu].
  apply head_char_app, head_char_app, Hc.
Qed.

(** No string written by [toISOString] equals one written by [toString]. *)
Lemma toISOString_ne_toString (t t' : Z) (s : string) :
  date_toISOString t = Some s -> s <> date_toString t'.
Proof.
  intros Hs ->. destruct (toISOString_head t _ Hs) as (c & Hc & Hk).
  destruct (toString_head t') as (c' & Hc' & Hu).
  rewrite Hc in Hc'. injection Hc' as <-.
  destruct Hk as [Hd | [-> | ->]]; [| discriminate | discriminate].
  revert Hd Hu. unfold is_digit, is_upper.
  rewrite !andb_true_iff, !Nat.leb_le. lia.
Qed.
