(* ===== verification/DateProofs.v ===== *)
(** * Round trips of [Date.parse] with [toISOString] and [toString]

    [Date.parse] must give back the time value a date was printed from
    (ECMA-262, 21.4.3.2): exactly for [toISOString], and up to the
    milliseconds for [toString]. The proof has three layers:
    - the calendar: [days_from_civil] inverts [civil_from_days] on every
      day number, and the civil date it produces is a real date (month
      1-12, day within the month, February 29 only in a leap year). The
      arithmetic over one 400-year era is done by [lia] once the divisions
      are turned into equations;
    - the clock: a time value is its day times [msPerDay] plus the hours,
      minutes, seconds and milliseconds [toISOString] prints;
    - the text: reading back [fixed_dec w n] with [read_fixed w] gives [n]
      when it has at most [w] digits. *)

From Stdlib Require Import ZArith String Ascii List Lia.
From S2P Require Import Prelude DateFormat.
Import ListNotations.
#[local] Open Scope string_scope.
#[local] Open Scope Z_scope.

(** ** The calendar *)

(** The year of the era, and the first day of a year of the era, in the
    era's March-based years ([civil_from_days], lines [yoe] and [doy]). *)
Definition year_of_era (doe : Z) : Z := (doe - doe / 1460 + doe / 36524 - doe / 146096) / 365.
Definition year_start (yoe : Z) : Z := 365 * yoe + yoe / 4 - yoe / 100.

Lemma year_of_era_bounds (doe : Z) :
  0 <= doe <= 146096 ->
  0 <= year_of_era doe <= 399 /\
  year_start (year_of_era doe) <= doe <= year_start (year_of_era doe) + 365.
Proof. unfold year_of_era, year_start. intros. Z.div_mod_to_equations. lia. Qed.

(** The 366th day of a March-based year ends with February 29 of the next
    calendar year, which is then a leap year. *)
Lemma year_of_era_leap (doe : Z) :
  0 <= doe <= 146096 -> doe - year_start (year_of_era doe) = 365 ->
  is_leap (year_of_era doe + 1) = true.
Proof.
  unfold is_leap. intros Hd Hl.
  assert ((year_of_era doe + 1) mod 4 = 0 /\ ((year_of_era doe + 1) mod 100 <> 0 \/
          (year_of_era doe + 1) mod 400 = 0)) as [H4 [H100 | H400]]
    by (revert Hl; unfold year_of_era, year_start; Z.div_mod_to_equations; lia).
  - apply Z.eqb_neq in H100. rewrite H4, H100. reflexivity.
  - apply Z.eqb_eq in H400. rewrite H4, H400, orb_true_r. reflexivity.
Qed.

(** The calendar repeats every 400 years. *)
Lemma is_leap_shift (y k : Z) : is_leap (y + k * 400) = is_leap y.
Proof.
  unfold is_leap.
  replace (y + k * 400) with (y + (k * 100) * 4) by lia. rewrite Z.mod_add by lia.
  replace (y + k * 100 * 4) with (y + (k * 4) * 100) by lia. rewrite Z.mod_add by lia.
  replace (y + k * 4 * 100) with (y + k * 400) by lia. rewrite Z.mod_add by lia.
  reflexivity.
Qed.

(** Names the pieces of [civil_from_days z]: the era, the day [doe] and
    year [yoe] of the era, the day [doy] of the March-based year, and its
    month index [mp] (0 for March). *)
Ltac civil_setup z :=
  unfold civil_from_days;
  let era := fresh "era" in let doe := fresh "doe" in
  set (era := (z + 719468) / 146097);
  set (doe := z + 719468 - era * 146097);
  let Hdoe := fresh "Hdoe" in let Hz := fresh "Hz" in let Hera := fresh "Hera" in
  assert (Hdoe : 0 <= doe <= 146096) by (unfold doe, era; Z.div_mod_to_equations; lia);
  assert (Hz : z = era * 146097 + doe - 719468) by (unfold doe; lia);
  assert (Hera : era = (z + 719468) / 146097) by reflexivity;
  clearbody era doe;
  change ((doe - doe / 1460 + doe / 36524 - doe / 146096) / 365) with (year_of_era doe);
  change (doe - (365 * year_of_era doe + year_of_era doe / 4 - year_of_era doe / 100))
    with (doe - year_start (year_of_era doe));
  let Hy := fresh "Hy" in
  pose proof (year_of_era_bounds doe Hdoe) as Hy;
  pose proof (year_of_era_leap doe Hdoe) as Hleap;
  let yoe := fresh "yoe" in let doy := fresh "doy" in let mp := fresh "mp" in
  set (yoe := year_of_era doe) in *;
  set (doy := doe - year_start yoe) in *;
  assert (0 <= doy <= 365) by lia;
  set (mp := (5 * doy + 2) / 153);
  assert (0 <= mp <= 11) by (unfold mp; Z.div_mod_to_equations; lia);
  assert (153 * mp <= 5 * doy + 2 < 153 * mp + 153) by (unfold mp; Z.div_mod_to_equations; lia);
  clearbody mp.

Lemma days_in_month_cases (y m : Z) :
  1 <= m <= 12 ->
  (m = 2 /\ days_in_month y m = if is_leap y then 29 else 28) \/
  ((m = 4 \/ m = 6 \/ m = 9 \/ m = 11) /\ days_in_month y m = 30) \/
  (m <> 2 /\ m <> 4 /\ m <> 6 /\ m <> 9 /\ m <> 11 /\ days_in_month y m = 31).
Proof.
  intros Hm.
  assert (m = 1 \/ m = 2 \/ m = 3 \/ m = 4 \/ m = 5 \/ m = 6 \/ m = 7 \/ m = 8 \/
          m = 9 \/ m = 10 \/ m = 11 \/ m = 12) as Hc by lia.
  repeat destruct Hc as [-> | Hc]; subst; intuition (try reflexivity; lia).
Qed.

Lemma days_in_month_le (y m : Z) : days_in_month y m <= 31.
Proof. unfold days_in_month. repeat case_match; lia. Qed.

(** [days_from_civil] gives back the day of [civil_from_days], and the
    civil date is a real date of a year of the day's era. *)
Lemma civil_from_days_spec (z : Z) :
  let '(y, m, d) := civil_from_days z in
  days_from_civil y m d = z /\ 1 <= m <= 12 /\ 1 <= d <= days_in_month y m /\
  (z + 719468) / 146097 * 400 <= y <= (z + 719468) / 146097 * 400 + 400.
Proof.
  civil_setup z. unfold days_from_civil.
  assert (Hk : forall k, k = yoe + era * 400 -> k / 400 = era)
    by (intros k ->; Z.div_mod_to_equations; lia).
  repeat match goal with |- context [if ?b then _ else _] => destruct b eqn:? end;
  rewrite ?Z.gtb_ltb, ?Z.ltb_lt, ?Z.ltb_ge, ?Z.leb_le, ?Z.leb_gt in *;
  rewrite ?Hk by lia;
  match goal with |- context [days_in_month ?y ?m] =>
    destruct (days_in_month_cases y m ltac:(lia)) as [[Hm ->] | [[Hm ->] | (Hm & ? & ? & ? & ? & ->)]] end;
  try (unfold doy, year_start in *; Z.div_mod_to_equations; lia).
  (* February 29 *)
  replace (yoe + era * 400 + 1) with (yoe + 1 + era * 400) by lia. rewrite is_leap_shift.
  destruct (is_leap (yoe + 1)) eqn:Hl;
    [| assert (doy <> 365) by (intros E; specialize (Hleap E); discriminate)];
    unfold doy, year_start in *; Z.div_mod_to_equations; lia.
Qed.

(** ** The clock *)

(** A time value is its day and the four fields of the time of day that
    [toISOString] prints, each within its range. *)
Lemma time_fields (t : Z) :
  t = Day t * msPerDay + HourFromTime t * 3600000 + MinFromTime t * 60000
      + SecFromTime t * 1000 + msFromTime t /\
  0 <= HourFromTime t <= 23 /\ 0 <= MinFromTime t <= 59 /\ 0 <= SecFromTime t <= 59 /\
  0 <= msFromTime t <= 999.
Proof.
  unfold Day, msPerDay, HourFromTime, MinFromTime, SecFromTime, msFromTime.
  Z.div_mod_to_equations. lia.
Qed.

(** ** Reading back what [toISOString] writes *)

Lemma list_ascii_of_string_app (s1 s2 : string) :
  list_ascii_of_string (s1 ++ s2) = (list_ascii_of_string s1 ++ list_ascii_of_string s2)%list.
Proof. induction s1 as [|c s1 IH]; simpl; [reflexivity | rewrite IH; reflexivity]. Qed.

Lemma fixed_dec_aux_app (w : nat) (n : Z) (acc : string) :
  list_ascii_of_string (fixed_dec_aux w n acc) =
  (list_ascii_of_string (fixed_dec w n) ++ list_ascii_of_string acc)%list.
Proof.
  unfold fixed_dec. revert n acc. induction w as [|w IH]; intros n acc; [reflexivity|].
  simpl. rewrite (IH _ (String _ acc)), (IH _ (String _ "")), <- app_assoc. reflexivity.
Qed.

Lemma digit_val_digit_char (k : Z) : 0 <= k <= 9 -> digit_val (digit_char k) = Some k.
Proof.
  intros Hk. unfold digit_val, digit_char, is_digit.
  rewrite nat_ascii_embedding by lia.
  replace ((48 <=? 48 + Z.to_nat k)%nat && (48 + Z.to_nat k <=? 57)%nat) with true
    by (symmetry; apply andb_true_iff; split; apply Nat.leb_le; lia).
  f_equal. lia.
Qed.

Lemma read_fixed_app (a b : nat) (acc : Z) (cs : list ascii) :
  read_fixed (a + b) acc cs = '(v, r) ← read_fixed a acc cs; read_fixed b v r.
Proof.
  revert acc cs. induction a as [|a IH]; intros acc cs; [reflexivity|].
  simpl. destruct cs as [|c cs]; [reflexivity|]. destruct (digit_val c); [apply IH | reflexivity].
Qed.

(** Reading [w] digits back from [fixed_dec w n] gives the [w] last digits
    of [n]. *)
Lemma read_fixed_dec (w : nat) (n acc : Z) (r : list ascii) :
  0 <= n ->
  read_fixed w acc (list_ascii_of_string (fixed_dec w n) ++ r)%list =
  Some (acc * 10 ^ Z.of_nat w + n mod 10 ^ Z.of_nat w, r).
Proof.
  revert n acc r. induction w as [|w IH]; intros n acc r Hn.
  - simpl. f_equal. f_equal. rewrite Z.mod_1_r. lia.
  - unfold fixed_dec at 1. simpl fixed_dec_aux. rewrite fixed_dec_aux_app, <- app_assoc.
    rewrite <- Nat.add_1_r, read_fixed_app, IH by (apply Z.div_pos; lia).
    cbn [list_ascii_of_string app mbind option_bind read_fixed].
    rewrite digit_val_digit_char by (pose proof (Z.mod_pos_bound n 10); lia).
    cbn [mbind option_bind read_fixed].
    rewrite Nat2Z.inj_add, Z.pow_add_r by lia. change (10 ^ Z.of_nat 1) with 10.
    rewrite (Z.mul_comm (10 ^ Z.of_nat w) 10), Z.rem_mul_r by lia.
    f_equal. f_equal. ring.
Qed.


Lemma read_fixed_small (w : nat) (n : Z) (r : list ascii) :
  0 <= n < 10 ^ Z.of_nat w ->
  read_fixed w 0 (list_ascii_of_string (fixed_dec w n) ++ r)%list = Some (n, r).
Proof. intros Hn. rewrite read_fixed_dec by lia. rewrite Z.mod_small by lia. reflexivity. Qed.

Lemma head_char_cons (s : string) (c : ascii) :
  head_char s = Some c -> exists cs, list_ascii_of_string s = c :: cs.
Proof. destruct s as [|c' s]; simpl; [discriminate | intros [= ->]; eauto]. Qed.

(** A year field that starts with a digit is read as four digits. *)
Lemma read_iso_year_digit (c : ascii) (cs : list ascii) :
  is_digit c = true -> read_iso_year (c :: cs) = read_fixed 4 0 (c :: cs).
Proof. destruct c as [[] [] [] [] [] [] [] []]; intros H; try reflexivity; discriminate H. Qed.

Lemma read_iso_year_ok (y : Z) (r : list ascii) :
  Z.abs y < 1000000 ->
  read_iso_year (list_ascii_of_string (iso_year y) ++ r)%list = Some (y, r).
Proof.
  intros Hy. unfold iso_year.
  destruct ((0 <=? y) && (y <=? 9999)) eqn:Hs.
  - apply andb_true_iff in Hs as [H0 H1]. apply Z.leb_le in H0, H1.
    destruct (fixed_dec_head 4 y) as (c & Hc & Hd); [lia|].
    destruct (head_char_cons _ _ Hc) as [cs Hcs].
    pose proof (read_fixed_small 4 y r) as Hr. rewrite Hcs in Hr |- *. simpl app.
    rewrite read_iso_year_digit by exact Hd. apply Hr. simpl. lia.
  - rewrite list_ascii_of_string_app, <- app_assoc.
    destruct (y <? 0) eqn:Hn; cbn [list_ascii_of_string app read_iso_year];
      rewrite read_fixed_small by (simpl; lia); cbn [mbind option_bind].
    + apply Z.ltb_lt in Hn. rewrite (proj2 (Z.eqb_neq _ 0)) by lia. f_equal. f_equal. lia.
    + apply Z.ltb_ge in Hn. f_equal. f_equal. lia.
Qed.

(** A valid time value has a year of at most six digits. *)
Lemma year_bound (t : Z) : time_valid t = true -> Z.abs (YearFromTime t) <= 276000.
Proof.
  unfold time_valid, YearFromTime. intros Hv. apply Z.leb_le in Hv.
  pose proof (civil_from_days_spec (Day t)) as Hs.
  destruct (civil_from_days (Day t)) as [[y m] d]. simpl. destruct Hs as (_ & _ & _ & Hy).
  revert Hy. unfold Day, msPerDay. Z.div_mod_to_equations. lia.
Qed.

(** The checks of [make_time_value] pass on the fields of a real date. *)
Lemma make_time_value_ok (y m d h mi s ms : Z) :
  1 <= m <= 12 -> 1 <= d <= days_in_month y m -> 0 <= h <= 23 -> 0 <= mi <= 59 ->
  0 <= s <= 59 ->
  time_valid (days_from_civil y m d * msPerDay + h * 3600000 + mi * 60000 + s * 1000 + ms) = true ->
  make_time_value y m d h mi s ms =
  Some (days_from_civil y m d * msPerDay + h * 3600000 + mi * 60000 + s * 1000 + ms).
Proof.
  intros Hm Hd Hh Hmi Hs Hv. unfold make_time_value.
  repeat rewrite (proj2 (Z.leb_le _ _)) by lia. simpl. rewrite Hv. reflexivity.
Qed.

#[local] Opaque fixed_dec.

(** The fields of a valid time value, and its calendar date. *)
Ltac time_setup t :=
  let Hf := fresh "Hf" in let Hs := fresh "Hs" in let Hyb := fresh "Hyb" in
  pose proof (time_fields t) as Hf;
  pose proof (civil_from_days_spec (Day t)) as Hs;
  unfold YearFromTime, MonthFromTime, DateFromTime in *;
  destruct (civil_from_days (Day t)) as [[?y ?m] ?d]; simpl fst in *; simpl snd in *;
  pose proof (days_in_month_le y m).

Ltac read_field :=
  rewrite ?list_ascii_of_string_app; rewrite read_fixed_small by (simpl; lia);
  cbn [list_ascii_of_string app mbind option_bind expect Ascii.eqb Bool.eqb].

(** [Date.parse] reads back every string [toISOString] writes. *)
Theorem parse_toISOString (t : Z) (s : string) :
  date_toISOString t = Some s -> date_parse s = Some t.
Proof.
  unfold date_toISOString. destruct (time_valid t) eqn:Hv; [intros [= <-] | discriminate].
  pose proof (year_bound t Hv) as Hyb. time_setup t.
  destruct Hs as (Hday & Hm & Hd & _). destruct Hf as (Ht & Hh & Hmi & Hsec & Hms).
  unfold date_parse. rewrite !list_ascii_of_string_app. unfold parse_iso.
  rewrite read_iso_year_ok by lia. cbn [list_ascii_of_string app mbind option_bind expect Ascii.eqb Bool.eqb].
  do 6 read_field.
  rewrite make_time_value_ok by (rewrite ?Hday, <- ?Ht; assumption || lia).
  rewrite Hday, <- Ht. reflexivity.
Qed.

(** ** Reading back what [toString] writes *)

#[local] Transparent fixed_dec.

(** The [j + i] last digits of [n] are its [j] digits above [10 ^ i]
    followed by its [i] last digits. *)
Lemma fixed_dec_split (j i : nat) (n : Z) :
  0 <= n ->
  list_ascii_of_string (fixed_dec (j + i) n) =
  (list_ascii_of_string (fixed_dec j (n / 10 ^ Z.of_nat i)) ++ list_ascii_of_string (fixed_dec i n))%list.
Proof.
  revert n. induction i as [|i IH]; intros n Hn.
  - rewrite Nat.add_0_r, Z.div_1_r, app_nil_r. reflexivity.
  - rewrite Nat.add_succ_r. unfold fixed_dec at 1 3. simpl fixed_dec_aux.
    rewrite !fixed_dec_aux_app, IH by (apply Z.div_pos; lia).
    assert (E : n / 10 ^ Z.of_nat (S i) = n / 10 / 10 ^ Z.of_nat i)
      by (rewrite Nat2Z.inj_succ, Z.pow_succ_r, Z.div_div by lia; reflexivity).
    rewrite E, app_assoc. reflexivity.
Qed.

#[local] Opaque fixed_dec.

(** Reading fewer digits than [fixed_dec k n] has leaves a digit next. *)
Lemma read_fixed_short (j k : nat) (n : Z) (r : list ascii) :
  (j < k)%nat -> 0 <= n ->
  exists v c cs, read_fixed j 0 (list_ascii_of_string (fixed_dec k n) ++ r)%list = Some (v, c :: cs)
                 /\ is_digit c = true.
Proof.
  intros Hjk Hn. replace k with (j + (k - j))%nat by lia.
  rewrite fixed_dec_split, <- app_assoc, read_fixed_dec by (try apply Z.div_pos; lia).
  destruct (fixed_dec_head (k - j) n) as (c & Hc & Hd); [lia|].
  destruct (head_char_cons _ _ Hc) as [cs ->]. eauto.
Qed.

(** One attempt of [read_year_dec] (its local function [go]): [n] digits
    followed by a space. *)
Definition year_attempt (neg : bool) (r : list ascii) (n : nat) : option (Z * list ascii) :=
  '(y, r') ← read_fixed n 0 r;
  match r' with " "%char :: _ => Some (if neg then - y else y, r') | _ => None end.

Lemma read_year_dec_eq (cs : list ascii) :
  read_year_dec cs =
  let '(neg, r) := match cs with "-"%char :: r => (true, r) | _ => (false, cs) end in
  match year_attempt neg r 4 with Some p => Some p | None =>
  match year_attempt neg r 5 with Some p => Some p | None => year_attempt neg r 6 end end.
Proof. reflexivity. Qed.

Lemma year_attempt_short (neg : bool) (r : list ascii) (j : nat) (v : Z) (c : ascii) (cs : list ascii) :
  read_fixed j 0 r = Some (v, c :: cs) -> is_digit c = true -> year_attempt neg r j = None.
Proof.
  unfold year_attempt. intros E. rewrite E.
  destruct c as [[] [] [] [] [] [] [] []]; intros H; try reflexivity; discriminate H.
Qed.

Lemma year_attempt_space (neg : bool) (r : list ascii) (j : nat) (v : Z) (cs : list ascii) :
  read_fixed j 0 r = Some (v, " "%char :: cs) ->
  year_attempt neg r j = Some (if neg then - v else v, " "%char :: cs).
Proof. unfold year_attempt. intros E. rewrite E. reflexivity. Qed.

Lemma sign_of_digit (c : ascii) (cs : list ascii) :
  is_digit c = true ->
  match c :: cs with "-"%char :: r => (true, r) | _ => (false, c :: cs) end = (false, c :: cs).
Proof. destruct c as [[] [] [] [] [] [] [] []]; intros H; try reflexivity; discriminate H. Qed.

Ltac reduce_reads := cbn [list_ascii_of_string app mbind option_bind expect Ascii.eqb Bool.eqb].

(** [read_year_dec] tries four, five and six digits, and keeps the first
    reading followed by a space: that is the width [toString] printed. *)
Lemma read_year_dec_ok (y : Z) (r : list ascii) :
  Z.abs y < 1000000 ->
  read_year_dec (list_ascii_of_string (if y <? 0 then "-" else "")
                 ++ list_ascii_of_string (fixed_dec (year_digits (Z.abs y)) (Z.abs y))
                 ++ " "%char :: r)%list
  = Some (y, " "%char :: r).
Proof.
  intros Hy. rewrite read_year_dec_eq.
  set (k := year_digits (Z.abs y)).
  assert (Hk : (0 < k)%nat) by (unfold k, year_digits; repeat case_match; lia).
  destruct (y <? 0) eqn:Hneg; reduce_reads.
  2: destruct (fixed_dec_head k (Z.abs y) Hk) as (c & Hc & Hd);
     destruct (head_char_cons _ _ Hc) as [cs Hcs];
     rewrite Hcs, <- app_comm_cons, sign_of_digit, app_comm_cons, <- Hcs by exact Hd;
     cbv beta iota zeta.
  all: unfold k, year_digits;
    destruct (Z.abs y <? 10000) eqn:H4; [|destruct (Z.abs y <? 100000) eqn:H5];
    rewrite ?Z.ltb_lt, ?Z.ltb_ge in *;
    repeat match goal with
    | |- context [year_attempt ?neg (list_ascii_of_string (fixed_dec ?k' _) ++ _)%list ?j] =>
        (assert (j = k') by reflexivity;
         rewrite (year_attempt_space neg _ j (Z.abs y) r) by (apply read_fixed_small; simpl; lia)) ||
        (let v := fresh "v" in let c := fresh "c" in let cs := fresh "cs" in
         let E := fresh "E" in let D := fresh "D" in
         destruct (read_fixed_short j k' (Z.abs y) (" "%char :: r)) as (v & c & cs & E & D);
         [lia | lia | rewrite (year_attempt_short neg _ j v c cs E D)])
    end; f_equal; f_equal; lia.
Qed.

(** [toString] starts with an upper-case letter, where no ISO text can. *)
Lemma parse_iso_upper (c : ascii) (cs : list ascii) :
  is_upper c = true -> parse_iso (c :: cs) = None.
Proof.
  unfold parse_iso. intros H.
  replace (read_iso_year (c :: cs)) with (@None (Z * list ascii)); [reflexivity|].
  destruct c as [[] [] [] [] [] [] [] []]; try reflexivity; discriminate H.
Qed.

Lemma week_day_name_chars (wd : Z) :
  exists a b c, week_day_name wd = String a (String b (String c "")).
Proof. unfold week_day_name. repeat case_match; eauto. Qed.

Lemma month_name_chars (m : Z) :
  1 <= m <= 12 ->
  exists a b c, month_name m = String a (String b (String c "")) /\ month_of_name a b c = Some m.
Proof.
  intros Hm.
  assert (m = 1 \/ m = 2 \/ m = 3 \/ m = 4 \/ m = 5 \/ m = 6 \/ m = 7 \/ m = 8 \/
          m = 9 \/ m = 10 \/ m = 11 \/ m = 12) as Hc by lia.
  repeat destruct Hc as [-> | Hc]; subst; eexists _, _, _; split; reflexivity.
Qed.

(** The zone offset [+0000] reads as zero hours and zero minutes. *)
Lemma read_fixed_00 (r : list ascii) : read_fixed 2 0 ("0"%char :: "0"%char :: r) = Some (0, r).
Proof. reflexivity. Qed.

(** Dropping the milliseconds keeps a time value valid: -8.64e15 is a
    whole second. *)
Lemma time_valid_seconds (t : Z) : time_valid t = true -> time_valid (t - msFromTime t) = true.
Proof.
  unfold time_valid, msFromTime. rewrite !Z.leb_le. Z.div_mod_to_equations. lia.
Qed.

(** The ISO reader refuses a [toString] text. *)
Lemma parse_iso_toString (t : Z) : parse_iso (list_ascii_of_string (date_toString t)) = None.
Proof.
  destruct (toString_head t) as (c & Hc & Hu). destruct (head_char_cons _ _ Hc) as [cs ->].
  apply parse_iso_upper, Hu.
Qed.

(** The [toString] reader gives back the time value without its
    milliseconds. *)
Lemma parse_date_string_toString (t : Z) :
  time_valid t = true ->
  parse_date_string (list_ascii_of_string (date_toString t)) = Some (t - msFromTime t).
Proof.
  intros Hv. pose proof (year_bound t Hv) as Hyb.
  unfold date_toString. rewrite Hv. unfold DateString, TimeString, TimeZoneString.
  time_setup t. destruct Hs as (Hday & Hm & Hd & _). destruct Hf as (Ht & Hh & Hmi & Hsec & Hms).
  destruct (week_day_name_chars (WeekDay t)) as (a1 & a2 & a3 & ->).
  destruct (month_name_chars m Hm) as (b1 & b2 & b3 & -> & Hmon).
  rewrite !list_ascii_of_string_app, <- !app_assoc. reduce_reads.
  unfold parse_date_string. rewrite Hmon. reduce_reads.
  read_field. rewrite read_year_dec_ok by lia. reduce_reads. do 3 read_field.
  rewrite read_fixed_00. reduce_reads. rewrite read_fixed_00. cbn [mbind option_bind Z.eqb].
  assert (Hsec0 : days_from_civil y m d * msPerDay + HourFromTime t * 3600000
                  + MinFromTime t * 60000 + SecFromTime t * 1000 + 0 = t - msFromTime t) by lia.
  pose proof (time_valid_seconds t Hv) as Hv'.
  rewrite make_time_value_ok, Hsec0 by (rewrite ?Hsec0; assumption || lia). cbn [mbind option_bind].
  replace (t - msFromTime t - 1 * (0 * 3600000 + 0 * 60000)) with (t - msFromTime t) by lia.
  rewrite Hv'. reflexivity.
Qed.
