(* ===== verification/JsValue.v ===== *)
(** * JSON request values and their comparisons with stored dates

    [req.body] is produced by [body-parser]'s [JSON.parse]: its fields are
    JSON values, or [undefined] when absent ([option json] below, [None]
    being [undefined]). The rebooking handler compares such a value with the
    [Date] objects of [availableSlots] twice (src/backend/index.js):
    - line 124, [doctorSchedule.availableSlots.includes(newSlot)]: the array
      is a MongooseArray, whose [includes] is [indexOf(obj) !== -1] with
      [indexOf] testing [obj == this[i]], the loose equality of ECMA-262
      (7.2.14);
    - line 133, [filter(slot => slot !== newSlot)], the strict equality
      (7.2.15).
    This file defines those comparisons for a JSON value against a date,
    [new Date(v)] (21.4.2.1), [Array.prototype.join] over dates, and the
    serialisation of a date by [JSON.stringify]; and, from the round trips
    of DateProofs, what [new Date(v)] gives on the two texts of a date. *)

From Stdlib Require Import ZArith String Ascii List Lia DecimalString.
From S2P Require Import Prelude DateFormat DateProofs.
Import ListNotations.
#[local] Open Scope string_scope.
#[local] Open Scope Z_scope.
#[local] Set Warnings "-register-all".

(** JSON values. Numbers are kept as integers: every number the handlers
    compare or convert is a time value in milliseconds. *)
Inductive json :=
| JNull
| JBool (b : bool)
| JNum (n : Z)
| JStr (s : string)
| JArr (l : list json)
| JObj (fields : list (string * json)).

(** [const { k } = body]: the value of the last field named [k] (the one
    [JSON.parse] keeps), [undefined] when there is none or when the body
    is not an object. *)
Definition body_field (body : json) (k : string) : option json :=
  match body with
  | JObj fs => option_map snd (List.find (fun kv => String.eqb (fst kv) k) (List.rev fs))
  | _ => None
  end.

(** ToString of a JSON value after ToPrimitive: arrays are joined with
    commas (null elements become empty strings), objects print as
    ["[object Object]"]. *)
Fixpoint js_to_string (v : json) : string :=
  match v with
  | JNull => "null"
  | JBool b => if b then "true" else "false"
  | JNum n => NilZero.string_of_int (Z.to_int n)
  | JStr s => s
  | JArr l =>
      let fix elems (l : list json) : list string :=
        match l with
        | [] => []
        | JNull :: l' => "" :: elems l'
        | x :: l' => js_to_string x :: elems l'
        end in
      String.concat "," (elems l)
  | JObj _ => "[object Object]"
  end.

(** ToBoolean of a JSON value (7.1.2): [null], [false], [0] and [""] are
    falsy, every other value (arrays and objects included) is truthy. *)
Definition js_truthy (v : json) : bool :=
  match v with
  | JNull => false
  | JBool b => b
  | JNum n => negb (Z.eqb n 0)
  | JStr s => negb (String.eqb s "")
  | JArr _ | JObj _ => true
  end.

(** [Object.keys] of a parsed object: each key once, at its first
    position, with the value of its last occurrence ([JSON.parse] keeps
    the last). Integer-like keys, which [Object.keys] lists first, keep
    their textual position here. *)
Fixpoint obj_keys (fs : list (string * json)) : list string :=
  match fs with
  | [] => []
  | (k, _) :: fs' => k :: List.filter (fun k' => negb (String.eqb k' k)) (obj_keys fs')
  end.

(** [v == d] for a request value [v] and a [Date] object [d] with time
    value [t] (IsLooselyEqual, 7.2.14):
    - a string is compared with ToPrimitive(d), which for a [Date] with
      the default hint is [d.toString()];
    - a number, and a boolean through ToNumber, is compared with
      ToNumber(d.toString()), which is NaN because that string starts with
      a letter ([toString_head]): false;
    - [undefined] and [null] equal no object: false;
    - an array or object parsed from the body is another object than [d]:
      object identity, false. *)
Definition loose_eq_date (v : option json) (t : Z) : bool :=
  match v with
  | Some (JStr s) => String.eqb s (date_toString t)
  | Some (JNum _) | Some (JBool _) => false
  | Some JNull | None => false
  | Some (JArr _) | Some (JObj _) => false
  end.

(** [d === v] (IsStrictlyEqual, 7.2.15): the operands must have the same
    type, and two objects must be the same object. A request value is never
    a [Date] and never the object [d]: false in every case. *)
Definition strict_eq_date (v : option json) (t : Z) : bool :=
  match v with
  | None | Some JNull | Some (JBool _) | Some (JNum _) | Some (JStr _) => false
  | Some (JArr _) | Some (JObj _) => false
  end.

(** [availableSlots.includes(newSlot)] on a MongooseArray. *)
Definition mongoose_includes (slots : list Z) (v : option json) : bool :=
  existsb (loose_eq_date v) slots.

(** [availableSlots.filter(slot => slot !== newSlot)]. *)
Definition filter_slots_ne (slots : list Z) (v : option json) : list Z :=
  List.filter (fun slot => negb (strict_eq_date v slot)) slots.

(** [new Date(v)]: its time value, [None] for an invalid date (NaN).
    ToPrimitive leaves primitives alone and turns arrays and objects into
    strings; a string is parsed; any other primitive goes through ToNumber
    and TimeClip. *)
Definition new_Date (v : option json) : option Z :=
  match v with
  | None => None
  | Some JNull => Some 0
  | Some (JBool b) => Some (if b then 1 else 0)
  | Some (JNum n) => if time_valid n then Some n else None
  | Some (JStr s) => date_parse s
  | Some (JArr _ as o) | Some (JObj _ as o) => date_parse (js_to_string o)
  end.

(** [arr.join(sep)] on an array of dates: each element through ToString,
    that is [toString]. *)
Definition join_dates (sep : string) (slots : list Z) : string :=
  String.concat sep (List.map date_toString slots).

(** [JSON.stringify] of a date: [toJSON] gives [toISOString], or [null]
    for an invalid date. *)
Definition date_toJSON (t : Z) : json :=
  match date_toISOString t with
  | Some s => JStr s
  | None => JNull
  end.

(** ** What the comparisons decide *)

Lemma strict_eq_date_false (v : option json) (t : Z) : strict_eq_date v t = false.
Proof. destruct v as [[]|]; reflexivity. Qed.

(** The [filter] of line 133 keeps every slot, whatever the request holds. *)
Lemma filter_slots_ne_id (slots : list Z) (v : option json) :
  filter_slots_ne slots v = slots.
Proof.
  unfold filter_slots_ne. apply filter_all_true.
  intros x _. rewrite strict_eq_date_false. reflexivity.
Qed.

Lemma loose_eq_date_true (v : option json) (t : Z) :
  loose_eq_date v t = true <-> v = Some (JStr (date_toString t)).
Proof.
  destruct v as [[]|]; simpl; split; try discriminate; try congruence.
  - intros H. apply String.eqb_eq in H. subst. reflexivity.
  - intros [= ->]. apply String.eqb_refl.
Qed.

(** [includes] succeeds exactly for the [toString] text of an offered slot. *)
Lemma mongoose_includes_true (slots : list Z) (v : option json) :
  mongoose_includes slots v = true <->
  exists t, In t slots /\ v = Some (JStr (date_toString t)).
Proof.
  unfold mongoose_includes. rewrite existsb_exists.
  split; intros (t & Hin & Ht); exists t; split; auto; apply loose_eq_date_true; auto.
Qed.

(** [new Date(s)] on the [toString] text of a valid date (the only
    text [includes] accepts) gives back the date without its milliseconds:
    the ISO reader of [Date.parse] refuses the text and its [toString]
    reader accepts it. *)
Theorem new_Date_toString (t : Z) :
  time_valid t = true -> new_Date (Some (JStr (date_toString t))) = Some (t - msFromTime t).
Proof.
  intros Hv. simpl. unfold date_parse. rewrite parse_iso_toString.
  apply parse_date_string_toString, Hv.
Qed.

(** [new Date(s)] on the text [JSON.stringify] writes for a date (the
    slot text [GET /api/slots] serves) gives back exactly that date. *)
Theorem new_Date_served_slot (t : Z) (s : string) :
  date_toJSON t = JStr s -> new_Date (Some (JStr s)) = Some t.
Proof.
  unfold date_toJSON. destruct (date_toISOString t) as [iso|] eqn:E; [|discriminate].
  intros [= <-]. exact (parse_toISOString t iso E).
Qed.

(** ** TimeClip on every path of [new Date] *)

Lemma make_time_value_valid (y m d h mi s ms t : Z) :
  make_time_value y m d h mi s ms = Some t -> time_valid t = true.
Proof. unfold make_time_value. intros H. repeat case_match; simplify_eq; assumption. Qed.

Lemma parse_iso_valid (cs : list ascii) (t : Z) : parse_iso cs = Some t -> time_valid t = true.
Proof.
  unfold parse_iso. intros H. bind_inv H.
  case_match; [eapply make_time_value_valid; exact H | discriminate].
Qed.

Lemma parse_date_string_valid (cs : list ascii) (t : Z) :
  parse_date_string cs = Some t -> time_valid t = true.
Proof.
  unfold parse_date_string. intros H. repeat (case_match; try discriminate).
  all: bind_inv H; repeat (case_match; try discriminate; bind_inv H).
  all: simplify_eq; assumption.
Qed.

Lemma date_parse_valid (s : string) (t : Z) : date_parse s = Some t -> time_valid t = true.
Proof.
  unfold date_parse. case_match; [intros [= <-]; eapply parse_iso_valid; eassumption|].
  apply parse_date_string_valid.
Qed.

(** A [Date] the handlers build holds a valid time value. *)
Lemma new_Date_valid (v : option json) (t : Z) : new_Date v = Some t -> time_valid t = true.
Proof.
  destruct v as [[| b | n | s | l | l]|]; simpl; intros H; simplify_eq;
    try (eapply date_parse_valid; eassumption).
  - reflexivity.
  - destruct b; reflexivity.
  - case_match; simplify_eq; assumption.
Qed.

(** [new Date(x.toString())] is defined only on a valid [x], and drops its
    milliseconds. *)
Lemma new_Date_toString_inv (t0 t : Z) :
  new_Date (Some (JStr (date_toString t0))) = Some t ->
  time_valid t0 = true /\ t = t0 - msFromTime t0.
Proof.
  destruct (time_valid t0) eqn:Hv.
  - simpl. unfold date_parse. rewrite parse_iso_toString, parse_date_string_toString by exact Hv.
    intros [= <-]. auto.
  - unfold date_toString. rewrite Hv. discriminate.
Qed.

Lemma fixed_dec_aux_length (w : nat) (n : Z) (acc : string) :
  String.length (fixed_dec_aux w n acc) = (w + String.length acc)%nat.
Proof. revert n acc. induction w as [|w IH]; intros n acc; simpl; [|rewrite IH; simpl]; lia. Qed.

Lemma fixed_dec_length (w : nat) (n : Z) : String.length (fixed_dec w n) = w.
Proof. unfold fixed_dec. rewrite fixed_dec_aux_length. simpl. lia. Qed.

#[export] Hint Rewrite fixed_dec_length : appt_rw.

(** The ISO text of a valid date has 24 characters for the years 0 to
    9999 and 27 (a sign and six digits for the year) otherwise. *)
Lemma toISOString_length (t : Z) :
  time_valid t = true ->
  exists s, date_toISOString t = Some s /\
    String.length s = if (0 <=? YearFromTime t) && (YearFromTime t <=? 9999) then 24%nat else 27%nat.
Proof.
  intros Hv. unfold date_toISOString. rewrite Hv. eexists. split; [reflexivity|].
  unfold iso_year. destruct (_ && _); [|destruct (YearFromTime t <? 0)];
    autorewrite with appt_rw; reflexivity.
Qed.

(** Every [Date] that [new Date(v)] builds, whatever [v] is, holds a
    time value inside TimeClip's range, so [JSON.stringify] (the
    [res.json] of the rebooking answer) writes it as a string, never as
    [null], of 24 characters for the years 0 to 9999 and of 27 otherwise. *)
Theorem new_Date_toJSON_width (v : option json) (t : Z) :
  new_Date v = Some t ->
  exists s, date_toJSON t = JStr s /\ (String.length s = 24%nat \/ String.length s = 27%nat).
Proof.
  intros Ht. destruct (toISOString_length t (new_Date_valid v t Ht)) as (s & Hs & Hl).
  exists s. unfold date_toJSON. rewrite Hs. split; [reflexivity|].
  rewrite Hl. destruct (_ && _); auto.
Qed.

(** A slot written in the ISO format never passes [includes]. *)
Lemma mongoose_includes_iso (slots : list Z) (t : Z) (s : string) :
  date_toISOString t = Some s -> mongoose_includes slots (Some (JStr s)) = false.
Proof.
  intros Hs. apply existsb_false_forall. intros t' _.
  destruct (loose_eq_date (Some (JStr s)) t') eqn:E; [|reflexivity].
  apply loose_eq_date_true in E. injection E as E.
  exfalso. exact (toISOString_ne_toString t t' s Hs E).
Qed.

(** [includes] fails for any string that does not start with an
    upper-case letter, since every [toString] text does. *)
Lemma mongoose_includes_not_upper (slots : list Z) (s : string) :
  (forall c, head_char s = Some c -> is_upper c = false) ->
  mongoose_includes slots (Some (JStr s)) = false.
Proof.
  intros Hs. apply existsb_false_forall. intros t _.
  destruct (loose_eq_date (Some (JStr s)) t) eqn:E; [|reflexivity].
  apply loose_eq_date_true in E. injection E as ->.
  destruct (toString_head t) as (c & Hc & Hu). rewrite (Hs c Hc) in Hu. discriminate.
Qed.

Lemma toISOString_not_upper (t : Z) (s : string) :
  date_toISOString t = Some s -> forall c, head_char s = Some c -> is_upper c = false.
Proof.
  intros Hs c Hc. destruct (toISOString_head t s Hs) as (c' & Hc' & Hk).
  rewrite Hc in Hc'. injection Hc' as <-.
  destruct Hk as [Hd | [-> | ->]]; [| reflexivity | reflexivity].
  revert Hd. unfold is_digit, is_upper. rewrite andb_true_iff, !Nat.leb_le. intros [H1 H2].
  destruct (Nat.leb_spec 65 (nat_of_ascii c)); [lia | reflexivity].
Qed.

#[export] Hint Rewrite filter_slots_ne_id strict_eq_date_false : appt_rw.

(** ** Witnesses: 2 January 2024, 10:00:00 UTC, and half a second later *)

Lemma new_Date_served_slot_witness :
  date_toJSON 1704189600000 = JStr "2024-01-02T10:00:00.000Z" /\
  new_Date (Some (JStr "2024-01-02T10:00:00.000Z")) = Some 1704189600000.
Proof.
  assert (H : date_toJSON 1704189600000 = JStr "2024-01-02T10:00:00.000Z")
    by (vm_compute; reflexivity).
  split; [exact H | exact (new_Date_served_slot _ _ H)].
Defined.

Lemma new_Date_toString_witness :
  time_valid 1704189600500 = true /\
  new_Date (Some (JStr (date_toString 1704189600500))) = Some 1704189600000.
Proof.
  assert (H : time_valid 1704189600500 = true) by reflexivity.
  split; [exact H | rewrite (new_Date_toString _ H); reflexivity].
Defined.

Lemma new_Date_toJSON_width_witness :
  new_Date (Some (JStr "Tue Jan 02 2024 10:00:00 GMT+0000 (Coordinated Universal Time)"))
    = Some 1704189600000 /\
  exists s, date_toJSON 1704189600000 = JStr s /\ (String.length s = 24%nat \/ String.length s = 27%nat).
Proof.
  assert (H : new_Date (Some (JStr "Tue Jan 02 2024 10:00:00 GMT+0000 (Coordinated Universal Time)"))
              = Some 1704189600000) by (vm_compute; reflexivity).
  split; [exact H | exact (new_Date_toJSON_width _ _ H)].
Defined.
