(* ===== verification/Store.v ===== *)
(** * The MongoDB store: the two Mongoose models and their queries

    src/backend/index.js declares two models (lines 23-37):
    [Appointment {patientId, doctorId, scheduledTime: Date, status
    (default 'scheduled'), notificationSent (default false)}] and
    [DoctorSchedule {doctorId, availableSlots: [Date]}]. Each is a record
    below, inside a Module named after the model; a collection is the list
    of its documents in natural order, which is the order [find] returns
    them in and the order [findOne] searches.

    [doc.save()] on a document that was read from the collection sends
    [updateOne({_id}, {$set: <modified paths>})]: only the paths the handler
    assigned are written, and a document that is no longer in the
    collection makes [save] reject with a [DocumentNotFoundError]. The
    update is a function from the stored document to the new one.

    The operations are written once for any world that contains a database,
    through the lens class [DbState]. *)

From Stdlib Require Import ZArith String Ascii List Lia.
From S2P Require Import Prelude DateFormat JsValue.
Import ListNotations.
#[local] Open Scope string_scope.
#[local] Open Scope Z_scope.
#[local] Open Scope js_scope.

Module Appointment.
(** [scheduledTime] is [None] when the field is missing or null; an
    identifier is the 24-digit lower-case hexadecimal text of an
    ObjectId. *)
Record t := mk {
  _id : string;
  patientId : string;
  doctorId : string;
  scheduledTime : option Z;
  status : string;
  notificationSent : bool
}.

(** [appointment.status = s] *)
Definition set_status (s : string) (a : t) : t :=
  mk (_id a) (patientId a) (doctorId a) (scheduledTime a) s (notificationSent a).

(** [appointment.scheduledTime = d] *)
Definition set_time (d : option Z) (a : t) : t :=
  mk (_id a) (patientId a) (doctorId a) d (status a) (notificationSent a).

(** [appointment.scheduledTime = d; appointment.status = s] *)
Definition set_time_status (d : option Z) (s : string) (a : t) : t :=
  mk (_id a) (patientId a) (doctorId a) d s (notificationSent a).
End Appointment.

Module DoctorSchedule.
Record t := mk {
  _id : string;
  doctorId : string;
  availableSlots : list Z
}.

(** [doctorSchedule.availableSlots = slots] *)
Definition set_slots (slots : list Z) (s : t) : t :=
  mk (_id s) (doctorId s) slots.
End DoctorSchedule.

Record Db := mkDb {
  appointments : list Appointment.t;
  schedules : list DoctorSchedule.t
}.

(** ** Collections *)

(** [updateOne] on the first document whose identifier is [i]; [None]
    when there is none. *)
Fixpoint update_first {A} (key : A -> string) (i : string) (f : A -> A) (l : list A)
  : option (list A) :=
  match l with
  | [] => None
  | x :: l' =>
      if String.eqb (key x) i then Some (f x :: l')
      else option_map (cons x) (update_first key i f l')
  end.

(** [Model.findOne(filter)]: the first document that matches. *)
Definition find_first {A} (p : A -> bool) (l : list A) : option A := List.find p l.

(** ** The cast of [findById(appointmentId)] (line 117)

    [Model.findById(id)] is [findOne({ _id: id })] ([undefined] becoming
    [null]), and Mongoose casts that filter before it is sent (lib/cast.js):
    - [null] stays [null]: [{_id: null}] matches no document;
    - an array [[v1, ...]] becomes [{$in: [cast v1, ...]}];
    - a plain object with a key starting with [$] (other than [$ref],
      [$id], [$db]) is a set of query operators, each cast by the
      [ObjectId] schema type, in the reverse order of its keys; [$not]
      takes an object of operators; an unknown operator throws
      ["Can't use <op>"];
    - any other value is cast to one ObjectId ([castObjectId],
      lib/cast/objectid.js): the text of its truthy [_id] field, or the
      text [String(v)] of the value, must be 24 hexadecimal digits
      (bson 6, the release of Mongoose 8; older bson releases also took
      12-character strings), else the query rejects with a [CastError].
    MongoDB then evaluates the operators on the stored [_id]; ObjectIds are
    ordered by their bytes, which for the lower-case hexadecimal texts of
    the model is the lexicographic order of the texts. *)

Definition hex_lower (c : ascii) : option ascii :=
  let n := nat_of_ascii c in
  if (48 <=? n)%nat && (n <=? 57)%nat then Some c
  else if (97 <=? n)%nat && (n <=? 102)%nat then Some c
  else if (65 <=? n)%nat && (n <=? 70)%nat then Some (ascii_of_nat (n + 32))
  else None.

Fixpoint hex_string (cs : list ascii) : option string :=
  match cs with
  | [] => Some ""
  | c :: cs' => c' ← hex_lower c; r ← hex_string cs'; Some (String c' r)
  end.

(** [new ObjectId(text)]: 24 hexadecimal digits, kept in lower case. *)
Definition hex24 (s : string) : option string :=
  if Nat.eqb (String.length s) 24 then hex_string (list_ascii_of_string s) else None.

(** A cast value of the [_id] path: [null] or an ObjectId. *)
Inductive oid := OidNull | Oid (i : string).

(** [castObjectId(v)]; [None] is the [CastError]. *)
Definition cast_oid (v : json) : option oid :=
  match v with
  | JNull => Some OidNull
  | JObj fs =>
      match body_field v "_id" with
      | Some x => if js_truthy x then option_map Oid (hex24 (js_to_string x)) else None
      | None => None
      end
  | _ => option_map Oid (hex24 (js_to_string v))
  end.

(** A query operator on [_id], after its cast. *)
Inductive id_cond :=
| CEq (c : oid) | CNe (c : oid)
| CIn (cs : list oid) | CNin (cs : list oid) | CAll (cs : list oid)
| CGt (c : oid) | CGte (c : oid) | CLt (c : oid) | CLte (c : oid)
| CExists (b : bool)
| CType (m : bool)
| CNot (cs : list id_cond).

(** The filter [findById] sends: [_id: null], [_id: <ObjectId>], a
    conjunction of operators, or the cast's rejection. *)
Inductive cast_result :=
| CastNull
| CastId (i : string)
| CastQuery (cs : list id_cond)
| CastFailed (e : js_error).

Definition id_cast_error : js_error := CastError "_id".

Definition is_operator (k : string) : bool :=
  String.prefix "$" k && negb (existsb (String.eqb k) ["$ref"; "$id"; "$db"]).

Definition cast_one (v : json) : js_error + oid :=
  match cast_oid v with Some c => inr c | None => inl id_cast_error end.

Fixpoint cast_all (l : list json) : js_error + list oid :=
  match l with
  | [] => inr []
  | v :: l' => match cast_one v, cast_all l' with
               | inl e, _ => inl e
               | inr c, inl e => inl e
               | inr c, inr cs => inr (c :: cs)
               end
  end.

(** [$in], [$nin], [$all]: an array is cast element by element, any other
    value as a one-element array. *)
Definition cast_list (v : json) : js_error + list oid :=
  match v with JArr l => cast_all l | _ => cast_all [v] end.

(** [castBoolean] (lib/cast/boolean.js) for [$exists]; [null] stays
    [null], which MongoDB reads as false. *)
Definition cast_boolean (v : json) : js_error + bool :=
  match v with
  | JBool b => inr b
  | JNum 1 => inr true
  | JNum 0 => inr false
  | JStr s => if existsb (String.eqb s) ["true"; "1"; "yes"] then inr true
              else if existsb (String.eqb s) ["false"; "0"; "no"] then inr false
              else inl id_cast_error
  | JNull => inr false
  | _ => inl id_cast_error
  end.

(** The BSON type names and codes MongoDB accepts in [$type]; an ObjectId
    has code 7, alias ["objectId"]. *)
Definition bson_aliases : list string :=
  ["double"; "string"; "object"; "array"; "binData"; "undefined"; "objectId"; "bool"; "date";
   "null"; "regex"; "dbPointer"; "javascript"; "symbol"; "javascriptWithScope"; "int";
   "timestamp"; "long"; "decimal"; "minKey"; "maxKey"; "number"].

Definition type_matches_one (v : json) : js_error + bool :=
  match v with
  | JNum n => if ((1 <=? n) && (n <=? 19)) || (n =? -1) || (n =? 127) then inr (n =? 7)
              else inl (Error "Invalid numerical type code")
  | JStr s => if existsb (String.eqb s) bson_aliases then inr (String.eqb s "objectId")
              else inl (Error ("Unknown type name alias: " ++ s))
  | _ => inl (CastError "$type")
  end.

Fixpoint type_matches_any (l : list json) : js_error + bool :=
  match l with
  | [] => inr false
  | v :: l' => match type_matches_one v, type_matches_any l' with
               | inl e, _ => inl e
               | inr _, inl e => inl e
               | inr b, inr b' => inr (b || b')
               end
  end.

Definition type_matches (v : json) : js_error + bool :=
  match v with JArr l => type_matches_any l | _ => type_matches_one v end.

Definition sum_map {A B} (f : A -> B) (r : js_error + A) : js_error + B :=
  match r with inl e => inl e | inr a => inr (f a) end.

(** [schematype.castForQuery(op, v)] of the ObjectId type: its
    [$conditionalHandlers] are [$eq $ne $in $nin $all $exists $type $gt
    $gte $lt $lte]. *)
Definition cast_cond (k : string) (v : json) : js_error + id_cond :=
  if String.eqb k "$eq" then sum_map CEq (cast_one v)
  else if String.eqb k "$ne" then sum_map CNe (cast_one v)
  else if String.eqb k "$in" then sum_map CIn (cast_list v)
  else if String.eqb k "$nin" then sum_map CNin (cast_list v)
  else if String.eqb k "$all" then sum_map CAll (cast_list v)
  else if String.eqb k "$gt" then sum_map CGt (cast_one v)
  else if String.eqb k "$gte" then sum_map CGte (cast_one v)
  else if String.eqb k "$lt" then sum_map CLt (cast_one v)
  else if String.eqb k "$lte" then sum_map CLte (cast_one v)
  else if String.eqb k "$exists" then sum_map CExists (cast_boolean v)
  else if String.eqb k "$type" then sum_map CType (type_matches v)
  else inl (Error ("Can't use " ++ k)).

Fixpoint cast_conds (fs : list (string * json)) (ks : list string) : js_error + list id_cond :=
  match ks with
  | [] => inr []
  | k :: ks' =>
      let v := match body_field (JObj fs) k with Some v => v | None => JNull end in
      match cast_cond k v, cast_conds fs ks' with
      | inl e, _ => inl e
      | inr _, inl e => inl e
      | inr c, inr cs => inr (c :: cs)
      end
  end.

(** [$not]: an object whose first key is an operator has each of its keys
    cast (so a nested [$not] is refused); a falsy value reaches MongoDB,
    which refuses it; any other value is cast as [$not] itself, which the
    ObjectId type has no handler for. *)
Definition cast_not (v : json) : js_error + id_cond :=
  match v with
  | JObj fs =>
      match obj_keys fs with
      | k0 :: _ => if is_operator k0 then sum_map CNot (cast_conds fs (obj_keys fs))
                   else inl (Error "Can't use $not")
      | [] => inl (Error "Can't use $not")
      end
  | _ => if js_truthy v then inl (Error "Can't use $not")
         else inl (Error "$not needs a regex or a document")
  end.

Definition cast_top_cond (fs : list (string * json)) (k : string) : js_error + id_cond :=
  let v := match body_field (JObj fs) k with Some v => v | None => JNull end in
  if String.eqb k "$not" then cast_not v else cast_cond k v.

Fixpoint cast_top_conds (fs : list (string * json)) (ks : list string) : js_error + list id_cond :=
  match ks with
  | [] => inr []
  | k :: ks' => match cast_top_cond fs k, cast_top_conds fs ks' with
                | inl e, _ => inl e
                | inr _, inl e => inl e
                | inr c, inr cs => inr (c :: cs)
                end
  end.

Definition of_oid (c : oid) : cast_result :=
  match c with OidNull => CastNull | Oid i => CastId i end.

(** The cast of [{ _id: v }]. *)
Definition cast_object_id (v : option json) : cast_result :=
  match v with
  | None | Some JNull => CastNull
  | Some (JArr l) =>
      match cast_all l with inl e => CastFailed e | inr cs => CastQuery [CIn cs] end
  | Some (JObj fs) =>
      if existsb is_operator (obj_keys fs) then
        match cast_top_conds fs (List.rev (obj_keys fs)) with
        | inl e => CastFailed e
        | inr cs => CastQuery cs
        end
      else match cast_oid (JObj fs) with Some c => of_oid c | None => CastFailed id_cast_error end
  | Some v' => match cast_oid v' with Some c => of_oid c | None => CastFailed id_cast_error end
  end.

(** MongoDB's evaluation of the operators on a stored [_id] [x]. *)
Definition oid_eqb (c : oid) (x : string) : bool :=
  match c with OidNull => false | Oid i => String.eqb x i end.

Definition oid_cmp (f : string -> string -> bool) (c : oid) (x : string) : bool :=
  match c with OidNull => false | Oid i => f x i end.

Fixpoint cond_matches (c : id_cond) (x : string) : bool :=
  match c with
  | CEq c => oid_eqb c x
  | CNe c => negb (oid_eqb c x)
  | CIn cs => existsb (fun c => oid_eqb c x) cs
  | CNin cs => negb (existsb (fun c => oid_eqb c x) cs)
  | CAll cs => negb (Nat.eqb (length cs) 0) && forallb (fun c => oid_eqb c x) cs
  | CGt c => oid_cmp (fun x i => String.ltb i x) c x
  | CGte c => oid_cmp (fun x i => String.leb i x) c x
  | CLt c => oid_cmp String.ltb c x
  | CLte c => oid_cmp String.leb c x
  | CExists b => b
  | CType m => m
  | CNot cs =>
      let fix all (cs : list id_cond) : bool :=
        match cs with [] => true | c :: cs' => cond_matches c x && all cs' end in
      negb (all cs)
  end.

Definition query_matches (cs : list id_cond) (x : string) : bool :=
  forallb (fun c => cond_matches c x) cs.

(** The document [findById] returns for a cast identifier. *)
Definition find_by_id (d : Db) (i : string) : option Appointment.t :=
  find_first (fun a => String.eqb (Appointment._id a) i) (appointments d).

(** The least of two documents by [_id]. *)
Definition min_by_id (a b : Appointment.t) : Appointment.t :=
  if String.ltb (Appointment._id b) (Appointment._id a) then b else a.

(** The document [findOne] returns for a condition on [_id]: MongoDB
    answers it through the [_id] index, in ascending order, so the
    matching document with the least [_id]. *)
Definition find_by_query (d : Db) (cs : list id_cond) : option Appointment.t :=
  match List.filter (fun a => query_matches cs (Appointment._id a)) (appointments d) with
  | [] => None
  | a :: l => Some (fold_left min_by_id l a)
  end.

Definition find_by_cast (d : Db) (c : cast_result) : option Appointment.t :=
  match c with
  | CastNull | CastFailed _ => None
  | CastId i => find_by_id d i
  | CastQuery cs => find_by_query d cs
  end.

(** The schedule [findOne({ doctorId })] returns. *)
Definition find_schedule (d : Db) (doc : string) : option DoctorSchedule.t :=
  find_first (fun s => String.eqb (DoctorSchedule.doctorId s) doc) (schedules d).

(** ** The database inside a world *)

Class DbState (W : Type) := {
  db_get : W -> Db;
  db_put : Db -> W -> W;
  db_get_put : forall d w, db_get (db_put d w) = d
}.

Section Queries.
Context {W : Type} `{DbState W}.

(** [Appointment.find(query)] *)
Definition find_appointments (q : Appointment.t -> bool) : M W (list Appointment.t) :=
  fun w => (Ok (List.filter q (appointments (db_get w))), w).

(** [Appointment.findById(id)] *)
Definition findById_appointment (v : option json) : M W (option Appointment.t) :=
  fun w =>
    match cast_object_id v with
    | CastFailed e => (Throw e, w)
    | c => (Ok (find_by_cast (db_get w) c), w)
    end.

(** [DoctorSchedule.findOne({ doctorId })] *)
Definition findOne_schedule (doc : string) : M W (option DoctorSchedule.t) :=
  fun w => (Ok (find_schedule (db_get w) doc), w).

(** [appointment.save()] for the document [i], the assigned paths being
    the update [f]. *)
Definition save_appointment (i : string) (f : Appointment.t -> Appointment.t) : M W unit :=
  fun w =>
    let d := db_get w in
    match update_first Appointment._id i f (appointments d) with
    | Some l => (Ok tt, db_put (mkDb l (schedules d)) w)
    | None => (Throw DocumentNotFoundError, w)
    end.

(** [doctorSchedule.save()] *)
Definition save_schedule (i : string) (f : DoctorSchedule.t -> DoctorSchedule.t) : M W unit :=
  fun w =>
    let d := db_get w in
    match update_first DoctorSchedule._id i f (schedules d) with
    | Some l => (Ok tt, db_put (mkDb (appointments d) l) w)
    | None => (Throw DocumentNotFoundError, w)
    end.

Lemma find_appointments_read (q : Appointment.t -> bool) (w : W) :
  find_appointments q w = (Ok (List.filter q (appointments (db_get w))), w).
Proof. reflexivity. Qed.

Lemma findOne_schedule_read (doc : string) (w : W) :
  findOne_schedule doc w = (Ok (find_schedule (db_get w) doc), w).
Proof. reflexivity. Qed.

End Queries.

(** ** A connection that can be lost

    While the connection of [mongoose.connect] (lines 18-21) is down,
    Mongoose buffers each query and rejects it after [bufferTimeoutMS]
    (10 s by default). Only [GET /api/missedAppointments] catches that
    rejection (line 153), so only its query is written against this
    class; the other handlers' queries are modelled on a connection that
    holds. *)
Class DbConn (W : Type) := { db_connected : W -> bool }.

Definition buffering_timeout (op : string) : js_error :=
  Error ("Operation `" ++ op ++ "` buffering timed out after 10000ms").

Section ConnQueries.
Context {W : Type} `{DbState W} `{DbConn W}.

(** [await Appointment.find(query)] over a connection that may be down. *)
Definition find_appointments_conn (q : Appointment.t -> bool) : M W (list Appointment.t) :=
  fun w => if db_connected w then find_appointments q w
           else (Throw (buffering_timeout "appointments.find()"), w).

End ConnQueries.

(** ** Well-formedness: identifiers are unique in each collection *)

Definition db_wf (d : Db) : Prop :=
  NoDup (map Appointment._id (appointments d)) /\
  NoDup (map DoctorSchedule._id (schedules d)).

(** Unique keys of a concrete collection. *)
Ltac solve_nodup :=
  repeat (constructor; [rewrite list_elem_of_In; simpl; intuition discriminate|]); constructor.
Ltac solve_db_wf := split; simpl; solve_nodup.

(** Update every document whose key is [i] (with unique keys: the one). *)
Definition update_where {A} (key : A -> string) (i : string) (f : A -> A) (l : list A) : list A :=
  map (fun x => if String.eqb (key x) i then f x else x) l.

Section UpdateFirst.
Context {A : Type} (key : A -> string).

Lemma update_first_none (i : string) (f : A -> A) (l : list A) :
  ~ In i (map key l) -> update_first key i f l = None.
Proof.
  induction l as [|x l IH]; simpl; intros Hni; [reflexivity|].
  destruct (String.eqb_spec (key x) i) as [E|E]; [exfalso; auto|].
  rewrite IH; auto.
Qed.

Lemma update_where_notin (i : string) (f : A -> A) (l : list A) :
  ~ In i (map key l) -> update_where key i f l = l.
Proof.
  induction l as [|x l IH]; simpl; intros Hni; [reflexivity|].
  destruct (String.eqb_spec (key x) i) as [E|E]; [exfalso; auto|].
  rewrite IH; auto.
Qed.

(** With unique keys, [updateOne] on a present key updates that document. *)
Lemma update_first_some (i : string) (f : A -> A) (l : list A) :
  NoDup (map key l) -> In i (map key l) ->
  update_first key i f l = Some (update_where key i f l).
Proof.
  induction l as [|x l IH]; simpl; intros Hnd Hin; [contradiction|].
  inversion Hnd as [|? ? Hx Hnd']; subst.
  destruct (String.eqb_spec (key x) i) as [E|E].
  - subst i. rewrite update_where_notin; [reflexivity|].
    intros Hi. apply Hx, list_elem_of_In, Hi.
  - destruct Hin as [Hin|Hin]; [congruence|]. rewrite IH by assumption. reflexivity.
Qed.

Lemma update_where_keys (i : string) (f : A -> A) (l : list A) :
  (forall x, key (f x) = key x) -> map key (update_where key i f l) = map key l.
Proof.
  intros Hf. unfold update_where. rewrite map_map. apply map_ext.
  intros x. destruct (String.eqb (key x) i); auto.
Qed.

Lemma In_update_where (i : string) (f : A -> A) (l : list A) (x : A) :
  In x l -> key x <> i -> In x (update_where key i f l).
Proof.
  intros Hin Hne. unfold update_where. apply in_map_iff. exists x. split; auto.
  destruct (String.eqb_spec (key x) i); congruence.
Qed.

(** Updating a member by its own key with a function that leaves it as
    it is changes nothing. *)
Lemma update_where_self (f : A -> A) (l : list A) (x : A) :
  NoDup (map key l) -> In x l -> f x = x -> update_where key (key x) f l = l.
Proof.
  intros Hnd Hx Hf. unfold update_where. rewrite <- (map_id l) at 2. apply map_ext_in.
  intros y Hy. destruct (String.eqb_spec (key y) (key x)) as [E|E]; [|reflexivity].
  rewrite (nodup_map_inj key l y x Hnd Hy Hx E). exact Hf.
Qed.

End UpdateFirst.

(** After an update of the documents with key [i], the first of them is
    the updated one. *)
Lemma find_first_update_where (i : string) (f : Appointment.t -> Appointment.t)
      (l : list Appointment.t) (a : Appointment.t) :
  (forall x, Appointment._id (f x) = Appointment._id x) ->
  find_first (fun y => String.eqb (Appointment._id y) i) l = Some a ->
  find_first (fun y => String.eqb (Appointment._id y) i) (update_where Appointment._id i f l) = Some (f a).
Proof.
  unfold find_first, update_where. intros Hf. induction l as [|x l IH]; simpl; [discriminate|].
  destruct (String.eqb (Appointment._id x) i) eqn:E; simpl.
  - intros [= <-]. rewrite Hf, E. reflexivity.
  - rewrite E. exact IH.
Qed.

(** The update of the documents with key [i] does not move the first
    document with another key [j]. *)
Lemma find_first_update_where_other (i j : string) (f : Appointment.t -> Appointment.t)
      (l : list Appointment.t) :
  (forall x, Appointment._id (f x) = Appointment._id x) -> i <> j ->
  find_first (fun y => String.eqb (Appointment._id y) j) (update_where Appointment._id i f l)
  = find_first (fun y => String.eqb (Appointment._id y) j) l.
Proof.
  unfold find_first, update_where. intros Hf Hij. induction l as [|x l IH]; simpl; [reflexivity|].
  destruct (String.eqb_spec (Appointment._id x) i) as [E|E]; simpl; [|rewrite IH; reflexivity].
  rewrite Hf, E. destruct (String.eqb_spec i j); [contradiction | exact IH].
Qed.

Lemma find_first_In {A} (p : A -> bool) (l : list A) (x : A) :
  find_first p l = Some x -> In x l /\ p x = true.
Proof. unfold find_first. intros H. split; [eapply find_some; eauto | eapply find_some; eauto]. Qed.

Lemma set_slots_same (s : DoctorSchedule.t) :
  DoctorSchedule.set_slots (DoctorSchedule.availableSlots s) s = s.
Proof. destruct s; reflexivity. Qed.

(** ** What [findById] returns *)

Lemma fold_min_by_id_In (l : list Appointment.t) (a : Appointment.t) :
  In (fold_left min_by_id l a) (a :: l).
Proof.
  revert a. induction l as [|b l IH]; intros a; simpl; [left; reflexivity|].
  destruct (IH (min_by_id a b)) as [E|E].
  - rewrite <- E. unfold min_by_id. destruct (String.ltb _ _); simpl; auto.
  - right. right. exact E.
Qed.

Lemma find_by_query_some (d : Db) (cs : list id_cond) (a : Appointment.t) :
  find_by_query d cs = Some a -> In a (appointments d) /\ query_matches cs (Appointment._id a) = true.
Proof.
  unfold find_by_query. intros Hf.
  assert (Hin : In a (List.filter (fun a => query_matches cs (Appointment._id a)) (appointments d))).
  { destruct (List.filter _ _) as [|b l]; [discriminate|]. injection Hf as <-. apply fold_min_by_id_In. }
  apply filter_In in Hin. exact Hin.
Qed.

(** With unique identifiers a document of the collection is the one
    [findById] finds by its own identifier. *)
Lemma find_by_id_In (d : Db) (a : Appointment.t) :
  NoDup (map Appointment._id (appointments d)) -> In a (appointments d) ->
  find_by_id d (Appointment._id a) = Some a.
Proof.
  unfold find_by_id, find_first. generalize (appointments d) as l.
  induction l as [|b l IH]; simpl; intros Hnd Hin; [contradiction|].
  inversion Hnd as [|? ? Hb Hnd']; subst.
  destruct (String.eqb_spec (Appointment._id b) (Appointment._id a)) as [E|E].
  - destruct Hin as [<-|Hin]; [reflexivity|].
    exfalso. apply Hb. rewrite list_elem_of_In, E. apply in_map, Hin.
  - destruct Hin as [<-|Hin]; [contradiction|]. apply IH; assumption.
Qed.

(** Whatever the filter, the document [findById] returns is one of the
    collection, and the one its own identifier names. *)
Lemma find_by_cast_some (d : Db) (c : cast_result) (a : Appointment.t) :
  NoDup (map Appointment._id (appointments d)) -> find_by_cast d c = Some a ->
  In a (appointments d) /\ find_by_id d (Appointment._id a) = Some a.
Proof.
  intros Hnd Hf. assert (Hin : In a (appointments d)).
  { destruct c as [|i|cs|e]; simpl in Hf; try discriminate;
      first [exact (proj1 (find_first_In _ _ _ Hf)) | exact (proj1 (find_by_query_some _ _ _ Hf))]. }
  split; [exact Hin | apply find_by_id_In; assumption].
Qed.

(** An update that keeps identifiers commutes with every [findById]
    filter: the document found afterwards is the update of the one found
    before. *)
Section FindUpdate.
Variable g : Appointment.t -> Appointment.t.
Hypothesis Hg : forall x, Appointment._id (g x) = Appointment._id x.

Lemma find_map_id (p : string -> bool) (l : list Appointment.t) :
  List.find (fun a => p (Appointment._id a)) (map g l)
  = option_map g (List.find (fun a => p (Appointment._id a)) l).
Proof.
  induction l as [|x l IH]; simpl; [reflexivity|]. rewrite Hg.
  destruct (p (Appointment._id x)); [reflexivity | exact IH].
Qed.

Lemma filter_map_id (p : string -> bool) (l : list Appointment.t) :
  List.filter (fun a => p (Appointment._id a)) (map g l)
  = map g (List.filter (fun a => p (Appointment._id a)) l).
Proof.
  induction l as [|x l IH]; simpl; [reflexivity|]. rewrite Hg.
  destruct (p (Appointment._id x)); simpl; rewrite IH; reflexivity.
Qed.

Lemma fold_min_by_id_map (l : list Appointment.t) (a : Appointment.t) :
  fold_left min_by_id (map g l) (g a) = g (fold_left min_by_id l a).
Proof.
  revert a. induction l as [|b l IH]; intros a; simpl; [reflexivity|].
  rewrite <- IH. f_equal. unfold min_by_id. rewrite !Hg. destruct (String.ltb _ _); reflexivity.
Qed.

Lemma find_by_cast_map (d : Db) (c : cast_result) :
  find_by_cast (mkDb (map g (appointments d)) (schedules d)) c = option_map g (find_by_cast d c).
Proof.
  destruct c as [|i|cs|e]; simpl; try reflexivity;
    try apply (find_map_id (fun x => String.eqb x i)).
  all: unfold find_by_query; simpl; rewrite (filter_map_id (query_matches _)).
  all: destruct (List.filter _ _) as [|a l]; simpl; [reflexivity|].
  all: rewrite fold_min_by_id_map; reflexivity.
Qed.

End FindUpdate.

Lemma find_by_cast_update (d : Db) (c : cast_result) (i : string) (f : Appointment.t -> Appointment.t) :
  (forall x, Appointment._id (f x) = Appointment._id x) ->
  find_by_cast (mkDb (update_where Appointment._id i f (appointments d)) (schedules d)) c
  = option_map (fun x => if String.eqb (Appointment._id x) i then f x else x) (find_by_cast d c).
Proof.
  intros Hf. apply find_by_cast_map. intros x. destruct (String.eqb _ _); [apply Hf | reflexivity].
Qed.

Section FindById.
Context {W : Type} `{DbState W}.

Lemma findById_appointment_cases (v : option json) (w : W) :
  (exists e, cast_object_id v = CastFailed e /\ findById_appointment v w = (Throw e, w)) \/
  ((forall e, cast_object_id v <> CastFailed e) /\
   findById_appointment v w = (Ok (find_by_cast (db_get w) (cast_object_id v)), w)).
Proof.
  unfold findById_appointment. destruct (cast_object_id v) as [|i|cs|e]; eauto; right; split; congruence.
Qed.

End FindById.

Section SaveSpecs.
Context {W : Type} `{DbState W}.

Lemma save_appointment_spec (d : Db) (i : string) (f : Appointment.t -> Appointment.t) :
  db_wf d -> In i (map Appointment._id (appointments d)) ->
  triple (fun w => db_get w = d) (save_appointment i f)
    (fun _ w => db_get w = mkDb (update_where Appointment._id i f (appointments d)) (schedules d)).
Proof.
  intros [Hnd _] Hin w Hw. unfold save_appointment. rewrite Hw.
  rewrite update_first_some by assumption. apply db_get_put.
Qed.

Lemma save_appointment_missing (w : W) (i : string) (f : Appointment.t -> Appointment.t) :
  ~ In i (map Appointment._id (appointments (db_get w))) ->
  save_appointment i f w = (Throw DocumentNotFoundError, w).
Proof. intros Hni. unfold save_appointment. rewrite update_first_none; auto. Qed.

Lemma save_schedule_spec (d : Db) (i : string) (f : DoctorSchedule.t -> DoctorSchedule.t) :
  db_wf d -> In i (map DoctorSchedule._id (schedules d)) ->
  triple (fun w => db_get w = d) (save_schedule i f)
    (fun _ w => db_get w = mkDb (appointments d) (update_where DoctorSchedule._id i f (schedules d))).
Proof.
  intros [_ Hnd] Hin w Hw. unfold save_schedule. rewrite Hw.
  rewrite update_first_some by assumption. apply db_get_put.
Qed.

End SaveSpecs.

Lemma set_status_id (s : string) (a : Appointment.t) :
  Appointment._id (Appointment.set_status s a) = Appointment._id a.
Proof. reflexivity. Qed.

Lemma set_time_status_id (d : option Z) (s : string) (a : Appointment.t) :
  Appointment._id (Appointment.set_time_status d s a) = Appointment._id a.
Proof. reflexivity. Qed.

Lemma set_slots_id (l : list Z) (s : DoctorSchedule.t) :
  DoctorSchedule._id (DoctorSchedule.set_slots l s) = DoctorSchedule._id s.
Proof. reflexivity. Qed.

#[export] Hint Resolve set_status_id set_time_status_id set_slots_id : appt.

(** With unique keys, a document's key is among the keys of the documents
    a filter keeps exactly when the filter keeps that document. *)
Lemma existsb_key_filter {A} (key : A -> string) (p : A -> bool) (l : list A) (a : A) :
  NoDup (map key l) -> In a l ->
  existsb (String.eqb (key a)) (map key (List.filter p l)) = p a.
Proof.
  induction l as [|x l IH]; simpl; intros Hnd Hin; [contradiction|].
  inversion Hnd as [|? ? Hx Hnd']; subst.
  assert (Hnot : forall k, ~ In k (map key l) -> existsb (String.eqb k) (map key (List.filter p l)) = false).
  { intros k Hk. apply existsb_false_forall. intros k' Hk'.
    apply String.eqb_neq. intros ->. apply Hk.
    apply in_map_iff in Hk' as (y & <- & Hy). apply filter_In in Hy as [Hy _].
    apply in_map, Hy. }
  destruct Hin as [-> | Hin].
  - destruct (p a); simpl; [rewrite String.eqb_refl; reflexivity|].
    apply Hnot. intros Hi. apply Hx, list_elem_of_In, Hi.
  - assert (Hne : key a <> key x).
    { intros E. apply Hx, list_elem_of_In. rewrite <- E. apply in_map, Hin. }
    destruct (p x); simpl; [rewrite (proj2 (String.eqb_neq _ _) Hne); simpl|]; apply IH; assumption.
Qed.
