(* ===== verification/Notify.v ===== *)
(** * The notification gateway: [sendEmail] and [sendSMS]

    src/backend/index.js, lines 43-77. Each wrapper builds a provider client
    ([nodemailer.createTransport], [twilio(sid, token)]) and then, inside a
    [try], awaits one send; a rejected send is caught and turned into
    [{status: 'failure', ...}].

    The class [Gateway] is what the reconciliation timer relies on: the two
    operations never touch the database, and they do not throw while the
    gateway is [gw_ready]. The recipient and the text are the JavaScript
    values the caller passes (the strings of the timer, or fields of a
    request body, [undefined] included). The implementation below
    discharges the interface for the concrete [World], where:
    - the provider's answer to the n-th send is the oracle [w_provider n]
      (which includes the checks nodemailer and twilio make on the values);
    - [w_sms_client_ok] says whether [twilio(sid, token)] accepts the
      configured credentials. The client is built on line 63, outside the
      [try] of line 65, so when the constructor throws, [sendSMS] rejects:
      the gateway is ready only when the client can be built. *)

From Stdlib Require Import ZArith String List Lia.
From S2P Require Import Prelude DateFormat JsValue Store.
Import ListNotations.
#[local] Open Scope string_scope.
#[local] Open Scope js_scope.

Inductive channel := EmailChannel | SmsChannel.

(** One send handed to a provider, and whether the provider accepted it. *)
Record Attempt := mkAttempt {
  channel_of : channel;
  recipient : option json;
  subject : option string;
  text : option json;
  delivered : bool
}.

(** [{ status, message }] *)
Record NotifyResult := mkNotifyResult {
  result_status : string;
  result_message : string
}.

(** ** The interface the timer is proved against *)

Class Gateway (W : Type) `{DbState W} := {
  gw_sendEmail : option json -> string -> option json -> M W NotifyResult;
  gw_sendSMS : option json -> option json -> M W NotifyResult;
  gw_ready : W -> Prop;
  (** the database is untouched, whatever the outcome *)
  gw_sendEmail_db : forall e s t d, preserves (fun w => db_get w = d) (gw_sendEmail e s t);
  gw_sendSMS_db : forall p t d, preserves (fun w => db_get w = d) (gw_sendSMS p t);
  (** a ready gateway answers and stays ready *)
  gw_sendEmail_ready : forall e s t d,
    triple (fun w => gw_ready w /\ db_get w = d) (gw_sendEmail e s t)
           (fun _ w => gw_ready w /\ db_get w = d);
  gw_sendSMS_ready : forall p t d,
    triple (fun w => gw_ready w /\ db_get w = d) (gw_sendSMS p t)
           (fun _ w => gw_ready w /\ db_get w = d);
  (** writing the database does not change readiness *)
  gw_ready_db_put : forall d w, gw_ready w -> gw_ready (db_put d w)
}.

(** ** The concrete world *)

Record World := mkWorld {
  w_db : Db;
  w_outbox : list Attempt;
  w_provider : nat -> bool;
  w_sms_client_ok : bool;
  w_db_up : bool
}.

#[export] Instance World_DbState : DbState World := {
  db_get := w_db;
  db_put d w := mkWorld d (w_outbox w) (w_provider w) (w_sms_client_ok w) (w_db_up w);
  db_get_put d w := eq_refl
}.

#[export] Instance World_DbConn : DbConn World := { db_connected := w_db_up }.

Section Implementation.

(** The provider's answer to the next send. *)
Definition next_outcome (w : World) : bool := w_provider w (length (w_outbox w)).

(** The world after one more send. *)
Definition record_attempt (w : World) (c : channel) (to : option json) (subj : option string)
           (body : option json) : World :=
  mkWorld (w_db w) (w_outbox w ++ [mkAttempt c to subj body (next_outcome w)])
          (w_provider w) (w_sms_client_ok w) (w_db_up w).

(** [await transport.send(...)]: the provider's answer, recorded. *)
Definition deliver (c : channel) (to : option json) (subj : option string) (body : option json)
  : M World bool :=
  fun w => (Ok (next_outcome w), record_attempt w c to subj body).

(** Lines 43-60. *)
Definition sendEmail (email : option json) (subject : string) (body : option json)
  : M World NotifyResult :=
  ok <- deliver EmailChannel email (Some subject) body ;;
  if ok then ret (mkNotifyResult "success" "Email sent successfully")
  else ret (mkNotifyResult "failure" "Failed to send email").

(** [twilio(sid, token)]: throws when the credentials are refused. *)
Definition twilio_client : M World unit :=
  fun w => if w_sms_client_ok w then (Ok tt, w)
           else (Throw (Error "username is required"), w).

(** Lines 62-77. *)
Definition sendSMS (phoneNumber message : option json) : M World NotifyResult :=
  twilio_client ;;
  ok <- deliver SmsChannel phoneNumber None message ;;
  if ok then ret (mkNotifyResult "success" "SMS sent successfully")
  else ret (mkNotifyResult "failure" "Failed to send SMS").

End Implementation.

Definition email_result (ok : bool) : NotifyResult :=
  if ok then mkNotifyResult "success" "Email sent successfully"
  else mkNotifyResult "failure" "Failed to send email".

Definition sms_result (ok : bool) : NotifyResult :=
  if ok then mkNotifyResult "success" "SMS sent successfully"
  else mkNotifyResult "failure" "Failed to send SMS".

Lemma sendEmail_eq (e : option json) (s : string) (t : option json) (w : World) :
  sendEmail e s t w = (Ok (email_result (next_outcome w)), record_attempt w EmailChannel e (Some s) t).
Proof. unfold sendEmail, bind, deliver. destruct (next_outcome w); reflexivity. Qed.

Lemma sendSMS_eq (p t : option json) (w : World) :
  w_sms_client_ok w = true ->
  sendSMS p t w = (Ok (sms_result (next_outcome w)), record_attempt w SmsChannel p None t).
Proof.
  intros Hok. unfold sendSMS, bind, twilio_client. rewrite Hok.
  unfold deliver. destruct (next_outcome w); reflexivity.
Qed.

Lemma sendSMS_no_client (p t : option json) (w : World) :
  w_sms_client_ok w = false -> sendSMS p t w = (Throw (Error "username is required"), w).
Proof. intros Hko. unfold sendSMS, bind, twilio_client. rewrite Hko. reflexivity. Qed.

(** ** The implementation meets the interface *)

Definition sms_ready (w : World) : Prop := w_sms_client_ok w = true.

Lemma sendEmail_db (e : option json) (s : string) (t : option json) (d : Db) :
  preserves (fun w => db_get w = d) (sendEmail e s t).
Proof. intros w Hw. rewrite sendEmail_eq. exact Hw. Qed.

Lemma sendSMS_db (p t : option json) (d : Db) :
  preserves (fun w => db_get w = d) (sendSMS p t).
Proof.
  intros w Hw. destruct (w_sms_client_ok w) eqn:Hok;
    [rewrite sendSMS_eq | rewrite sendSMS_no_client]; assumption.
Qed.

Lemma sendEmail_ready (e : option json) (s : string) (t : option json) (d : Db) :
  triple (fun w => sms_ready w /\ db_get w = d) (sendEmail e s t)
         (fun _ w => sms_ready w /\ db_get w = d).
Proof. intros w Hw. rewrite sendEmail_eq. exact Hw. Qed.

Lemma sendSMS_ready (p t : option json) (d : Db) :
  triple (fun w => sms_ready w /\ db_get w = d) (sendSMS p t)
         (fun _ w => sms_ready w /\ db_get w = d).
Proof. intros w [Hr Hw]. rewrite sendSMS_eq by exact Hr. split; assumption. Qed.

#[export] Instance World_Gateway : Gateway World := {
  gw_sendEmail := sendEmail;
  gw_sendSMS := sendSMS;
  gw_ready := sms_ready;
  gw_sendEmail_db := sendEmail_db;
  gw_sendSMS_db := sendSMS_db;
  gw_sendEmail_ready := sendEmail_ready;
  gw_sendSMS_ready := sendSMS_ready;
  gw_ready_db_put d w H := H
}.
