(* ===== verification/Reconcile.v ===== *)
(** * The reconciliation timer ("Detect No-Shows")

    src/backend/index.js, lines 39-40 and 79-100. Every 60 s the callback
    reads the appointments that are ['scheduled'] and whose time is more
    than [GRACE_PERIOD] in the past, and for each one, in the order [find]
    returns them: sets its status to ['missed'] and saves it; looks up the
    doctor's schedule; and when the schedule has offered slots, sends an
    e-mail and an SMS listing them, to the empty address and number the
    code passes.

    The timer is written against the [Gateway] interface, so its database
    theorems hold for any gateway; the notification trace is proved for the
    concrete [World]. *)

From Stdlib Require Import ZArith String List Lia.
From S2P Require Import Prelude DateFormat JsValue Store Notify.
Import ListNotations.
#[local] Open Scope string_scope.
#[local] Open Scope Z_scope.
#[local] Open Scope js_scope.

(** Line 40. *)
Definition GRACE_PERIOD : Z := 15 * 60 * 1000.

(** The query of lines 82-85: [status: 'scheduled'] and
    [scheduledTime: { $lt: new Date(now - GRACE_PERIOD) }]; a missing or
    null [scheduledTime] does not match [$lt]. *)
Definition is_overdue (now : Z) (a : Appointment.t) : bool :=
  String.eqb (Appointment.status a) "scheduled" &&
  match Appointment.scheduledTime a with
  | Some t => t <? now - GRACE_PERIOD
  | None => false
  end.

(** The template of line 94. *)
Definition missed_message (slots : list Z) : string :=
  "Your appointment was missed. Available slots: " ++ join_dates ", " slots.

Section Timer.
Context {W : Type} `{Gateway W}.

(** Lines 91-98. *)
Definition notify_patient (a : Appointment.t) : M W unit :=
  rescheduleOptions <- findOne_schedule (Appointment.doctorId a) ;;
  match rescheduleOptions with
  | Some s =>
      if Nat.ltb 0 (length (DoctorSchedule.availableSlots s)) then
        let message := missed_message (DoctorSchedule.availableSlots s) in
        _ <- gw_sendEmail (Some (JStr "")) "Missed Appointment" (Some (JStr message)) ;;
        _ <- gw_sendSMS (Some (JStr "")) (Some (JStr message)) ;;
        ret tt
      else ret tt
  | None => ret tt
  end.

(** The body of the loop, lines 88-98. *)
Definition process_appointment (a : Appointment.t) : M W unit :=
  save_appointment (Appointment._id a) (Appointment.set_status "missed") ;;
  notify_patient a.

(** The callback of [setInterval], lines 80-100, at the instant [now]. *)
Definition detect_no_shows (now : Z) : M W unit :=
  missedAppointments <- find_appointments (is_overdue now) ;;
  for_each process_appointment missedAppointments.

(** [setInterval(cb, 60000)]: [n] callbacks at [t0], [t0 + 60000], ...,
    each one finishing before the next fires. *)
Fixpoint run_timer (t0 : Z) (n : nat) : M W unit :=
  match n with
  | O => ret tt
  | S n' => detect_no_shows t0 ;; run_timer (t0 + 60000) n'
  end.

End Timer.

(** ** What one tick does to the appointments *)

(** The collection after a tick at [now]: every overdue appointment is
    ['missed'], every other one is as it was. *)
Definition mark_overdue (now : Z) (l : list Appointment.t) : list Appointment.t :=
  map (fun a => if is_overdue now a then Appointment.set_status "missed" a else a) l.

(** The collection after the appointments with identifiers [ids] have
    been processed. *)
Definition marked (ids : list string) (l : list Appointment.t) : list Appointment.t :=
  map (fun a => if existsb (String.eqb (Appointment._id a)) ids
                then Appointment.set_status "missed" a else a) l.

Lemma marked_ids (ids : list string) (l : list Appointment.t) :
  map Appointment._id (marked ids l) = map Appointment._id l.
Proof.
  unfold marked. rewrite map_map. apply map_ext. intros a.
  destruct (existsb _ ids); reflexivity.
Qed.

Lemma marked_step (ids : list string) (i : string) (l : list Appointment.t) :
  update_where Appointment._id i (Appointment.set_status "missed") (marked ids l)
  = marked (ids ++ [i]) l.
Proof.
  unfold update_where, marked. rewrite map_map. apply map_ext. intros a.
  rewrite existsb_app. simpl. rewrite orb_false_r.
  destruct (existsb (String.eqb (Appointment._id a)) ids) eqn:E;
    destruct (String.eqb_spec (Appointment._id a) i) as [Hi|Hi]; simpl;
    try rewrite (proj2 (String.eqb_eq _ _) Hi); try rewrite (proj2 (String.eqb_neq _ _) Hi);
    reflexivity.
Qed.

Lemma marked_overdue (now : Z) (l : list Appointment.t) :
  NoDup (map Appointment._id l) ->
  marked (map Appointment._id (List.filter (is_overdue now) l)) l = mark_overdue now l.
Proof.
  intros Hnd. unfold marked, mark_overdue. apply map_ext_in. intros a Ha.
  rewrite existsb_key_filter by assumption. reflexivity.
Qed.

Section TimerProofs.
Context {W : Type} `{Gateway W}.

Lemma notify_patient_spec (a : Appointment.t) (d : Db) :
  triple (fun w => gw_ready w /\ db_get w = d) (notify_patient a)
         (fun _ w => gw_ready w /\ db_get w = d).
Proof.
  apply (triple_read _ _ _ _ _ (findOne_schedule_read _)). intros o.
  apply (triple_pre _ (fun w => gw_ready w /\ db_get w = d)); [|intros w [Hw _]; exact Hw].
  destruct o as [s|]; [destruct (Nat.ltb 0 _)|]; try (apply triple_ret_weaken; auto).
  repeat (eapply triple_bind; [first [apply gw_sendEmail_ready | apply gw_sendSMS_ready]|]; intros ?).
  apply triple_ret_weaken; auto.
Qed.

Lemma notify_patient_db (a : Appointment.t) (d : Db) :
  preserves (fun w => db_get w = d) (notify_patient a).
Proof.
  apply preserves_bind; [intros w Hw; rewrite findOne_schedule_read; exact Hw|].
  intros [s|]; [destruct (Nat.ltb 0 _)|]; try apply preserves_ret.
  repeat (apply preserves_bind; [first [apply gw_sendEmail_db | apply gw_sendSMS_db]|]; intros ?).
  apply preserves_ret.
Qed.

Lemma save_ready (i : string) (f : Appointment.t -> Appointment.t) :
  preserves gw_ready (save_appointment i f).
Proof.
  intros w Hr. unfold save_appointment.
  destruct (update_first _ _ _ _); simpl; [apply gw_ready_db_put|]; exact Hr.
Qed.

(** The loop invariant: the processed prefix is marked, the schedules are
    untouched, the gateway is ready. *)
Definition tick_inv (d : Db) (done : list Appointment.t) (w : W) : Prop :=
  gw_ready w /\
  db_get w = mkDb (marked (map Appointment._id done) (appointments d)) (schedules d).

Lemma process_appointment_step (now : Z) (d : Db) (done : list Appointment.t)
      (x : Appointment.t) (rest : list Appointment.t) :
  db_wf d -> List.filter (is_overdue now) (appointments d) = (done ++ x :: rest)%list ->
  triple (tick_inv d done) (process_appointment x) (fun _ => tick_inv d (done ++ [x])%list).
Proof.
  intros Hwf Hsplit.
  assert (Hx : In x (appointments d)).
  { apply (filter_In (is_overdue now)). rewrite Hsplit. apply in_or_app. right. left. reflexivity. }
  assert (Hwf' : db_wf (mkDb (marked (map Appointment._id done) (appointments d)) (schedules d))).
  { destruct Hwf as [Ha Hs]. split; [simpl; rewrite marked_ids|]; assumption. }
  assert (Hin : In (Appointment._id x) (map Appointment._id
                  (appointments (mkDb (marked (map Appointment._id done) (appointments d)) (schedules d))))).
  { simpl. rewrite marked_ids. apply in_map, Hx. }
  unfold process_appointment, tick_inv.
  eapply triple_pre; [| intros w [Hr Hw]; exact (conj Hw Hr)].
  apply triple_bind with
    (Q := fun _ w => db_get w = mkDb (marked (map Appointment._id (done ++ [x])%list) (appointments d)) (schedules d)
                     /\ gw_ready w).
  - eapply triple_consequence.
    + apply triple_preserves_conj; [apply (save_appointment_spec _ _ _ Hwf' Hin) | apply save_ready].
    + intros w Hw; exact Hw.
    + intros u w [Hw Hr]. split; [|exact Hr].
      rewrite Hw. simpl. rewrite marked_step, map_app. reflexivity.
  - intros u. eapply triple_consequence; [apply notify_patient_spec | intros w [Hw Hr]; split; eassumption |].
    intros v w [Hr Hw]. split; assumption.
Qed.

End TimerProofs.

Section TickTheorems.
Context {W : Type} `{Gateway W}.

Lemma detect_no_shows_triple (now : Z) (d : Db) :
  db_wf d ->
  triple (fun w => gw_ready w /\ db_get w = d) (detect_no_shows now)
         (fun _ w => gw_ready w /\ db_get w = mkDb (mark_overdue now (appointments d)) (schedules d)).
Proof.
  intros Hwf. unfold detect_no_shows.
  apply (triple_read _ _ _ _ _ (find_appointments_read _)). intros xs.
  intros w [[Hr Hw] ->]. rewrite Hw.
  assert (Hinv : tick_inv d [] w).
  { split; [exact Hr|]. rewrite Hw. destruct d as [l sc]. simpl. f_equal.
    unfold marked. simpl. symmetry. apply map_id. }
  pose proof (triple_for_each (tick_inv d) process_appointment
                (List.filter (is_overdue now) (appointments d))) as Hloop.
  specialize (Hloop (fun done x rest Hs => process_appointment_step now d done x rest Hwf Hs) w Hinv).
  destruct (for_each _ _ w) as [[u|e] w'] ; [|contradiction].
  destruct Hloop as [Hr' Hw']. split; [exact Hr'|].
  rewrite Hw', marked_overdue; [reflexivity | apply Hwf].
Qed.

End TickTheorems.

(** ** Appointments only move from ['scheduled'] to ['missed'] *)

(** [d'] differs from [d] only by overdue appointments marked ['missed']. *)
Definition only_marks_overdue (now : Z) (d d' : Db) : Prop :=
  schedules d' = schedules d /\
  exists ids, appointments d' = marked ids (appointments d) /\
    Forall (fun i => exists a, In a (appointments d) /\ is_overdue now a = true /\
                               Appointment._id a = i) ids.

Section TickInvariant.
Context {W : Type} `{Gateway W}.

Lemma process_appointment_only_marks (now : Z) (d : Db) (x : Appointment.t) :
  db_wf d -> In x (appointments d) -> is_overdue now x = true ->
  preserves (fun w => only_marks_overdue now d (db_get w)) (process_appointment x).
Proof.
  intros [Hnd _] Hx Hov. apply preserves_bind.
  - intros w (Hs & ids & Ha & Hf). unfold save_appointment.
    assert (Hnd' : NoDup (map Appointment._id (appointments (db_get w)))).
    { rewrite Ha, marked_ids. exact Hnd. }
    assert (Hin : In (Appointment._id x) (map Appointment._id (appointments (db_get w)))).
    { rewrite Ha, marked_ids. apply in_map, Hx. }
    rewrite update_first_some by assumption. simpl. rewrite db_get_put. simpl.
    split; [exact Hs|]. exists (ids ++ [Appointment._id x])%list.
    split; [rewrite Ha; apply marked_step|].
    apply Forall_app; split; [exact Hf|]. constructor; [|constructor].
    exists x. auto.
  - intros u w Hw. pose proof (notify_patient_db x (db_get w) w eq_refl) as E.
    simpl in E. rewrite E. exact Hw.
Qed.

(** The loop over the overdue appointments of [d] keeps the database
    within the marks of overdue appointments of [d], step by step. *)
Lemma for_each_only_marks (now : Z) (d : Db) :
  db_wf d ->
  preserves (fun w => only_marks_overdue now d (db_get w))
            (for_each process_appointment (List.filter (is_overdue now) (appointments d))).
Proof.
  intros Hwf. apply preserves_for_each. intros x Hx. apply filter_In in Hx as [Hx Hov].
  apply process_appointment_only_marks; assumption.
Qed.

Lemma only_marks_overdue_refl (now : Z) (d : Db) : only_marks_overdue now d d.
Proof.
  split; [reflexivity|]. exists []. split; [|constructor].
  unfold marked. simpl. symmetry. apply map_id.
Qed.

End TickInvariant.

(** ** Theorems of the timer *)

Section TickClaims.
Context {W : Type} `{Gateway W}.

(** C1. One tick at [now] on a well-formed database, with a ready
    gateway, returns normally; afterwards every appointment that was
    ['scheduled'] with a time before [now - GRACE_PERIOD] is ['missed'],
    every other appointment is unchanged, and the schedules are unchanged. *)
Theorem detect_no_shows_correct (now : Z) (w : W) :
  db_wf (db_get w) -> gw_ready w ->
  exists w', detect_no_shows now w = (Ok tt, w') /\ gw_ready w' /\
    db_get w' = mkDb (mark_overdue now (appointments (db_get w))) (schedules (db_get w)).
Proof.
  intros Hwf Hr.
  destruct (triple_run _ _ _ w (detect_no_shows_triple now (db_get w) Hwf) (conj Hr eq_refl))
    as ([] & w' & Hrun & Hw'). eauto.
Qed.

(** C9. Whatever the gateway does, even when a send throws and the tick
    stops half-way, the tick changes no schedule and changes appointments
    only by marking ['missed'] some appointments that were overdue. *)
Theorem detect_no_shows_only_marks (now : Z) (w : W) :
  db_wf (db_get w) ->
  only_marks_overdue now (db_get w) (db_get (snd (detect_no_shows now w))).
Proof.
  intros Hwf. unfold detect_no_shows, bind at 1. rewrite find_appointments_read.
  apply (for_each_only_marks now _ Hwf), only_marks_overdue_refl.
Qed.

End TickClaims.

(** ** The notifications of one tick, in the concrete world *)

(** What a send hands to the provider: channel, recipient, subject, text. *)
Definition send_view (att : Attempt) : channel * option json * option string * option json :=
  (channel_of att, recipient att, subject att, text att).

(** The sends the loop body makes for [a], given the schedules. *)
Definition expected_sends (d : Db) (a : Appointment.t)
  : list (channel * option json * option string * option json) :=
  match find_schedule d (Appointment.doctorId a) with
  | Some s =>
      let slots := DoctorSchedule.availableSlots s in
      if Nat.ltb 0 (length slots)
      then [(EmailChannel, Some (JStr ""), Some "Missed Appointment", Some (JStr (missed_message slots)));
            (SmsChannel, Some (JStr ""), None, Some (JStr (missed_message slots)))]
      else []
  | None => []
  end.

Lemma notify_patient_outbox (a : Appointment.t) (w0 : World) :
  w_sms_client_ok w0 = true ->
  triple (fun w => w = w0) (notify_patient a)
    (fun _ w => w_db w = w_db w0 /\ w_sms_client_ok w = true /\
       map send_view (w_outbox w) = (map send_view (w_outbox w0) ++ expected_sends (w_db w0) a)%list).
Proof.
  intros Hok w ->. unfold notify_patient, expected_sends, bind at 1. rewrite findOne_schedule_read.
  simpl db_get. destruct (find_schedule _ _) as [s|] eqn:Hs; [destruct (Nat.ltb 0 _)|];
    [|simpl; rewrite app_nil_r; auto..].
  remember (missed_message _) as msg eqn:Hmsg. clear Hmsg.
  change (@gw_sendEmail World _ _) with sendEmail. change (@gw_sendSMS World _ _) with sendSMS.
  unfold bind. rewrite sendEmail_eq, sendSMS_eq by exact Hok. simpl.
  rewrite !map_app, <- app_assoc. auto.
Qed.

Lemma save_appointment_frame (i : string) (f : Appointment.t -> Appointment.t) (ob : list Attempt) :
  preserves (fun w : World => w_outbox w = ob /\ w_sms_client_ok w = true) (save_appointment i f).
Proof. intros w Hw. unfold save_appointment. destruct (update_first _ _ _ _); exact Hw. Qed.

(** The loop invariant of the trace: the sends of the processed prefix
    have been appended to the initial outbox [ob0]. *)
Definition trace_inv (d : Db) (ob0 : list Attempt) (done : list Appointment.t) (w : World) : Prop :=
  tick_inv d done w /\
  map send_view (w_outbox w) = (map send_view ob0 ++ flat_map (expected_sends d) done)%list.

Lemma process_appointment_trace (now : Z) (d : Db) (ob0 : list Attempt)
      (done : list Appointment.t) (x : Appointment.t) (rest : list Appointment.t) :
  db_wf d -> List.filter (is_overdue now) (appointments d) = (done ++ x :: rest)%list ->
  triple (trace_inv d ob0 done) (process_appointment x) (fun _ => trace_inv d ob0 (done ++ [x])%list).
Proof.
  intros Hwf Hsplit w [Hinv Hob].
  pose proof (process_appointment_step now d done x rest Hwf Hsplit w Hinv) as Hstep.
  revert Hstep. unfold process_appointment, bind.
  pose proof (save_appointment_frame (Appointment._id x) (Appointment.set_status "missed")
                (w_outbox w) w (conj eq_refl (proj1 Hinv))) as [Hob1 Hok1].
  destruct (save_appointment _ _ w) as [[u|e] w1]; [|contradiction]. simpl in Hob1, Hok1.
  pose proof (notify_patient_outbox x w1 Hok1 w1 eq_refl) as Hn.
  destruct (notify_patient x w1) as [[v|e] w2]; [|contradiction].
  intros Hstep. split; [exact Hstep|]. destruct Hn as (Hdb & _ & Hv).
  rewrite Hv, Hob1, Hob, flat_map_app, <- app_assoc. simpl. rewrite app_nil_r.
  do 2 f_equal. destruct Hstep as [_ Hd2]. simpl in Hd2. rewrite <- Hdb, Hd2. reflexivity.
Qed.

(** C10. In the concrete world, with an SMS client that can be built, one
    tick appends to the outbox, for each overdue appointment in the order
    [find] returns them and whose doctor's first schedule offers slots, an
    e-mail with subject ["Missed Appointment"] and then an SMS, both to the
    empty recipient of lines 96-97 and both with the text of line 94 that
    lists the slots through [Date.prototype.toString]. *)
Theorem detect_no_shows_notifications (now : Z) (w : World) :
  db_wf (w_db w) -> w_sms_client_ok w = true ->
  exists w', detect_no_shows now w = (Ok tt, w') /\
    map send_view (w_outbox w') =
      (map send_view (w_outbox w) ++
       flat_map (expected_sends (w_db w))
                (List.filter (is_overdue now) (appointments (w_db w))))%list.
Proof.
  intros Hwf Hok. unfold detect_no_shows, bind at 1. rewrite find_appointments_read.
  assert (H0 : trace_inv (w_db w) (w_outbox w) [] w).
  { split; [split; [exact Hok|]|]; [| simpl; rewrite app_nil_r; reflexivity].
    destruct w as [[l sc] ob p b up]. simpl. unfold marked. simpl. rewrite map_id. reflexivity. }
  destruct (triple_run _ _ _ w (triple_for_each _ process_appointment _
              (fun done x rest Hs => process_appointment_trace now (w_db w) (w_outbox w) done x rest Hwf Hs)) H0)
    as ([] & w' & Hrun & _ & Hv).
  exists w'. split; [exact Hrun | exact Hv].
Qed.

(** No appointment is overdue right after a tick at the same instant. *)
Lemma mark_overdue_none_left (now : Z) (l : list Appointment.t) :
  List.filter (is_overdue now) (mark_overdue now l) = [].
Proof.
  induction l as [|a l IH]; simpl; [reflexivity|].
  destruct (is_overdue now a) eqn:E; simpl; rewrite ?E, IH; reflexivity.
Qed.

(** C11. A second tick at the same instant finds nothing to do: it
    returns the very world the first tick left, with no further send. *)
Theorem detect_no_shows_idempotent (now : Z) (w : World) :
  db_wf (w_db w) -> w_sms_client_ok w = true ->
  exists w', detect_no_shows now w = (Ok tt, w') /\ detect_no_shows now w' = (Ok tt, w').
Proof.
  intros Hwf Hok.
  assert (Hr : gw_ready w) by exact Hok.
  destruct (triple_run _ _ _ w (detect_no_shows_triple now (w_db w) Hwf) (conj Hr eq_refl))
    as ([] & w' & Hrun & _ & Hdb).
  exists w'. split; [exact Hrun|].
  unfold detect_no_shows, bind. rewrite find_appointments_read, Hdb. simpl.
  rewrite mark_overdue_none_left. reflexivity.
Qed.

(** ** A send that throws inside the loop, in the concrete world *)

Section ThrowingSend.
Variables (l : list Appointment.t) (sc : list DoctorSchedule.t).
Hypothesis Hnd : NoDup (map Appointment._id l).

Definition marked_world (ids : list string) (w : World) : World :=
  mkWorld (mkDb (marked ids l) sc) (w_outbox w) (w_provider w) (w_sms_client_ok w) (w_db_up w).

(** Line 89 on an appointment of the collection, after [ids]. *)
Lemma save_marked (ids : list string) (x : Appointment.t) (w : World) :
  In x l -> w_db w = mkDb (marked ids l) sc ->
  save_appointment (Appointment._id x) (Appointment.set_status "missed") w
  = (Ok tt, marked_world (ids ++ [Appointment._id x]) w).
Proof.
  intros Hx Hw. unfold save_appointment. change (db_get w) with (w_db w). rewrite Hw. simpl.
  rewrite update_first_some by (rewrite marked_ids; [exact Hnd || apply in_map, Hx]).
  rewrite marked_step. reflexivity.
Qed.

(** The body of the loop on an appointment whose doctor offers no slot
    only marks it. *)
Lemma process_no_sends (ids : list string) (x : Appointment.t) (w : World) :
  In x l -> w_db w = mkDb (marked ids l) sc -> expected_sends (mkDb l sc) x = [] ->
  process_appointment x w = (Ok tt, marked_world (ids ++ [Appointment._id x]) w).
Proof.
  intros Hx Hw He. unfold process_appointment, bind at 1. rewrite (save_marked ids) by assumption.
  unfold notify_patient, bind at 1. rewrite findOne_schedule_read. simpl db_get.
  change (find_schedule (mkDb (marked (ids ++ [Appointment._id x]) l) sc)) with (find_schedule (mkDb l sc)).
  unfold expected_sends in He. destruct (find_schedule _ _) as [s|]; [|reflexivity].
  destruct (Nat.ltb 0 _); [discriminate | reflexivity].
Qed.

Lemma for_each_no_sends (ids : list string) (xs : list Appointment.t) (w : World) :
  Forall (fun x => In x l /\ expected_sends (mkDb l sc) x = []) xs ->
  w_db w = mkDb (marked ids l) sc ->
  for_each process_appointment xs w = (Ok tt, marked_world (ids ++ map Appointment._id xs) w).
Proof.
  revert ids w. induction xs as [|x xs IH]; intros ids w Hf Hw; inversion Hf as [|? ? [Hx He] Hf']; subst.
  - unfold marked_world. rewrite app_nil_r, <- Hw. destruct w; reflexivity.
  - simpl for_each. unfold bind at 1. rewrite (process_no_sends ids) by assumption.
    erewrite IH by (exact Hf' || reflexivity). simpl. rewrite <- app_assoc. reflexivity.
Qed.

(** The body of the loop, when the doctor offers slots and [twilio()]
    throws: the appointment is saved, its e-mail is sent, and the loop
    body throws at line 97. *)
Lemma process_sms_throws (ids : list string) (x : Appointment.t) (s : DoctorSchedule.t) (w : World) :
  In x l -> w_db w = mkDb (marked ids l) sc -> w_sms_client_ok w = false ->
  find_schedule (mkDb l sc) (Appointment.doctorId x) = Some s -> DoctorSchedule.availableSlots s <> [] ->
  process_appointment x w =
    (Throw (Error "username is required"),
     record_attempt (marked_world (ids ++ [Appointment._id x]) w) EmailChannel (Some (JStr ""))
       (Some "Missed Appointment") (Some (JStr (missed_message (DoctorSchedule.availableSlots s))))).
Proof.
  intros Hx Hw Hko Hs Hne. unfold process_appointment, bind at 1. rewrite (save_marked ids) by assumption.
  unfold notify_patient, bind at 1. rewrite findOne_schedule_read.
  assert (Hs' : find_schedule (db_get (marked_world (ids ++ [Appointment._id x]) w)) (Appointment.doctorId x)
                = Some s) by exact Hs.
  rewrite Hs'. destruct (DoctorSchedule.availableSlots s) as [|t ts]; [contradiction|]. simpl.
  change (@gw_sendEmail World _ _) with sendEmail. change (@gw_sendSMS World _ _) with sendSMS.
  unfold bind. rewrite sendEmail_eq, sendSMS_no_client by exact Hko. reflexivity.
Qed.

End ThrowingSend.

(** C13. When [twilio(sid, token)] refuses the credentials (as it does for
    the empty strings of line 63), the callback throws at the first overdue
    appointment whose doctor offers slots: that appointment and the overdue
    ones [find] returned before it are ['missed'], the later ones ([post])
    are left as they were, and the outbox gains exactly the one e-mail of
    that appointment: no SMS is attempted, no later patient is notified. *)
Theorem detect_no_shows_sms_failure (now : Z) (w : World) (pre post : list Appointment.t)
        (a : Appointment.t) (s : DoctorSchedule.t) :
  db_wf (w_db w) -> w_sms_client_ok w = false ->
  List.filter (is_overdue now) (appointments (w_db w)) = (pre ++ a :: post)%list ->
  Forall (fun x => expected_sends (w_db w) x = []) pre ->
  find_schedule (w_db w) (Appointment.doctorId a) = Some s -> DoctorSchedule.availableSlots s <> [] ->
  detect_no_shows now w =
    (Throw (Error "username is required"),
     record_attempt (marked_world (appointments (w_db w)) (schedules (w_db w))
                       (map Appointment._id (pre ++ [a])) w)
       EmailChannel (Some (JStr "")) (Some "Missed Appointment")
       (Some (JStr (missed_message (DoctorSchedule.availableSlots s))))).
Proof.
  destruct w as [[l sc] ob p ok up]. simpl. intros [Hnd _] Hko Hf Hpre Hs Hne.
  assert (Hin : forall x, In x (pre ++ a :: post)%list -> In x l).
  { intros x Hx. rewrite <- Hf in Hx. apply filter_In in Hx. apply Hx. }
  unfold detect_no_shows, bind at 1. rewrite find_appointments_read.
  change (List.filter (is_overdue now) (appointments (db_get _))) with (List.filter (is_overdue now) l).
  rewrite Hf.
  rewrite for_each_app. unfold bind at 1.
  rewrite (for_each_no_sends l sc Hnd []).
  - simpl for_each. unfold bind at 1.
    rewrite (process_sms_throws l sc Hnd _ a s) by (simpl; auto using in_or_app, in_eq).
    simpl. rewrite map_app. reflexivity.
  - apply Forall_forall. intros x Hx. split; [apply Hin, in_or_app; left; exact Hx|].
    revert x Hx. apply Forall_forall, Hpre.
  - simpl. unfold marked. simpl. rewrite map_id. reflexivity.
Qed.

(** ** Runs of the timer *)

(** A later tick subsumes an earlier one. *)
Lemma is_overdue_missed (now : Z) (a : Appointment.t) :
  is_overdue now (Appointment.set_status "missed" a) = false.
Proof. reflexivity. Qed.

Lemma is_overdue_mono (now1 now2 : Z) (a : Appointment.t) :
  now1 <= now2 -> is_overdue now1 a = true -> is_overdue now2 a = true.
Proof.
  unfold is_overdue. intros Hle. rewrite !andb_true_iff. intros [Hs Ht]. split; [exact Hs|].
  destruct (Appointment.scheduledTime a) as [t|]; [|discriminate].
  apply Z.ltb_lt in Ht. apply Z.ltb_lt. lia.
Qed.

Lemma mark_overdue_later (now1 now2 : Z) (l : list Appointment.t) :
  now1 <= now2 -> mark_overdue now2 (mark_overdue now1 l) = mark_overdue now2 l.
Proof.
  intros Hle. unfold mark_overdue. rewrite map_map. apply map_ext. intros a.
  destruct (is_overdue now1 a) eqn:E1; [|reflexivity].
  rewrite is_overdue_missed, (is_overdue_mono now1 now2 a Hle E1). reflexivity.
Qed.

Lemma mark_overdue_ids (now : Z) (l : list Appointment.t) :
  map Appointment._id (mark_overdue now l) = map Appointment._id l.
Proof. unfold mark_overdue. rewrite map_map. apply map_ext. intros a. destruct (is_overdue now a); reflexivity. Qed.

Section Runs.
Context {W : Type} `{Gateway W}.

Lemma run_timer_triple (t0 : Z) (n : nat) (d : Db) :
  db_wf d ->
  triple (fun w => gw_ready w /\ db_get w = d) (run_timer t0 (S n))
         (fun _ w => gw_ready w /\
            db_get w = mkDb (mark_overdue (t0 + 60000 * Z.of_nat n) (appointments d)) (schedules d)).
Proof.
  revert t0 d. induction n as [|n IH]; intros t0 d Hwf; simpl.
  - eapply triple_bind; [apply (detect_no_shows_triple t0 d Hwf)|]. intros u.
    apply triple_ret_weaken. intros w [Hr Hw]. split; [exact Hr|]. rewrite Hw. do 2 f_equal. lia.
  - eapply triple_bind; [apply (detect_no_shows_triple t0 d Hwf)|]. intros u.
    assert (Hwf' : db_wf (mkDb (mark_overdue t0 (appointments d)) (schedules d))).
    { destruct Hwf as [Ha Hs]. split; [simpl; rewrite mark_overdue_ids|]; assumption. }
    eapply triple_consequence; [apply (IH (t0 + 60000) _ Hwf') | auto |].
    intros v w [Hr Hw]. split; [exact Hr|]. rewrite Hw. simpl.
    rewrite mark_overdue_later by lia. do 2 f_equal. lia.
Qed.

(** C19. [n + 1] ticks of the timer, the first at [t0], leave the
    appointments exactly as one tick at the last instant
    [t0 + 60000 n] would: an appointment is ['missed'] after the run
    exactly when it was ['scheduled'] with a time before
    [t0 + 60000 n - GRACE_PERIOD], and the schedules are unchanged. *)
Theorem run_timer_closed_form (t0 : Z) (n : nat) (w : W) :
  db_wf (db_get w) -> gw_ready w ->
  exists w', run_timer t0 (S n) w = (Ok tt, w') /\
    db_get w' = mkDb (mark_overdue (t0 + 60000 * Z.of_nat n) (appointments (db_get w)))
                     (schedules (db_get w)).
Proof.
  intros Hwf Hr.
  destruct (triple_run _ _ _ w (run_timer_triple t0 n (db_get w) Hwf) (conj Hr eq_refl))
    as ([] & w' & Hrun & _ & Hw'). eauto.
Qed.

(** The tick that catches an appointment due at [T]: the first one after
    [T + GRACE_PERIOD]. *)
Definition catching_tick (t0 T : Z) : nat := Z.to_nat ((T + GRACE_PERIOD - t0) / 60000 + 1).

(** C20. Latency: when the timer starts at [t0] no later than
    [T + GRACE_PERIOD], an appointment ['scheduled'] at [T] is ['missed']
    after the ticks up to the instant [t0 + 60000 k] of [catching_tick],
    and that instant is at most [T + GRACE_PERIOD + 60000]: no appointment
    waits more than 16 minutes past its time to be marked. *)
Theorem run_timer_latency (t0 T : Z) (a : Appointment.t) (w : W) :
  db_wf (db_get w) -> gw_ready w -> t0 <= T + GRACE_PERIOD ->
  In a (appointments (db_get w)) -> Appointment.status a = "scheduled" ->
  Appointment.scheduledTime a = Some T ->
  t0 + 60000 * Z.of_nat (catching_tick t0 T) <= T + GRACE_PERIOD + 60000 /\
  exists w', run_timer t0 (S (catching_tick t0 T)) w = (Ok tt, w') /\
    In (Appointment.set_status "missed" a) (appointments (db_get w')).
Proof.
  intros Hwf Hr Ht0 Ha Hs HT. unfold catching_tick.
  assert (Hdiv := Z.div_mod (T + GRACE_PERIOD - t0) 60000 ltac:(lia)).
  assert (Hmod := Z.mod_pos_bound (T + GRACE_PERIOD - t0) 60000 ltac:(lia)).
  assert (Hq : 0 <= (T + GRACE_PERIOD - t0) / 60000) by (apply Z.div_pos; lia).
  rewrite Z2Nat.id by lia. split; [lia|].
  destruct (triple_run _ _ _ w
              (run_timer_triple t0 (Z.to_nat ((T + GRACE_PERIOD - t0) / 60000 + 1)) (db_get w) Hwf)
              (conj Hr eq_refl)) as ([] & w' & Hrun & _ & Hw').
  exists w'. split; [exact Hrun|]. rewrite Hw'. simpl. unfold mark_overdue.
  apply in_map_iff. exists a. split; [|exact Ha].
  unfold is_overdue. rewrite Hs, HT, String.eqb_refl. simpl.
  rewrite Z2Nat.id by lia. destruct (Z.ltb_spec T (t0 + 60000 * ((T + GRACE_PERIOD - t0) / 60000 + 1) - GRACE_PERIOD));
    [reflexivity | unfold GRACE_PERIOD in *; lia].
Qed.

End Runs.

(** ** A concrete world: doctor [doc1], one appointment 20 minutes late *)

Definition T0 : Z := 1704103200000.            (* 2024-01-01T10:00:00.000Z *)
Definition T1 : Z := T0 + 86400000.             (* the next day, same hour *)
Definition T2 : Z := T1 + 3600000.

Definition apptA : Appointment.t :=
  Appointment.mk "65a000000000000000000001" "p1" "doc1" (Some T0) "scheduled" false.
Definition apptB : Appointment.t :=
  Appointment.mk "65a000000000000000000002" "p2" "doc1" (Some (T0 + 600000)) "scheduled" false.
Definition sched1 : DoctorSchedule.t :=
  DoctorSchedule.mk "65a0000000000000000000d1" "doc1" [T1; T2].

Definition ex_db : Db := mkDb [apptA; apptB] [sched1].

Definition ex_world : World := mkWorld ex_db [] (fun _ => true) true true.

Definition ex_now : Z := T0 + 20 * 60000.

(** The same world where [twilio(sid, token)] refuses the credentials. *)
Definition ex_world_nosms : World := mkWorld ex_db [] (fun _ => true) false true.

Lemma detect_no_shows_correct_witness :
  db_wf (db_get ex_world) /\ gw_ready ex_world /\
  exists w', detect_no_shows ex_now ex_world = (Ok tt, w') /\ gw_ready w' /\
    db_get w' = mkDb (mark_overdue ex_now (appointments (db_get ex_world)))
                     (schedules (db_get ex_world)).
Proof.
  assert (Hwf : db_wf (db_get ex_world)) by solve_db_wf.
  assert (Hr : gw_ready ex_world) by reflexivity.
  split; [exact Hwf | split; [exact Hr|]].
  exact (detect_no_shows_correct ex_now ex_world Hwf Hr).
Defined.

Lemma detect_no_shows_only_marks_witness :
  db_wf (db_get ex_world_nosms) /\
  only_marks_overdue ex_now (db_get ex_world_nosms)
    (db_get (snd (detect_no_shows ex_now ex_world_nosms))).
Proof.
  assert (Hwf : db_wf (db_get ex_world_nosms)) by solve_db_wf.
  split; [exact Hwf | exact (detect_no_shows_only_marks ex_now ex_world_nosms Hwf)].
Defined.

Lemma detect_no_shows_notifications_witness :
  db_wf (w_db ex_world) /\ w_sms_client_ok ex_world = true /\
  exists w', detect_no_shows ex_now ex_world = (Ok tt, w') /\
    map send_view (w_outbox w') =
      (map send_view (w_outbox ex_world) ++
       flat_map (expected_sends (w_db ex_world))
                (List.filter (is_overdue ex_now) (appointments (w_db ex_world))))%list.
Proof.
  assert (Hwf : db_wf (w_db ex_world)) by solve_db_wf.
  split; [exact Hwf | split; [reflexivity|]].
  exact (detect_no_shows_notifications ex_now ex_world Hwf eq_refl).
Defined.

Lemma detect_no_shows_idempotent_witness :
  db_wf (w_db ex_world) /\ w_sms_client_ok ex_world = true /\
  exists w', detect_no_shows ex_now ex_world = (Ok tt, w') /\
             detect_no_shows ex_now w' = (Ok tt, w').
Proof.
  assert (Hwf : db_wf (w_db ex_world)) by solve_db_wf.
  split; [exact Hwf | split; [reflexivity|]].
  exact (detect_no_shows_idempotent ex_now ex_world Hwf eq_refl).
Defined.

(** The scenario of the specification, first half, computed: twenty minutes
    after appointment A's time, one tick marks A ['missed'], leaves B (ten
    minutes late, inside the grace period) ['scheduled'], and sends one
    e-mail and one SMS to the empty recipient listing doc1's two slots as
    [Date.prototype.toString] prints them. *)
Example detect_no_shows_scenario :
  let w' := snd (detect_no_shows ex_now ex_world) in
  map Appointment.status (appointments (w_db w')) = ["missed"; "scheduled"] /\
  schedules (w_db w') = [sched1] /\
  map send_view (w_outbox w') =
    [(EmailChannel, Some (JStr ""), Some "Missed Appointment",
      Some (JStr "Your appointment was missed. Available slots: Tue Jan 02 2024 10:00:00 GMT+0000 (Coordinated Universal Time), Tue Jan 02 2024 11:00:00 GMT+0000 (Coordinated Universal Time)"));
     (SmsChannel, Some (JStr ""), None,
      Some (JStr "Your appointment was missed. Available slots: Tue Jan 02 2024 10:00:00 GMT+0000 (Coordinated Universal Time), Tue Jan 02 2024 11:00:00 GMT+0000 (Coordinated Universal Time)"))].
Proof. vm_compute. repeat split. Qed.

Lemma detect_no_shows_sms_failure_witness :
  let apptC := Appointment.mk "65a000000000000000000003" "p3" "doc1" (Some T0) "scheduled" false in
  let w0 := mkWorld (mkDb [apptA; apptC] [sched1]) [] (fun _ => true) false true in
  detect_no_shows ex_now w0 =
    (Throw (Error "username is required"),
     record_attempt (marked_world [apptA; apptC] [sched1] [Appointment._id apptA] w0)
       EmailChannel (Some (JStr "")) (Some "Missed Appointment")
       (Some (JStr (missed_message (DoctorSchedule.availableSlots sched1))))).
Proof.
  intros apptC w0.
  apply (detect_no_shows_sms_failure ex_now w0 [] [apptC] apptA sched1);
    [solve_db_wf | reflexivity | vm_compute; reflexivity | constructor | reflexivity | discriminate].
Defined.

(** The same run evaluated: A is ['missed'] and C still ['scheduled'],
    and the outbox holds one e-mail. *)
Example detect_no_shows_sms_client_failure :
  let apptC := Appointment.mk "65a000000000000000000003" "p3" "doc1" (Some T0) "scheduled" false in
  let w0 := mkWorld (mkDb [apptA; apptC] [sched1]) [] (fun _ => true) false true in
  let r := detect_no_shows ex_now w0 in
  fst r = Throw (Error "username is required") /\
  map Appointment.status (appointments (w_db (snd r))) = ["missed"; "scheduled"] /\
  map channel_of (w_outbox (snd r)) = [EmailChannel].
Proof. vm_compute. repeat split. Qed.

Lemma run_timer_closed_form_witness :
  db_wf (db_get ex_world) /\ gw_ready ex_world /\
  exists w', run_timer T0 (S 20) ex_world = (Ok tt, w') /\
    db_get w' = mkDb (mark_overdue (T0 + 60000 * Z.of_nat 20) (appointments (db_get ex_world)))
                     (schedules (db_get ex_world)).
Proof.
  assert (Hwf : db_wf (db_get ex_world)) by solve_db_wf.
  assert (Hr : gw_ready ex_world) by reflexivity.
  split; [exact Hwf | split; [exact Hr|]].
  exact (run_timer_closed_form T0 20 ex_world Hwf Hr).
Defined.

Lemma run_timer_latency_witness :
  db_wf (db_get ex_world) /\ gw_ready ex_world /\ T0 <= T0 + GRACE_PERIOD /\
  In apptA (appointments (db_get ex_world)) /\ Appointment.status apptA = "scheduled" /\
  Appointment.scheduledTime apptA = Some T0 /\
  T0 + 60000 * Z.of_nat (catching_tick T0 T0) <= T0 + GRACE_PERIOD + 60000 /\
  exists w', run_timer T0 (S (catching_tick T0 T0)) ex_world = (Ok tt, w') /\
    In (Appointment.set_status "missed" apptA) (appointments (db_get w')).
Proof.
  assert (Hwf : db_wf (db_get ex_world)) by solve_db_wf.
  assert (Hr : gw_ready ex_world) by reflexivity.
  assert (Ht : T0 <= T0 + GRACE_PERIOD) by (unfold GRACE_PERIOD; lia).
  assert (Ha : In apptA (appointments (db_get ex_world))) by (left; reflexivity).
  assert (Hs : Appointment.status apptA = "scheduled") by reflexivity.
  assert (HT : Appointment.scheduledTime apptA = Some T0) by reflexivity.
  do 6 (split; [assumption|]).
  exact (run_timer_latency T0 T0 apptA ex_world Hwf Hr Ht Ha Hs HT).
Defined.
