(* ===== verification/Api.v ===== *)
(** * The HTTP handlers

    src/backend/index.js, lines 102-175: [GET /api/slots/:doctorId],
    [POST /api/rebook], [GET /api/missedAppointments/:patientId] and
    [POST /api/test-notification]. Each
    handler is an [async] function of the request; it answers with a status
    code and a JSON body ([Response]), or it throws, which in Express 4
    leaves the request unanswered and the promise rejected.

    The first three only read and write the database, so they are written
    for any world with a [DbState] (the missed-appointments query also
    with a [DbConn], since its [catch] answers a lost connection); the
    test handler only sends, through any [Gateway]. *)

From Stdlib Require Import ZArith String List Lia.
From S2P Require Import Prelude DateFormat DateProofs JsValue Store Notify Reconcile.
Import ListNotations.
#[local] Open Scope string_scope.
#[local] Open Scope Z_scope.
#[local] Open Scope js_scope.

(** [res.status(code).json(body)]; [res.json(body)] answers 200. *)
Record Response := mkResponse {
  statusCode : Z;
  body : json
}.

Definition message_body (m : string) : json := JObj [("message", JStr m)].

(** [JSON.stringify] of an appointment document (the fields of the
    schema; the version key [__v] is left out). *)
Definition appointment_to_json (a : Appointment.t) : json :=
  JObj [("_id", JStr (Appointment._id a));
        ("patientId", JStr (Appointment.patientId a));
        ("doctorId", JStr (Appointment.doctorId a));
        ("scheduledTime", match Appointment.scheduledTime a with
                          | Some t => date_toJSON t
                          | None => JNull
                          end);
        ("status", JStr (Appointment.status a));
        ("notificationSent", JBool (Appointment.notificationSent a))].

Section Handlers.
Context {W : Type} `{DbState W}.

(** Lines 103-112. *)
Definition get_slots (doctorId : string) : M W Response :=
  schedule <- findOne_schedule doctorId ;;
  match schedule with
  | None => ret (mkResponse 404 (message_body "No schedule found for this doctor"))
  | Some s =>
      ret (mkResponse 200
             (JObj [("availableSlots", JArr (map date_toJSON (DoctorSchedule.availableSlots s)))]))
  end.

(** The exception of line 124 when [findOne] returned [null]. *)
Definition null_schedule_error : js_error :=
  TypeError "Cannot read properties of null (reading 'availableSlots')".

(** Lines 128-136, once the checks have passed: assign the time and the
    status and save ([new Date(newSlot)] invalid makes the save reject
    with a cast error on [scheduledTime]), assign the filtered slots and
    save, answer. *)
Definition rebook_apply (appointment : Appointment.t) (doctorSchedule : DoctorSchedule.t)
           (newSlot : option json) : M W Response :=
  match new_Date newSlot with
  | None => throw (CastError "scheduledTime")
  | Some t =>
      let updated := Appointment.set_time_status (Some t) "scheduled" appointment in
      save_appointment (Appointment._id appointment)
                       (Appointment.set_time_status (Some t) "scheduled") ;;
      save_schedule (DoctorSchedule._id doctorSchedule)
        (DoctorSchedule.set_slots
           (filter_slots_ne (DoctorSchedule.availableSlots doctorSchedule) newSlot)) ;;
      ret (mkResponse 200 (JObj [("message", JStr "Appointment rescheduled successfully");
                                 ("appointment", appointment_to_json updated)]))
  end.

(** Lines 115-137. *)
Definition rebook (req_body : json) : M W Response :=
  let appointmentId := body_field req_body "appointmentId" in
  let newSlot := body_field req_body "newSlot" in
  appointment <- findById_appointment appointmentId ;;
  match appointment with
  | None => ret (mkResponse 400 (message_body "Invalid or non-missed appointment"))
  | Some a =>
      if negb (String.eqb (Appointment.status a) "missed")
      then ret (mkResponse 400 (message_body "Invalid or non-missed appointment"))
      else
        doctorSchedule <- findOne_schedule (Appointment.doctorId a) ;;
        match doctorSchedule with
        | None => throw null_schedule_error
        | Some s =>
            if negb (mongoose_includes (DoctorSchedule.availableSlots s) newSlot)
            then ret (mkResponse 400 (message_body "Slot not available"))
            else rebook_apply a s newSlot
        end
  end.

(** The query of lines 143-146. *)
Definition is_missed_of (patientId : string) (a : Appointment.t) : bool :=
  String.eqb (Appointment.patientId a) patientId && String.eqb (Appointment.status a) "missed".

End Handlers.

Section MissedQuery.
Context {W : Type} `{DbState W} `{DbConn W}.

(** Lines 140-157: the query over a connection that may be down, and the
    [catch] of lines 153-156, which answers 500 ([console.error] is not
    modelled). *)
Definition get_missed_appointments (patientId : string) : M W Response :=
  try_catch
    (missedAppointments <- find_appointments_conn (is_missed_of patientId) ;;
     if Nat.eqb (length missedAppointments) 0
     then ret (mkResponse 404 (message_body "No missed appointments found for this patient"))
     else ret (mkResponse 200 (JObj [("missedAppointments",
                                     JArr (map appointment_to_json missedAppointments))])))
    (fun error => ret (mkResponse 500 (message_body "Server error"))).

End MissedQuery.

(** [JSON.stringify] of a [{ status, message }] result. *)
Definition notify_result_json (r : NotifyResult) : json :=
  JObj [("status", JStr (result_status r)); ("message", JStr (result_message r))].

(** [JSON.stringify] of a native [Error]: its [message] and [stack] are
    own properties that are not enumerable, so it prints as [{}]. The only
    exception a gateway throws is such an [Error] (the twilio constructor's). *)
Definition error_json (e : js_error) : json := JObj [].

Section TestNotification.
Context {W : Type} `{Gateway W}.

(** Lines 160-175. *)
Definition test_notification (req_body : json) : M W Response :=
  let email := body_field req_body "email" in
  let phoneNumber := body_field req_body "phoneNumber" in
  let message := body_field req_body "message" in
  try_catch
    (emailResponse <- gw_sendEmail email "Test Subject" message ;;
     smsResponse <- gw_sendSMS phoneNumber message ;;
     ret (mkResponse 200 (JObj [("emailResponse", notify_result_json emailResponse);
                                ("smsResponse", notify_result_json smsResponse);
                                ("message", JStr "Test notifications sent")])))
    (fun error => ret (mkResponse 500 (JObj [("message", JStr "Error sending notifications");
                                             ("error", error_json error)]))).

End TestNotification.

(** ** The paths of [rebook] *)

(** Closing a path that answers 400, or throws, without a write. *)
Ltac unchanged_400 := split; [reflexivity | intros ? [= <-]; reflexivity].
Ltac unchanged_throw := split; [reflexivity | discriminate].

(** Split a goal on the outcome of [findById]: the cast's rejection, or
    the document the filter finds. *)
Ltac findById_cases :=
  match goal with
  | |- context [findById_appointment ?v ?w] =>
      let e := fresh "e" in let Hc := fresh "Hc" in let Hnf := fresh "Hnf" in
      destruct (findById_appointment_cases v w) as [(e & Hc & ->) | (Hnf & ->)]
  end.

Section RebookPaths.
Context {W : Type} `{DbState W}.

(** The request fields, as the handler destructures them. *)
Definition req_id (req_body : json) : option json := body_field req_body "appointmentId".
Definition req_slot (req_body : json) : option json := body_field req_body "newSlot".

Lemma save_appointment_schedules (i : string) (f : Appointment.t -> Appointment.t) (sc : list DoctorSchedule.t) :
  preserves (fun w : W => schedules (db_get w) = sc) (save_appointment i f).
Proof.
  intros w Hw. unfold save_appointment.
  destruct (update_first _ _ _ _); simpl; [rewrite db_get_put|]; exact Hw.
Qed.

(** The two saves of a successful rebooking leave the schedules as they
    were: the filter keeps every slot. *)
Lemma rebook_apply_schedules (a : Appointment.t) (s : DoctorSchedule.t) (v : option json)
      (sc : list DoctorSchedule.t) :
  NoDup (map DoctorSchedule._id sc) -> In s sc ->
  preserves (fun w : W => schedules (db_get w) = sc) (rebook_apply a s v).
Proof.
  intros Hnd Hin. unfold rebook_apply. destruct (new_Date v); [|apply preserves_throw].
  apply preserves_bind; [apply save_appointment_schedules|]. intros u.
  apply preserves_bind; [|intros u'; apply preserves_ret].
  intros w Hw. unfold save_schedule. rewrite Hw, filter_slots_ne_id.
  rewrite update_first_some; [| exact Hnd | apply in_map, Hin].
  simpl. rewrite db_get_put. simpl. apply update_where_self; auto using set_slots_same.
Qed.

(** When [includes] fails for every slot list, every path of the handler
    leaves the world unchanged and no path answers anything but 400. *)
Lemma rebook_no_match (req_body : json) (w : W) :
  (forall l, mongoose_includes l (req_slot req_body) = false) ->
  snd (rebook req_body w) = w /\
  (forall r, fst (rebook req_body w) = Ok r -> statusCode r = 400).
Proof.
  intros Hno. unfold rebook, bind. cbv beta zeta. findById_cases; simpl; [unchanged_throw|].
  destruct (find_by_cast _ _) as [a|]; simpl; [|unchanged_400].
  destruct (negb _); simpl; [unchanged_400|].
  destruct (find_schedule _ _) as [s|]; simpl; [|unchanged_throw].
  unfold req_slot in Hno. rewrite Hno. simpl. unchanged_400.
Qed.

(** The success path: both saves find their document. *)
Lemma rebook_apply_run (a : Appointment.t) (s : DoctorSchedule.t) (v : option json) (t : Z) (w : W) :
  db_wf (db_get w) -> In a (appointments (db_get w)) -> In s (schedules (db_get w)) ->
  new_Date v = Some t ->
  exists w', rebook_apply a s v w =
    (Ok (mkResponse 200 (JObj [("message", JStr "Appointment rescheduled successfully");
          ("appointment", appointment_to_json (Appointment.set_time_status (Some t) "scheduled" a))])), w') /\
    db_get w' = mkDb (update_where Appointment._id (Appointment._id a)
                        (Appointment.set_time_status (Some t) "scheduled") (appointments (db_get w)))
                     (schedules (db_get w)).
Proof.
  intros [Hna Hns] Ha Hs Ht. unfold rebook_apply. rewrite Ht. unfold bind, save_appointment.
  rewrite update_first_some by (auto using in_map). simpl.
  unfold save_schedule. rewrite db_get_put. simpl. rewrite filter_slots_ne_id.
  rewrite update_first_some by (auto using in_map). simpl.
  eexists. split; [reflexivity|].
  rewrite db_get_put, (update_where_self DoctorSchedule._id); auto using set_slots_same.
Qed.

Lemma find_by_id_some (d : Db) (i : string) (a : Appointment.t) :
  find_by_id d i = Some a -> In a (appointments d) /\ Appointment._id a = i.
Proof.
  intros Hf. apply find_first_In in Hf as [Hin Hi]. split; [exact Hin|].
  apply String.eqb_eq, Hi.
Qed.

Lemma find_by_cast_in (d : Db) (c : cast_result) (a : Appointment.t) :
  db_wf d -> find_by_cast d c = Some a -> In a (appointments d).
Proof. intros [Hnd _] Hf. exact (proj1 (find_by_cast_some d c a Hnd Hf)). Qed.

(** Every path of the handler but the success leaves the world as it was. *)
Lemma rebook_unchanged_or_success (req_body : json) (w : W) :
  db_wf (db_get w) ->
  snd (rebook req_body w) = w \/ exists r, fst (rebook req_body w) = Ok r /\ statusCode r = 200.
Proof.
  intros Hwf. unfold rebook, bind. cbv beta zeta. findById_cases; simpl; [left; reflexivity|].
  destruct (find_by_cast _ _) as [a|] eqn:Ha; simpl; [|left; reflexivity].
  destruct (negb _); simpl; [left; reflexivity|].
  destruct (find_schedule _ _) as [s|] eqn:Hs; simpl; [|left; reflexivity].
  destruct (negb _); simpl; [left; reflexivity|].
  destruct (new_Date (body_field req_body "newSlot")) as [t|] eqn:Ht;
    [|unfold rebook_apply; rewrite Ht; left; reflexivity].
  apply (find_by_cast_in _ _ _ Hwf) in Ha as Hain.
  destruct (rebook_apply_run a s _ t w Hwf Hain (proj1 (find_first_In _ _ _ Hs)) Ht) as (w1 & -> & _).
  right. eexists. split; reflexivity.
Qed.

(** What a successful request wrote: the appointment its filter found,
    ['missed'] when read, is ['scheduled'] at [new Date(newSlot)]. *)
Lemma rebook_success_path (req_body : json) (w w' : W) (r : Response) :
  db_wf (db_get w) -> rebook req_body w = (Ok r, w') -> statusCode r = 200 ->
  exists a t, find_by_cast (db_get w) (cast_object_id (req_id req_body)) = Some a /\
    Appointment.status a = "missed" /\ new_Date (req_slot req_body) = Some t /\
    db_get w' = mkDb (update_where Appointment._id (Appointment._id a)
                        (Appointment.set_time_status (Some t) "scheduled") (appointments (db_get w)))
                     (schedules (db_get w)).
Proof.
  intros Hwf. unfold rebook, bind, req_id, req_slot. cbv beta zeta. findById_cases; simpl; [discriminate|].
  destruct (find_by_cast _ _) as [a|] eqn:Ha; simpl; [|intros [= <- _]; discriminate].
  destruct (String.eqb_spec (Appointment.status a) "missed") as [Hm|]; simpl;
    [|intros [= <- _]; discriminate].
  destruct (find_schedule _ _) as [s|] eqn:Hs; simpl; [|discriminate].
  destruct (mongoose_includes _ _); simpl; [|intros [= <- _]; discriminate].
  destruct (new_Date (body_field req_body "newSlot")) as [t|] eqn:Ht;
    [|unfold rebook_apply; rewrite Ht; discriminate].
  pose proof (find_by_cast_in _ _ _ Hwf Ha) as Hain.
  destruct (rebook_apply_run a s _ t w Hwf Hain (proj1 (find_first_In _ _ _ Hs)) Ht) as (w1 & -> & Hdb).
  intros [= _ <-] _. exists a, t. auto.
Qed.

(** A request with the [toString] text of a valid offered slot, for a
    ['missed'] appointment whose doctor has a schedule, books it. *)
Lemma rebook_toString_run (req_body : json) (w : W) (a : Appointment.t)
        (s : DoctorSchedule.t) (t0 : Z) :
  db_wf (db_get w) ->
  cast_object_id (req_id req_body) = CastId (Appointment._id a) ->
  find_by_id (db_get w) (Appointment._id a) = Some a ->
  Appointment.status a = "missed" ->
  find_schedule (db_get w) (Appointment.doctorId a) = Some s ->
  In t0 (DoctorSchedule.availableSlots s) -> time_valid t0 = true ->
  req_slot req_body = Some (JStr (date_toString t0)) ->
  exists w', rebook req_body w =
    (Ok (mkResponse 200 (JObj [("message", JStr "Appointment rescheduled successfully");
          ("appointment", appointment_to_json
             (Appointment.set_time_status (Some (t0 - msFromTime t0)) "scheduled" a))])), w') /\
    db_get w' = mkDb (update_where Appointment._id (Appointment._id a)
                        (Appointment.set_time_status (Some (t0 - msFromTime t0)) "scheduled")
                        (appointments (db_get w)))
                     (schedules (db_get w)).
Proof.
  intros Hwf Hc Ha Hm Hs Ht0 Hv Hslot. unfold rebook, bind, findById_appointment.
  unfold req_id in Hc. unfold req_slot in Hslot.
  rewrite Hc. simpl. rewrite Ha. simpl. rewrite Hm. simpl. rewrite Hs.
  replace (mongoose_includes _ _) with true
    by (symmetry; apply mongoose_includes_true; rewrite Hslot; eauto).
  apply (rebook_apply_run a s _ _ w Hwf (proj1 (find_by_id_some _ _ _ Ha))
           (proj1 (find_first_In _ _ _ Hs))).
  rewrite Hslot. simpl. unfold date_parse. rewrite parse_iso_toString.
  apply parse_date_string_toString, Hv.
Qed.

(** After a successful rebooking of [i], the collection keeps its keys, and
    every other document and every schedule is found as before. *)
Lemma rebook_write_wf (d : Db) (i : string) (o : option Z) (st : string) :
  db_wf d -> db_wf (mkDb (update_where Appointment._id i (Appointment.set_time_status o st) (appointments d))
                         (schedules d)).
Proof.
  intros [Ha Hs]. split; [simpl; rewrite update_where_keys; [exact Ha | reflexivity] | exact Hs].
Qed.

Lemma rebook_write_other (d : Db) (i j : string) (o : option Z) (st : string) :
  i <> j ->
  find_by_id (mkDb (update_where Appointment._id i (Appointment.set_time_status o st) (appointments d))
                   (schedules d)) j = find_by_id d j.
Proof. intros Hij. apply find_first_update_where_other; [reflexivity | exact Hij]. Qed.

Lemma rebook_write_self (d : Db) (i : string) (o : option Z) (st : string) (a : Appointment.t) :
  find_by_id d i = Some a ->
  find_by_id (mkDb (update_where Appointment._id i (Appointment.set_time_status o st) (appointments d))
                   (schedules d)) i = Some (Appointment.set_time_status o st a).
Proof. apply find_first_update_where. reflexivity. Qed.

(** The handler reads only the two fields: two bodies with the same
    [findById] outcome and the same [newSlot] are handled alike. *)
Lemma rebook_congr (b1 b2 : json) (w : W) :
  findById_appointment (req_id b1) w = findById_appointment (req_id b2) w ->
  req_slot b1 = req_slot b2 -> rebook b1 w = rebook b2 w.
Proof.
  unfold req_id, req_slot. intros Hf Hs. unfold rebook, bind. cbv beta zeta.
  rewrite Hf, Hs. reflexivity.
Qed.

End RebookPaths.

(** The body [b] with the field [k] set to [v] (appended, so the value
    [JSON.parse] keeps). *)
Definition set_field (b : json) (k : string) (v : json) : json :=
  match b with
  | JObj fs => JObj (fs ++ [(k, v)])
  | _ => b
  end.

Lemma body_field_set_same (b : json) (k : string) (v : json) :
  (exists fs, b = JObj fs) -> body_field (set_field b k v) k = Some v.
Proof.
  intros [fs ->]. unfold body_field, set_field. rewrite rev_app_distr. simpl.
  rewrite String.eqb_refl. reflexivity.
Qed.

Lemma body_field_set_other (b : json) (k k' : string) (v : json) :
  k' <> k -> body_field (set_field b k v) k' = body_field b k'.
Proof.
  intros Hne. destruct b; try reflexivity. unfold body_field, set_field. rewrite rev_app_distr. simpl.
  destruct (String.eqb_spec k k'); [congruence | reflexivity].
Qed.

(** ** Theorems of the rebooking handler *)

Section RebookClaims.
Context {W : Type} `{DbState W}.

(** C2. Whatever the request, [POST /api/rebook] never changes a
    schedule: the [filter] of line 133 compares each stored [Date] with the
    request's value by [!==], which never holds between a date and a JSON
    value, so the booked slot stays offered. *)
Theorem rebook_keeps_schedules (req_body : json) (w : W) :
  db_wf (db_get w) -> schedules (db_get (snd (rebook req_body w))) = schedules (db_get w).
Proof.
  intros [_ Hnd]. unfold rebook, bind. cbv beta zeta. findById_cases; simpl; [reflexivity|].
  destruct (find_by_cast _ _) as [a|]; simpl; try reflexivity.
  destruct (negb _); simpl; try reflexivity.
  destruct (find_schedule _ _) as [s|] eqn:Hs; simpl; try reflexivity.
  destruct (negb _); simpl; try reflexivity.
  apply (rebook_apply_schedules a s _ _ Hnd); [apply (find_first_In _ _ _ Hs) | reflexivity].
Qed.

End RebookClaims.

Section RebookClaims2.
Context {W : Type} `{DbState W}.

(** C3. Every rebooking that answers 200 was made on the ['missed']
    appointment that the filter of its [appointmentId] finds (whatever
    that value: an ObjectId text, an array, an object of query operators),
    whose doctor has a schedule, with a [newSlot] that is the
    [Date.prototype.toString] text of one of the offered slots; afterwards
    that appointment, and nothing else, is ['scheduled'] at [new Date(newSlot)],
    and every schedule is as it was, the booked slot included. *)
Theorem rebook_success_inv (req_body : json) (w w' : W) (r : Response) :
  db_wf (db_get w) -> rebook req_body w = (Ok r, w') -> statusCode r = 200 ->
  exists a s t0 t,
    find_by_cast (db_get w) (cast_object_id (req_id req_body)) = Some a /\
    In a (appointments (db_get w)) /\ Appointment.status a = "missed" /\
    find_schedule (db_get w) (Appointment.doctorId a) = Some s /\
    In t0 (DoctorSchedule.availableSlots s) /\
    req_slot req_body = Some (JStr (date_toString t0)) /\
    new_Date (req_slot req_body) = Some t /\
    db_get w' = mkDb (update_where Appointment._id (Appointment._id a)
                        (Appointment.set_time_status (Some t) "scheduled") (appointments (db_get w)))
                     (schedules (db_get w)).
Proof.
  intros Hwf. unfold rebook, bind, req_id, req_slot. cbv beta zeta. findById_cases; simpl; [discriminate|].
  destruct (find_by_cast _ _) as [a|] eqn:Ha; simpl; [|intros [= <- _]; discriminate].
  destruct (String.eqb_spec (Appointment.status a) "missed") as [Hm|]; simpl; [|intros [= <- _]; discriminate].
  destruct (find_schedule _ _) as [s|] eqn:Hs; simpl; [|discriminate].
  destruct (mongoose_includes _ _) eqn:Hinc; simpl; [|intros [= <- _]; discriminate].
  apply mongoose_includes_true in Hinc as (t0 & Ht0 & Hv).
  pose proof (find_by_cast_in _ _ _ Hwf Ha) as Hain.
  destruct (new_Date (body_field req_body "newSlot")) as [t|] eqn:Ht;
    [|unfold rebook_apply; rewrite Ht; discriminate].
  destruct (rebook_apply_run a s _ t w Hwf Hain (proj1 (find_first_In _ _ _ Hs)) Ht) as (w1 & Hrun & Hdb).
  rewrite Hrun. intros [= <- <-] _. exists a, s, t0, t. repeat split; auto.
Qed.

(** C4. A slot in the form [GET /api/slots] serves it (the JSON of a
    [Date], that is its [toISOString]) is never accepted by
    [POST /api/rebook]: for any appointment, the request changes nothing
    and, when it answers, answers 400. The client of src/frontend posts
    exactly these values. *)
Theorem rebook_rejects_served_slot (doctorId : string) (req_body : json) (w : W)
        (vs : list json) (v : json) :
  fst (get_slots doctorId w) = Ok (mkResponse 200 (JObj [("availableSlots", JArr vs)])) ->
  In v vs -> req_slot req_body = Some v ->
  snd (rebook req_body w) = w /\ (forall r, fst (rebook req_body w) = Ok r -> statusCode r = 400).
Proof.
  unfold get_slots, bind. rewrite findOne_schedule_read.
  destruct (find_schedule _ _) as [s|]; simpl; [|discriminate].
  intros [= <-] Hv Hslot. apply rebook_no_match. intros l. rewrite Hslot.
  apply in_map_iff in Hv as (t0 & <- & _). unfold date_toJSON.
  destruct (date_toISOString t0) as [iso|] eqn:E; [exact (mongoose_includes_iso l t0 iso E)|].
  apply existsb_false_forall. reflexivity.
Qed.

(** C5. When the appointment is ['missed'] but no schedule has its
    doctor, line 124 reads [availableSlots] of [null]: the handler throws a
    [TypeError] instead of answering, and nothing is written. *)
Theorem rebook_missing_schedule (req_body : json) (w : W) (a : Appointment.t) :
  cast_object_id (req_id req_body) = CastId (Appointment._id a) ->
  find_by_id (db_get w) (Appointment._id a) = Some a ->
  Appointment.status a = "missed" ->
  find_schedule (db_get w) (Appointment.doctorId a) = None ->
  rebook req_body w = (Throw null_schedule_error, w).
Proof.
  intros Hc Ha Hm Hs. unfold rebook, bind, findById_appointment. unfold req_id in Hc.
  rewrite Hc. simpl. rewrite Ha. simpl. rewrite Hm. simpl. rewrite Hs. reflexivity.
Qed.

(** C6. A request whose [appointmentId] finds no ['missed'] appointment
    is refused on every path and writes nothing: a value the cast of
    [findById] refuses (a text that is not 24 hexadecimal digits, a number,
    an object with neither operators nor an [_id], an unknown operator)
    makes the query reject, so the handler throws instead of answering;
    any other value, when its filter finds no document or one that is not
    ['missed'], is answered 400. *)
Theorem rebook_invalid_appointment (req_body : json) (w : W) :
  (forall a, find_by_cast (db_get w) (cast_object_id (req_id req_body)) = Some a ->
             Appointment.status a <> "missed") ->
  rebook req_body w =
    match cast_object_id (req_id req_body) with
    | CastFailed e => (Throw e, w)
    | _ => (Ok (mkResponse 400 (message_body "Invalid or non-missed appointment")), w)
    end.
Proof.
  unfold req_id. intros Hnm. unfold rebook, bind. cbv beta zeta. findById_cases; simpl.
  - rewrite Hc. reflexivity.
  - destruct (find_by_cast _ _) as [a|] eqn:Ha; simpl.
    + destruct (String.eqb_spec (Appointment.status a) "missed") as [Hm|]; [exfalso; exact (Hnm a eq_refl Hm)|].
      destruct (cast_object_id _); [reflexivity .. | exfalso; eapply Hnf; reflexivity].
    + destruct (cast_object_id _); [reflexivity .. | exfalso; eapply Hnf; reflexivity].
Qed.



(** C7. When the appointment is ['missed'] and its doctor has a schedule
    but [newSlot] is not the [toString] text of an offered slot, the
    handler answers 400 ["Slot not available"] and writes nothing. *)
Theorem rebook_slot_not_offered (req_body : json) (w : W) (a : Appointment.t) (s : DoctorSchedule.t) :
  cast_object_id (req_id req_body) = CastId (Appointment._id a) ->
  find_by_id (db_get w) (Appointment._id a) = Some a ->
  Appointment.status a = "missed" ->
  find_schedule (db_get w) (Appointment.doctorId a) = Some s ->
  (forall t0, In t0 (DoctorSchedule.availableSlots s) ->
              req_slot req_body <> Some (JStr (date_toString t0))) ->
  rebook req_body w = (Ok (mkResponse 400 (message_body "Slot not available")), w).
Proof.
  intros Hc Ha Hm Hs Hno. unfold rebook, bind, findById_appointment. unfold req_id in Hc.
  rewrite Hc. simpl. rewrite Ha. simpl. rewrite Hm. simpl. rewrite Hs.
  destruct (mongoose_includes _ _) eqn:Hinc; [|reflexivity].
  apply mongoose_includes_true in Hinc as (t0 & Ht0 & Hv). exfalso. exact (Hno t0 Ht0 Hv).
Qed.

(** C21. Conversely, a request that names a ['missed'] appointment whose
    doctor has a schedule, with the [toString] text of one of its valid
    slots, always books: the handler answers 200 with the updated
    appointment, which is ['scheduled'] at that slot without its
    milliseconds ([toString] does not print them); nothing else changes. *)
Theorem rebook_accepts_toString (req_body : json) (w : W) (a : Appointment.t)
        (s : DoctorSchedule.t) (t0 : Z) :
  db_wf (db_get w) ->
  cast_object_id (req_id req_body) = CastId (Appointment._id a) ->
  find_by_id (db_get w) (Appointment._id a) = Some a ->
  Appointment.status a = "missed" ->
  find_schedule (db_get w) (Appointment.doctorId a) = Some s ->
  In t0 (DoctorSchedule.availableSlots s) -> time_valid t0 = true ->
  req_slot req_body = Some (JStr (date_toString t0)) ->
  exists w', rebook req_body w =
    (Ok (mkResponse 200 (JObj [("message", JStr "Appointment rescheduled successfully");
          ("appointment", appointment_to_json
             (Appointment.set_time_status (Some (t0 - msFromTime t0)) "scheduled" a))])), w') /\
    db_get w' = mkDb (update_where Appointment._id (Appointment._id a)
                        (Appointment.set_time_status (Some (t0 - msFromTime t0)) "scheduled")
                        (appointments (db_get w)))
                     (schedules (db_get w)).
Proof.
  apply rebook_toString_run.
Qed.

(** C15. Double booking: two distinct ['missed'] appointments of the same
    doctor, each rebooked, one request after the other, with the
    [toString] text of the same valid offered slot, are both accepted with
    200; both end ['scheduled'] at that instant, and the doctor's schedule
    is the one read before, still offering the slot: lines 133-134 remove
    nothing, and line 126 checks neither the slot nor another booking. *)
Theorem rebook_double_booking_any (b1 b2 : json) (w : W) (a b : Appointment.t)
        (s : DoctorSchedule.t) (t0 : Z) :
  db_wf (db_get w) -> Appointment._id a <> Appointment._id b ->
  cast_object_id (req_id b1) = CastId (Appointment._id a) ->
  cast_object_id (req_id b2) = CastId (Appointment._id b) ->
  find_by_id (db_get w) (Appointment._id a) = Some a ->
  find_by_id (db_get w) (Appointment._id b) = Some b ->
  Appointment.status a = "missed" -> Appointment.status b = "missed" ->
  Appointment.doctorId b = Appointment.doctorId a ->
  find_schedule (db_get w) (Appointment.doctorId a) = Some s ->
  In t0 (DoctorSchedule.availableSlots s) -> time_valid t0 = true ->
  req_slot b1 = Some (JStr (date_toString t0)) -> req_slot b2 = Some (JStr (date_toString t0)) ->
  exists r1 r2 w1 w2, rebook b1 w = (Ok r1, w1) /\ rebook b2 w1 = (Ok r2, w2) /\
    statusCode r1 = 200 /\ statusCode r2 = 200 /\
    find_by_id (db_get w2) (Appointment._id a)
      = Some (Appointment.set_time_status (Some (t0 - msFromTime t0)) "scheduled" a) /\
    find_by_id (db_get w2) (Appointment._id b)
      = Some (Appointment.set_time_status (Some (t0 - msFromTime t0)) "scheduled" b) /\
    find_schedule (db_get w2) (Appointment.doctorId a) = Some s.
Proof.
  intros Hwf Hab Hc1 Hc2 Ha Hb Hma Hmb Hdoc Hs Ht0 Hv Hs1 Hs2.
  destruct (rebook_toString_run b1 w a s t0 Hwf Hc1 Ha Hma Hs Ht0 Hv Hs1) as (w1 & E1 & D1).
  assert (Hb1 : find_by_id (db_get w1) (Appointment._id b) = Some b)
    by (rewrite D1, rebook_write_other by exact Hab; exact Hb).
  assert (Hs' : find_schedule (db_get w1) (Appointment.doctorId b) = Some s) by (rewrite D1, Hdoc; exact Hs).
  assert (Hwf1 : db_wf (db_get w1)) by (rewrite D1; apply rebook_write_wf, Hwf).
  destruct (rebook_toString_run b2 w1 b s t0 Hwf1 Hc2 Hb1 Hmb Hs' Ht0 Hv Hs2) as (w2 & E2 & D2).
  do 4 eexists. split; [exact E1|]. split; [exact E2|]. do 2 (split; [reflexivity|]).
  rewrite D2. split; [|split; [apply rebook_write_self, Hb1 | rewrite D1; exact Hs]].
  rewrite rebook_write_other by (intros E; apply Hab; symmetry; exact E).
  rewrite D1. apply rebook_write_self, Ha.
Qed.

(** C8. The handler takes [appointmentId] as it comes: an object of
    query operators or an array is applied as a filter on [_id], and the
    request then does exactly what the request naming, by its text, the
    appointment with the least [_id] among those the filter matches would
    do. So [{"$ne": null}] rebooks the first appointment of the collection
    by [_id] when it is ['missed'], though the client named none. *)
Theorem rebook_operator_id (req_body : json) (w : W) (cs : list id_cond) (a : Appointment.t) :
  db_wf (db_get w) ->
  cast_object_id (req_id req_body) = CastQuery cs ->
  find_by_query (db_get w) cs = Some a ->
  hex24 (Appointment._id a) = Some (Appointment._id a) ->
  rebook req_body w = rebook (set_field req_body "appointmentId" (JStr (Appointment._id a))) w.
Proof.
  intros [Hnd _] Hc Hq Hhex.
  assert (Hobj : exists fs, req_body = JObj fs).
  { unfold req_id in Hc. destruct req_body; try discriminate Hc. eauto. }
  apply rebook_congr; [|unfold req_slot; apply eq_sym, body_field_set_other; discriminate].
  unfold findById_appointment, req_id. unfold req_id in Hc. rewrite Hc, body_field_set_same by exact Hobj.
  change (cast_object_id (Some (JStr (Appointment._id a))))
    with (match option_map Oid (hex24 (Appointment._id a)) with
          | Some c => of_oid c | None => CastFailed id_cast_error end).
  rewrite Hhex. simpl. rewrite Hq, find_by_id_In; [reflexivity | exact Hnd |].
  apply (find_by_query_some _ _ _ Hq).
Qed.

End RebookClaims2.

(** ** The test-notification handler *)

Section TestNotificationClaims.
Context {W : Type} `{Gateway W}.

(** The providers never touch the database, whatever they answer. *)
Lemma test_notification_db (req_body : json) (w : W) :
  db_get (snd (test_notification req_body w)) = db_get w.
Proof.
  unfold test_notification, try_catch, bind, ret.
  pose proof (gw_sendEmail_db (body_field req_body "email") "Test Subject"
                (body_field req_body "message") (db_get w) w eq_refl) as He.
  destruct (gw_sendEmail _ _ _ w) as [[r1|e] w1]; simpl in He |- *; [|exact He].
  pose proof (gw_sendSMS_db (body_field req_body "phoneNumber") (body_field req_body "message")
                (db_get w1) w1 eq_refl) as Hs.
  destruct (gw_sendSMS _ _ w1) as [[r2|e] w2]; simpl in Hs |- *; congruence.
Qed.

(** C24. Whatever the gateway does, [POST /api/test-notification] answers,
    200 or 500, and leaves the database as it was: its [try] covers both
    sends, the [twilio(sid, token)] constructor included, whose exception
    escapes the timer callback (C13). *)
Theorem test_notification_answers (req_body : json) (w : W) :
  (exists r, fst (test_notification req_body w) = Ok r /\ (statusCode r = 200 \/ statusCode r = 500)) /\
  db_get (snd (test_notification req_body w)) = db_get w.
Proof.
  split; [|apply test_notification_db].
  unfold test_notification, try_catch, bind, ret.
  destruct (gw_sendEmail _ _ _ w) as [[r1|e] w1]; [|eauto].
  destruct (gw_sendSMS _ _ w1) as [[r2|e] w2]; eauto.
Qed.

End TestNotificationClaims.

Section MissedQueryClaims.
Context {W : Type} `{DbState W} `{DbConn W}.

Lemma get_missed_appointments_run (patientId : string) (w : W) :
  get_missed_appointments patientId w =
    (Ok (if db_connected w then
           match List.filter (is_missed_of patientId) (appointments (db_get w)) with
           | [] => mkResponse 404 (message_body "No missed appointments found for this patient")
           | l => mkResponse 200 (JObj [("missedAppointments", JArr (map appointment_to_json l))])
           end
         else mkResponse 500 (message_body "Server error")), w).
Proof.
  unfold get_missed_appointments, try_catch, bind, find_appointments_conn.
  destruct (db_connected w); [|reflexivity].
  rewrite find_appointments_read. destruct (List.filter _ _); reflexivity.
Qed.

(** C14. [GET /api/missedAppointments/:patientId] always answers and never
    writes: 500 ["Server error"] exactly when the query rejects on a lost
    connection; otherwise 404 when no appointment of the patient is
    ['missed'], and 200 with all of them, in collection order, when one is. *)
Theorem get_missed_appointments_answers (patientId : string) (w : W) :
  exists r, get_missed_appointments patientId w = (Ok r, w) /\
    (db_connected w = false -> r = mkResponse 500 (message_body "Server error")) /\
    (db_connected w = true ->
       (forall a, In a (appointments (db_get w)) ->
                  Appointment.patientId a = patientId -> Appointment.status a <> "missed") ->
       r = mkResponse 404 (message_body "No missed appointments found for this patient")) /\
    (db_connected w = true ->
       forall a, In a (appointments (db_get w)) ->
                 Appointment.patientId a = patientId -> Appointment.status a = "missed" ->
       r = mkResponse 200 (JObj [("missedAppointments", JArr (map appointment_to_json
                  (List.filter (is_missed_of patientId) (appointments (db_get w)))))])).
Proof.
  rewrite get_missed_appointments_run. eexists. split; [reflexivity|].
  split; [intros ->; reflexivity|]. split; intros ->.
  - intros Hno. destruct (List.filter _ _) as [|x l] eqn:E; [reflexivity|].
    assert (Hx : In x (List.filter (is_missed_of patientId) (appointments (db_get w))))
      by (rewrite E; left; reflexivity).
    apply filter_In in Hx as [Hx Hq]. unfold is_missed_of in Hq.
    apply andb_prop in Hq as [Hp Hm]. apply String.eqb_eq in Hp, Hm.
    exfalso. exact (Hno x Hx Hp Hm).
  - intros a Ha Hp Hm. destruct (List.filter _ _) as [|x l] eqn:E; [|reflexivity].
    assert (Hin : In a (List.filter (is_missed_of patientId) (appointments (db_get w)))).
    { apply filter_In. split; [exact Ha|]. unfold is_missed_of. rewrite Hp, Hm, !String.eqb_refl. reflexivity. }
    rewrite E in Hin. contradiction.
Qed.

End MissedQueryClaims.

(** C25. In the concrete world the handler hands the request's [email],
    [phoneNumber] and [message] values to the providers and reports their
    answers; when the twilio client cannot be built, the e-mail has already
    been sent but the answer is the 500 error, with the error printed as
    [{}] and the e-mail's result lost. *)
Theorem test_notification_world (req_body : json) (w : World) :
  let email := body_field req_body "email" in
  let phoneNumber := body_field req_body "phoneNumber" in
  let message := body_field req_body "message" in
  let w1 := record_attempt w EmailChannel email (Some "Test Subject") message in
  test_notification req_body w =
  if w_sms_client_ok w
  then (Ok (mkResponse 200 (JObj [("emailResponse", notify_result_json (email_result (next_outcome w)));
                                  ("smsResponse", notify_result_json (sms_result (next_outcome w1)));
                                  ("message", JStr "Test notifications sent")])),
        record_attempt w1 SmsChannel phoneNumber None message)
  else (Ok (mkResponse 500 (JObj [("message", JStr "Error sending notifications"); ("error", JObj [])])), w1).
Proof.
  intros email phoneNumber message w1. unfold test_notification, try_catch, bind, ret.
  change (@gw_sendEmail World _ _) with sendEmail. change (@gw_sendSMS World _ _) with sendSMS.
  rewrite sendEmail_eq. destruct (w_sms_client_ok w) eqn:Hok;
    [rewrite sendSMS_eq by exact Hok | rewrite sendSMS_no_client by exact Hok]; reflexivity.
Qed.

Section Sequential.
Context {W : Type} `{DbState W}.

(** C26. When requests run one after the other (as Api models them), a
    ['missed'] appointment is booked at most once: after a request for it has answered 200, a
    request naming the same appointment is refused with 400 and writes
    nothing. *)
Theorem sequential_rebook_once (b1 b2 : json) (w w1 : W) (r1 : Response) :
  db_wf (db_get w) -> rebook b1 w = (Ok r1, w1) -> statusCode r1 = 200 ->
  cast_object_id (req_id b2) = cast_object_id (req_id b1) ->
  rebook b2 w1 = (Ok (mkResponse 400 (message_body "Invalid or non-missed appointment")), w1).
Proof.
  intros Hwf E H200 Hc.
  destruct (rebook_success_path b1 w w1 r1 Hwf E H200) as (a & t & Ha & Hm & _ & Hdb).
  unfold req_id in Hc, Ha. unfold rebook, bind. cbv beta zeta. findById_cases; simpl.
  - rewrite Hc in Hc0. rewrite Hc0 in Ha. discriminate Ha.
  - rewrite Hc, Hdb, find_by_cast_update, Ha by reflexivity. simpl.
    rewrite String.eqb_refl. reflexivity.
Qed.

End Sequential.

(** ** Witnesses in the concrete world of [Reconcile]: A has been marked
    ['missed'], doc1 offers [T1] and [T2]. *)

Definition ex_missed_world : World :=
  mkWorld (mkDb [Appointment.set_status "missed" apptA; apptB] [sched1]) [] (fun _ => true) true true.

Definition rebook_request (id : string) (slot : json) : json :=
  JObj [("appointmentId", JStr id); ("newSlot", slot)].

(** A body whose [appointmentId] is the operator [{"$ne": null}]. *)
Definition body_ne : json :=
  JObj [("appointmentId", JObj [("$ne", JNull)]); ("newSlot", JStr (date_toString T1))].

Lemma rebook_operator_id_witness :
  rebook body_ne ex_missed_world
  = rebook (set_field body_ne "appointmentId"
              (JStr (Appointment._id (Appointment.set_status "missed" apptA)))) ex_missed_world /\
  option_map statusCode (match fst (rebook body_ne ex_missed_world) with Ok r => Some r | Throw _ => None end)
  = Some 200.
Proof.
  split; [|vm_compute; reflexivity].
  apply (rebook_operator_id body_ne ex_missed_world [CNe OidNull]);
    [solve_db_wf | vm_compute; reflexivity .. ].
Defined.

(** The body the client would have to send: the [toString] text of T1. *)
Definition body_toString : json := rebook_request "65a000000000000000000001" (JStr (date_toString T1)).

Definition ex_rebook_response : Response :=
  match fst (rebook body_toString ex_missed_world) with
  | Ok r => r
  | Throw _ => mkResponse 0 JNull
  end.

Lemma rebook_keeps_schedules_witness :
  db_wf (db_get ex_missed_world) /\
  schedules (db_get (snd (rebook body_toString ex_missed_world))) = schedules (db_get ex_missed_world).
Proof.
  assert (Hwf : db_wf (db_get ex_missed_world)) by solve_db_wf.
  split; [exact Hwf | exact (rebook_keeps_schedules body_toString ex_missed_world Hwf)].
Defined.

Lemma rebook_success_inv_witness :
  db_wf (db_get ex_missed_world) /\
  rebook body_toString ex_missed_world = (Ok ex_rebook_response, snd (rebook body_toString ex_missed_world)) /\
  statusCode ex_rebook_response = 200 /\
  exists a s t0 t,
    find_by_cast (db_get ex_missed_world) (cast_object_id (req_id body_toString)) = Some a /\
    In a (appointments (db_get ex_missed_world)) /\ Appointment.status a = "missed" /\
    find_schedule (db_get ex_missed_world) (Appointment.doctorId a) = Some s /\
    In t0 (DoctorSchedule.availableSlots s) /\
    req_slot body_toString = Some (JStr (date_toString t0)) /\
    new_Date (req_slot body_toString) = Some t /\
    db_get (snd (rebook body_toString ex_missed_world)) =
      mkDb (update_where Appointment._id (Appointment._id a)
              (Appointment.set_time_status (Some t) "scheduled") (appointments (db_get ex_missed_world)))
           (schedules (db_get ex_missed_world)).
Proof.
  assert (Hwf : db_wf (db_get ex_missed_world)) by solve_db_wf.
  assert (Hrun : rebook body_toString ex_missed_world
                 = (Ok ex_rebook_response, snd (rebook body_toString ex_missed_world)))
    by (vm_compute; reflexivity).
  assert (H200 : statusCode ex_rebook_response = 200) by (vm_compute; reflexivity).
  split; [exact Hwf | split; [exact Hrun | split; [exact H200|]]].
  exact (rebook_success_inv body_toString ex_missed_world _ _ Hwf Hrun H200).
Defined.

(** The body the client of src/frontend sends: the ISO text of T1. *)
Definition body_iso : json := rebook_request "65a000000000000000000001" (date_toJSON T1).

Lemma rebook_rejects_served_slot_witness :
  fst (get_slots "doc1" ex_missed_world)
    = Ok (mkResponse 200 (JObj [("availableSlots", JArr (map date_toJSON [T1; T2]))])) /\
  In (date_toJSON T1) (map date_toJSON [T1; T2]) /\
  req_slot body_iso = Some (date_toJSON T1) /\
  snd (rebook body_iso ex_missed_world) = ex_missed_world /\
  (forall r, fst (rebook body_iso ex_missed_world) = Ok r -> statusCode r = 400).
Proof.
  assert (Hs : fst (get_slots "doc1" ex_missed_world)
               = Ok (mkResponse 200 (JObj [("availableSlots", JArr (map date_toJSON [T1; T2]))])))
    by reflexivity.
  assert (Hin : In (date_toJSON T1) (map date_toJSON [T1; T2])) by (left; reflexivity).
  assert (Hv : req_slot body_iso = Some (date_toJSON T1)) by reflexivity.
  split; [exact Hs | split; [exact Hin | split; [exact Hv|]]].
  exact (rebook_rejects_served_slot "doc1" body_iso ex_missed_world _ _ Hs Hin Hv).
Defined.

(** A missed appointment of a doctor without schedule. *)
Definition apptD : Appointment.t :=
  Appointment.mk "65a000000000000000000004" "p4" "doc9" (Some T0) "missed" false.
Definition ex_noschedule_world : World :=
  mkWorld (mkDb [apptD] [sched1]) [] (fun _ => true) true true.

Lemma rebook_missing_schedule_witness :
  cast_object_id (req_id (rebook_request "65a000000000000000000004" (JStr (date_toString T1))))
    = CastId (Appointment._id apptD) /\
  find_by_id (db_get ex_noschedule_world) (Appointment._id apptD) = Some apptD /\
  Appointment.status apptD = "missed" /\
  find_schedule (db_get ex_noschedule_world) (Appointment.doctorId apptD) = None /\
  rebook (rebook_request "65a000000000000000000004" (JStr (date_toString T1))) ex_noschedule_world
    = (Throw null_schedule_error, ex_noschedule_world).
Proof.
  assert (Hc : cast_object_id (req_id (rebook_request "65a000000000000000000004" (JStr (date_toString T1))))
               = CastId (Appointment._id apptD)) by (vm_compute; reflexivity).
  assert (Ha : find_by_id (db_get ex_noschedule_world) (Appointment._id apptD) = Some apptD)
    by (vm_compute; reflexivity).
  assert (Hm : Appointment.status apptD = "missed") by reflexivity.
  assert (Hs : find_schedule (db_get ex_noschedule_world) (Appointment.doctorId apptD) = None)
    by (vm_compute; reflexivity).
  split; [exact Hc | split; [exact Ha | split; [exact Hm | split; [exact Hs|]]]].
  exact (rebook_missing_schedule _ ex_noschedule_world apptD Hc Ha Hm Hs).
Defined.

(** Rebooking B, which is still ['scheduled']. *)
Definition body_B : json := rebook_request "65a000000000000000000002" (JStr (date_toString T1)).

(** B named by the query operator [$in] instead of its text. *)
Definition body_B_in : json :=
  JObj [("appointmentId", JObj [("$in", JArr [JStr "65a000000000000000000002"])]);
        ("newSlot", JStr (date_toString T1))].

Ltac not_missed_found := intros ? Ha; vm_compute in Ha; first [discriminate Ha | injection Ha as <-; vm_compute; discriminate].

Lemma rebook_invalid_appointment_witness :
  rebook body_B ex_missed_world
    = (Ok (mkResponse 400 (message_body "Invalid or non-missed appointment")), ex_missed_world) /\
  rebook body_B_in ex_missed_world
    = (Ok (mkResponse 400 (message_body "Invalid or non-missed appointment")), ex_missed_world) /\
  rebook (rebook_request "42" (JStr "")) ex_missed_world = (Throw (CastError "_id"), ex_missed_world).
Proof.
  split; [|split].
  - rewrite (rebook_invalid_appointment body_B ex_missed_world); [vm_compute; reflexivity | not_missed_found].
  - rewrite (rebook_invalid_appointment body_B_in ex_missed_world); [vm_compute; reflexivity | not_missed_found].
  - rewrite (rebook_invalid_appointment (rebook_request "42" (JStr "")) ex_missed_world);
      [vm_compute; reflexivity | not_missed_found].
Defined.

(** Rebooking A with a number: not the text of any slot. *)
Definition body_num : json := rebook_request "65a000000000000000000001" (JNum T1).

Lemma rebook_slot_not_offered_witness :
  rebook body_num ex_missed_world
    = (Ok (mkResponse 400 (message_body "Slot not available")), ex_missed_world).
Proof.
  apply (rebook_slot_not_offered body_num ex_missed_world (Appointment.set_status "missed" apptA) sched1);
    [vm_compute; reflexivity .. |].
  intros t0 _ Hv. assert (E : req_slot body_num = Some (JNum T1)) by reflexivity.
  rewrite E in Hv. discriminate Hv.
Defined.

(** ** Scenarios across handlers *)

(** A second ['missed'] appointment of doc1. *)
Definition apptE : Appointment.t :=
  Appointment.mk "65a000000000000000000005" "p5" "doc1" (Some T0) "missed" false.

Definition ex_double_world : World :=
  mkWorld (mkDb [Appointment.set_status "missed" apptA; apptE] [sched1]) [] (fun _ => true) true true.

Definition body_E : json := rebook_request "65a000000000000000000005" (JStr (date_toString T1)).

Lemma rebook_double_booking_any_witness :
  exists r1 r2 w1 w2, rebook body_toString ex_double_world = (Ok r1, w1) /\ rebook body_E w1 = (Ok r2, w2) /\
    statusCode r1 = 200 /\ statusCode r2 = 200 /\
    find_by_id (db_get w2) (Appointment._id apptA)
      = Some (Appointment.set_time_status (Some (T1 - msFromTime T1)) "scheduled"
                (Appointment.set_status "missed" apptA)) /\
    find_by_id (db_get w2) (Appointment._id apptE)
      = Some (Appointment.set_time_status (Some (T1 - msFromTime T1)) "scheduled" apptE) /\
    find_schedule (db_get w2) "doc1" = Some sched1.
Proof.
  apply (rebook_double_booking_any body_toString body_E ex_double_world
           (Appointment.set_status "missed" apptA) apptE sched1 T1);
    first [solve_db_wf | discriminate | vm_compute; reflexivity | left; reflexivity].
Defined.

(** The same run evaluated: both answers are 200, both appointments are
    ['scheduled'] at T1, and doc1 still offers T1. *)
Example rebook_double_booking :
  let slot := JStr (date_toString T1) in
  let r1 := rebook (rebook_request "65a000000000000000000001" slot) ex_double_world in
  let r2 := rebook (rebook_request "65a000000000000000000005" slot) (snd r1) in
  option_map statusCode (match fst r1 with Ok r => Some r | Throw _ => None end) = Some 200 /\
  option_map statusCode (match fst r2 with Ok r => Some r | Throw _ => None end) = Some 200 /\
  map (fun a => (Appointment.status a, Appointment.scheduledTime a)) (appointments (w_db (snd r2)))
    = [("scheduled", Some T1); ("scheduled", Some T1)] /\
  map DoctorSchedule.availableSlots (schedules (w_db (snd r2))) = [[T1; T2]].
Proof. vm_compute. repeat split. Qed.

(** The scenario of the specification, end to end, computed: after the tick
    that marks A ['missed'], [rebook(A, T1)] with T1 as the API serves it
    is rejected with 400 and changes nothing, where the specification
    expects A to be booked on T1 and doc1 to offer [T2] only; with T1 as
    [toString] prints it, A is booked but doc1 still offers [T1; T2]. *)
Example spec_scenario_rebook :
  let w1 := snd (detect_no_shows ex_now ex_world) in
  let r_iso := rebook body_iso w1 in
  let r_str := rebook body_toString w1 in
  fst r_iso = Ok (mkResponse 400 (message_body "Slot not available")) /\ snd r_iso = w1 /\
  option_map statusCode (match fst r_str with Ok r => Some r | Throw _ => None end) = Some 200 /\
  map (fun a => (Appointment.status a, Appointment.scheduledTime a)) (appointments (w_db (snd r_str)))
    = [("scheduled", Some T1); ("scheduled", Some (T0 + 600000))] /\
  map DoctorSchedule.availableSlots (schedules (w_db (snd r_str))) = [[T1; T2]].
Proof. vm_compute. repeat split. Qed.

Lemma rebook_accepts_toString_witness :
  db_wf (db_get ex_missed_world) /\
  cast_object_id (req_id body_toString) = CastId (Appointment._id (Appointment.set_status "missed" apptA)) /\
  find_by_id (db_get ex_missed_world) (Appointment._id (Appointment.set_status "missed" apptA))
    = Some (Appointment.set_status "missed" apptA) /\
  Appointment.status (Appointment.set_status "missed" apptA) = "missed" /\
  find_schedule (db_get ex_missed_world) (Appointment.doctorId (Appointment.set_status "missed" apptA))
    = Some sched1 /\
  In T1 (DoctorSchedule.availableSlots sched1) /\ time_valid T1 = true /\
  req_slot body_toString = Some (JStr (date_toString T1)) /\
  exists w', rebook body_toString ex_missed_world =
    (Ok (mkResponse 200 (JObj [("message", JStr "Appointment rescheduled successfully");
          ("appointment", appointment_to_json
             (Appointment.set_time_status (Some (T1 - msFromTime T1)) "scheduled"
                (Appointment.set_status "missed" apptA)))])), w') /\
    db_get w' = mkDb (update_where Appointment._id
                        (Appointment._id (Appointment.set_status "missed" apptA))
                        (Appointment.set_time_status (Some (T1 - msFromTime T1)) "scheduled")
                        (appointments (db_get ex_missed_world)))
                     (schedules (db_get ex_missed_world)).
Proof.
  assert (Hwf : db_wf (db_get ex_missed_world)) by solve_db_wf.
  assert (Hc : cast_object_id (req_id body_toString)
               = CastId (Appointment._id (Appointment.set_status "missed" apptA)))
    by (vm_compute; reflexivity).
  assert (Ha : find_by_id (db_get ex_missed_world) (Appointment._id (Appointment.set_status "missed" apptA))
               = Some (Appointment.set_status "missed" apptA)) by (vm_compute; reflexivity).
  assert (Hm : Appointment.status (Appointment.set_status "missed" apptA) = "missed") by reflexivity.
  assert (Hs : find_schedule (db_get ex_missed_world)
                 (Appointment.doctorId (Appointment.set_status "missed" apptA)) = Some sched1)
    by (vm_compute; reflexivity).
  assert (Hin : In T1 (DoctorSchedule.availableSlots sched1)) by (left; reflexivity).
  assert (Hv : time_valid T1 = true) by reflexivity.
  assert (Hslot : req_slot body_toString = Some (JStr (date_toString T1))) by reflexivity.
  do 8 (split; [assumption|]).
  exact (rebook_accepts_toString body_toString ex_missed_world _ _ _ Hwf Hc Ha Hm Hs Hin Hv Hslot).
Defined.

(** The same appointment A, with the slot [T2]. *)
Definition body_T2 : json := rebook_request "65a000000000000000000001" (JStr (date_toString T2)).

Lemma sequential_rebook_once_witness :
  db_wf (db_get ex_missed_world) /\
  rebook body_toString ex_missed_world = (Ok ex_rebook_response, snd (rebook body_toString ex_missed_world)) /\
  statusCode ex_rebook_response = 200 /\
  cast_object_id (req_id body_T2) = cast_object_id (req_id body_toString) /\
  rebook body_T2 (snd (rebook body_toString ex_missed_world)) =
    (Ok (mkResponse 400 (message_body "Invalid or non-missed appointment")),
     snd (rebook body_toString ex_missed_world)).
Proof.
  assert (Hwf : db_wf (db_get ex_missed_world)) by solve_db_wf.
  assert (Hrun : rebook body_toString ex_missed_world
                 = (Ok ex_rebook_response, snd (rebook body_toString ex_missed_world)))
    by (vm_compute; reflexivity).
  assert (H200 : statusCode ex_rebook_response = 200) by (vm_compute; reflexivity).
  assert (Hc : cast_object_id (req_id body_T2) = cast_object_id (req_id body_toString)) by reflexivity.
  do 4 (split; [assumption|]).
  exact (sequential_rebook_once body_toString body_T2 ex_missed_world _ _ Hwf Hrun H200 Hc).
Defined.
