(* ===== verification/Interleave.v ===== *)
(** * Overlapping ticks of the timer

    [setInterval(cb, 60000)] (src/backend/index.js, line 79) starts the
    callback every 60 s whether or not the previous call has finished, and
    an [async] callback gives the event loop back at each [await]: a tick
    whose e-mail or SMS provider is slow is still running when the next
    tick starts, and HTTP handlers run in between. Reconcile models each
    tick as one atomic step; this file splits the callback at its [await]
    points (lines 81, 88, 91, 96 and 97) into a thread that the system
    interleaves with other ticks and with rebooking requests.

    - [tick_step] runs a thread up to its next [await]; [run_thread] runs
      one thread alone, and computes exactly [detect_no_shows] (the
      small-step model refines nothing away).
    - [cstep] is the system: the timer fires a new thread at any later
      instant, a thread makes one step, or a rebooking request runs. With
      [serial = true] the timer only fires when no tick is running (every
      tick ends within its 60 s). A rebooking request runs as one step:
      that is one of the interleavings of its own [await]s, so every trace
      of the model is a trace of the program, but an invariant of the
      model (C22) holds only of those traces; Concurrency cuts the
      requests as well. *)

From Stdlib Require Import ZArith String List Lia.
From S2P Require Import Prelude DateFormat JsValue Store Notify Reconcile Api.
Import ListNotations.
#[local] Open Scope string_scope.
#[local] Open Scope Z_scope.
#[local] Open Scope js_scope.

(** Where a tick is suspended: before its query, or in the loop of lines
    86-99 at one of the [await]s of the current appointment, with the
    appointments of its snapshot still to come. *)
Inductive tick_pc :=
| TFind (now : Z)
| TSave (a : Appointment.t) (rest : list Appointment.t)
| TFindSchedule (a : Appointment.t) (rest : list Appointment.t)
| TEmail (message : string) (rest : list Appointment.t)
| TSMS (message : string) (rest : list Appointment.t)
| TDone.

(** The next iteration of the [for ... of] loop. *)
Definition loop_next (l : list Appointment.t) : tick_pc :=
  match l with
  | [] => TDone
  | a :: rest => TSave a rest
  end.

Section Threads.
Context {W : Type} `{Gateway W}.

(** One [await] of the callback of lines 80-100. The snapshot document
    [a] is the one [find] returned: its [save] sets the path [status] that
    line 87 assigned, whatever the stored document has become since. *)
Definition tick_step (pc : tick_pc) : M W tick_pc :=
  match pc with
  | TFind now =>
      missedAppointments <- find_appointments (is_overdue now) ;;
      ret (loop_next missedAppointments)
  | TSave a rest =>
      save_appointment (Appointment._id a) (Appointment.set_status "missed") ;;
      ret (TFindSchedule a rest)
  | TFindSchedule a rest =>
      rescheduleOptions <- findOne_schedule (Appointment.doctorId a) ;;
      match rescheduleOptions with
      | Some s =>
          if Nat.ltb 0 (length (DoctorSchedule.availableSlots s))
          then ret (TEmail (missed_message (DoctorSchedule.availableSlots s)) rest)
          else ret (loop_next rest)
      | None => ret (loop_next rest)
      end
  | TEmail message rest =>
      _ <- gw_sendEmail (Some (JStr "")) "Missed Appointment" (Some (JStr message)) ;;
      ret (TSMS message rest)
  | TSMS message rest =>
      _ <- gw_sendSMS (Some (JStr "")) (Some (JStr message)) ;;
      ret (loop_next rest)
  | TDone => ret TDone
  end.

(** A thread run alone for at most [fuel] steps. *)
Fixpoint run_thread (fuel : nat) (pc : tick_pc) : M W unit :=
  match fuel with
  | O => ret tt
  | S f =>
      match pc with
      | TDone => ret tt
      | _ => pc' <- tick_step pc ;; run_thread f pc'
      end
  end.

End Threads.

(** ** A thread run alone is the tick of Reconcile *)

Section Alone.
Context {W : Type} `{Gateway W}.

(** One more step of a thread, with the monad unfolded. *)
Ltac thread_step f :=
  destruct f as [|f]; [lia|]; cbn [run_thread loop_next];
  unfold tick_step, process_appointment, notify_patient, bind, ret;
  rewrite ?findOne_schedule_read.

Lemma run_thread_loop (l : list Appointment.t) (f : nat) (w : W) :
  (4 * length l <= f)%nat -> run_thread f (loop_next l) w = for_each process_appointment l w.
Proof.
  revert f w. induction l as [|a l IH]; intros f w Hf; [destruct f; reflexivity|].
  simpl length in Hf. cbn [for_each]. thread_step f.
  destruct (save_appointment _ _ w) as [[[]|e] w1]; [|reflexivity].
  thread_step f.
  destruct (find_schedule _ _) as [s|]; [destruct (Nat.ltb _ _)|]; try (apply IH; lia).
  thread_step f.
  destruct (gw_sendEmail _ _ _ w1) as [[r|e] w2]; [|reflexivity].
  thread_step f.
  destruct (gw_sendSMS _ _ w2) as [[r'|e] w3]; [|reflexivity].
  apply IH. lia.
Qed.

(** A thread of the callback run alone, with enough steps (one for
    the query and four per appointment), computes exactly the atomic tick
    [detect_no_shows] of Reconcile: the same outcome, exceptions included,
    and the same world. *)
Theorem run_thread_detect_no_shows (now : Z) (f : nat) (w : W) :
  (1 + 4 * length (appointments (db_get w)) <= f)%nat ->
  run_thread f (TFind now) w = detect_no_shows now w.
Proof.
  intros Hf. destruct f as [|f]; [lia|]. cbn [run_thread].
  unfold tick_step, detect_no_shows, bind, ret. rewrite find_appointments_read.
  apply run_thread_loop.
  pose proof (filter_length_le (is_overdue now) (appointments (db_get w))). lia.
Qed.

End Alone.

(** ** The system: ticks as threads, and rebooking requests *)

Record Config (W : Type) := mkConfig {
  c_world : W;
  c_threads : list tick_pc;   (** the callbacks still running *)
  c_clock : Z                 (** the instant of the last firing *)
}.
Arguments mkConfig {W} c_world c_threads c_clock.
Arguments c_world {W} c.
Arguments c_threads {W} c.
Arguments c_clock {W} c.

Section System.
Context {W : Type} `{Gateway W}.

(** One step of a thread; [None] when its callback has returned, or has
    rejected (an exception ends the callback). *)
Definition thread_exec (pc : tick_pc) (w : W) : W * option tick_pc :=
  match tick_step pc w with
  | (Ok TDone, w') | (Throw _, w') => (w', None)
  | (Ok pc', w') => (w', Some pc')
  end.

Definition resume (i : nat) (r : option tick_pc) (ts : list tick_pc) : list tick_pc :=
  match r with
  | Some pc => <[i := pc]> ts
  | None => delete i ts
  end.

(** [serial = true]: the timer fires only when no tick is running. *)
Inductive cstep (serial : bool) : Config W -> Config W -> Prop :=
| CFire (c : Config W) (now : Z) :
    c_clock c <= now -> (serial = true -> c_threads c = []) ->
    cstep serial c (mkConfig (c_world c) (c_threads c ++ [TFind now]) now)
| CThread (c : Config W) (i : nat) (pc : tick_pc) :
    c_threads c !! i = Some pc ->
    cstep serial c (mkConfig (fst (thread_exec pc (c_world c)))
                             (resume i (snd (thread_exec pc (c_world c))) (c_threads c))
                             (c_clock c))
| CRebook (c : Config W) (req_body : json) :
    cstep serial c (mkConfig (snd (rebook req_body (c_world c))) (c_threads c) (c_clock c)).

Inductive creachable (serial : bool) (c0 : Config W) : Config W -> Prop :=
| CR_refl : creachable serial c0 c0
| CR_step (c c' : Config W) : creachable serial c0 c -> cstep serial c c' -> creachable serial c0 c'.

End System.

(** ** What the marking promises

    Every ['missed'] appointment has a time more than [GRACE_PERIOD]
    before the last firing of the timer (specification, sections 3 and
    4.1: only reconciliation marks, and only overdue appointments). *)

Definition missed_ok (clk : Z) (d : Db) : Prop :=
  forall a, In a (appointments d) -> Appointment.status a = "missed" ->
  exists T, Appointment.scheduledTime a = Some T /\ T < clk - GRACE_PERIOD.

(** A document a thread will still mark: stored, still ['scheduled'], and
    overdue. *)
Definition pending_ok (clk : Z) (d : Db) (i : string) : Prop :=
  exists x, In x (appointments d) /\ Appointment._id x = i /\ Appointment.status x = "scheduled" /\
  exists T, Appointment.scheduledTime x = Some T /\ T < clk - GRACE_PERIOD.

Definition pending_of (pc : tick_pc) : list Appointment.t :=
  match pc with
  | TFind _ | TDone => []
  | TSave a rest => a :: rest
  | TFindSchedule _ rest | TEmail _ rest | TSMS _ rest => rest
  end.

Definition thread_ok (clk : Z) (d : Db) (pc : tick_pc) : Prop :=
  (match pc with TFind now => now <= clk | _ => True end) /\
  NoDup (map Appointment._id (pending_of pc)) /\
  Forall (fun b => pending_ok clk d (Appointment._id b)) (pending_of pc).

(** With serial ticks: at most one tick runs, and it only has ['scheduled']
    overdue documents ahead of it. *)
Definition serial_inv {W : Type} `{DbState W} (c : Config W) : Prop :=
  db_wf (db_get (c_world c)) /\ missed_ok (c_clock c) (db_get (c_world c)) /\
  (c_threads c = [] \/ exists pc, c_threads c = [pc] /\ thread_ok (c_clock c) (db_get (c_world c)) pc).

(** ** Executable schedules *)

(** A scheduler's choice: the timer fires, thread [i] makes a step, or a
    rebooking request runs. *)
Inductive choice :=
| Fire (now : Z)
| Step (i : nat)
| Request (req_body : json).

Section Schedules.
Context {W : Type} `{Gateway W}.

Definition cexec (serial : bool) (c : Config W) (ch : choice) : option (Config W) :=
  match ch with
  | Fire now =>
      if (c_clock c <=? now) && (negb serial || Nat.eqb (length (c_threads c)) 0)
      then Some (mkConfig (c_world c) (c_threads c ++ [TFind now]) now) else None
  | Step i =>
      match c_threads c !! i with
      | Some pc => Some (mkConfig (fst (thread_exec pc (c_world c)))
                                  (resume i (snd (thread_exec pc (c_world c))) (c_threads c))
                                  (c_clock c))
      | None => None
      end
  | Request req_body => Some (mkConfig (snd (rebook req_body (c_world c))) (c_threads c) (c_clock c))
  end.

Fixpoint cexec_all (serial : bool) (c : Config W) (chs : list choice) : option (Config W) :=
  match chs with
  | [] => Some c
  | ch :: chs' => match cexec serial c ch with Some c' => cexec_all serial c' chs' | None => None end
  end.

Lemma cexec_step (serial : bool) (c c' : Config W) (ch : choice) :
  cexec serial c ch = Some c' -> cstep serial c c'.
Proof.
  destruct ch as [now|i|req]; simpl.
  - destruct (Z.leb_spec (c_clock c) now); simpl; [|discriminate].
    destruct serial; simpl; [destruct (Nat.eqb_spec (length (c_threads c)) 0) as [E|]; [|discriminate]|];
      intros [= <-]; apply CFire; auto; [intros _; apply length_zero_iff_nil, E | discriminate].
  - destruct (c_threads c !! i) as [pc|] eqn:E; [intros [= <-]; apply CThread; exact E | discriminate].
  - intros [= <-]. apply CRebook.
Qed.

Lemma cexec_all_reachable (serial : bool) (c0 c1 c : Config W) (chs : list choice) :
  creachable serial c0 c1 -> cexec_all serial c1 chs = Some c -> creachable serial c0 c.
Proof.
  revert c1. induction chs as [|ch chs IH]; simpl; intros c1 Hr; [intros [= <-]; exact Hr|].
  destruct (cexec serial c1 ch) as [c2|] eqn:E; [|discriminate].
  apply IH. eapply CR_step; [exact Hr | eapply cexec_step; exact E].
Qed.

End Schedules.

(** ** Serial ticks keep the promise *)

Lemma In_update_where_inv {A} (key : A -> string) (i : string) (f : A -> A) (l : list A) (y : A) :
  In y (update_where key i f l) ->
  exists x, In x l /\ ((key x = i /\ y = f x) \/ (key x <> i /\ y = x)).
Proof.
  unfold update_where. intros (x & <- & Hx)%in_map_iff. exists x. split; [exact Hx|].
  destruct (String.eqb_spec (key x) i); auto.
Qed.

Lemma NoDup_map_filter {A B} (f : A -> B) (p : A -> bool) (l : list A) :
  NoDup (map f l) -> NoDup (map f (List.filter p l)).
Proof.
  induction l as [|x l IH]; simpl; intros Hnd; [constructor|].
  inversion Hnd as [|? ? Hx Hnd']; subst. destruct (p x); simpl; [|auto].
  constructor; [|auto]. intros Hin. apply Hx.
  apply list_elem_of_In in Hin. apply list_elem_of_In.
  apply in_map_iff in Hin as (y & <- & Hy). apply filter_In in Hy as [Hy _]. apply in_map, Hy.
Qed.

Lemma is_overdue_true (now : Z) (a : Appointment.t) :
  is_overdue now a = true ->
  Appointment.status a = "scheduled" /\
  exists T, Appointment.scheduledTime a = Some T /\ T < now - GRACE_PERIOD.
Proof.
  unfold is_overdue. rewrite andb_true_iff. intros [Hs Ht]. split; [apply String.eqb_eq, Hs|].
  destruct (Appointment.scheduledTime a) as [T|]; [|discriminate].
  exists T. split; [reflexivity | apply Z.ltb_lt, Ht].
Qed.

Lemma missed_ok_mono (clk clk' : Z) (d : Db) :
  clk <= clk' -> missed_ok clk d -> missed_ok clk' d.
Proof. intros Hle Hm a Ha Hs. destruct (Hm a Ha Hs) as (T & HT & Hlt). exists T. split; [exact HT | lia]. Qed.

Lemma thread_ok_loop_next (clk : Z) (d : Db) (l : list Appointment.t) :
  NoDup (map Appointment._id l) -> Forall (fun b => pending_ok clk d (Appointment._id b)) l ->
  thread_ok clk d (loop_next l).
Proof. destruct l; simpl; repeat split; auto. Qed.

(** Two stored documents with the same identifier are the same. *)
Lemma same_doc (d : Db) (x y : Appointment.t) :
  db_wf d -> In x (appointments d) -> In y (appointments d) ->
  Appointment._id x = Appointment._id y -> x = y.
Proof. intros [Hnd _]. apply nodup_map_inj, Hnd. Qed.

Section SerialProofs.
Context {W : Type} `{Gateway W}.

(** The save of a pending document [x]: the database stays well formed,
    [x] is ['missed'] with its overdue time, and the other pending
    documents are untouched. *)
Lemma mark_pending_inv (clk : Z) (d : Db) (x : Appointment.t) :
  db_wf d -> missed_ok clk d -> In x (appointments d) ->
  (exists T, Appointment.scheduledTime x = Some T /\ T < clk - GRACE_PERIOD) ->
  let d' := mkDb (update_where Appointment._id (Appointment._id x) (Appointment.set_status "missed")
                               (appointments d)) (schedules d) in
  db_wf d' /\ missed_ok clk d' /\
  (forall i, i <> Appointment._id x -> pending_ok clk d i -> pending_ok clk d' i).
Proof.
  intros Hwf Hm Hx HT d'. split; [|split].
  - destruct Hwf as [Ha Hs]. split; [simpl; rewrite update_where_keys; auto with appt | exact Hs].
  - intros y Hy Hst. apply In_update_where_inv in Hy as (x' & Hx' & [[Hid ->] | [_ ->]]).
    + rewrite (same_doc d x' x Hwf Hx' Hx Hid). exact HT.
    + apply Hm; assumption.
  - intros i Hi (y & Hy & Hid & Hs & HT'). exists y.
    split; [apply In_update_where; [exact Hy | congruence] | auto].
Qed.

(** A step of a gateway send leaves the database as it was. *)
Lemma send_step_inv {A : Type} (clk : Z) (m : M W A) (w : W) (next : A -> tick_pc) :
  preserves (fun w' => db_get w' = db_get w) m ->
  db_wf (db_get w) -> missed_ok clk (db_get w) ->
  (forall a, thread_ok clk (db_get w) (next a)) ->
  db_wf (db_get (snd ((a <- m ;; ret (next a)) w))) /\
  missed_ok clk (db_get (snd ((a <- m ;; ret (next a)) w))) /\
  (forall pc', fst ((a <- m ;; ret (next a)) w) = Ok pc' ->
               thread_ok clk (db_get (snd ((a <- m ;; ret (next a)) w))) pc').
Proof.
  intros Hp Hwf Hm Hn. specialize (Hp w eq_refl). unfold bind, ret.
  destruct (m w) as [[a|e] w'] eqn:E; simpl in Hp |- *; rewrite Hp;
    (split; [exact Hwf | split; [exact Hm|]]); intros pc' [=]; subst; apply Hn.
Qed.

Lemma tick_step_inv (clk : Z) (pc : tick_pc) (w : W) :
  db_wf (db_get w) -> missed_ok clk (db_get w) -> thread_ok clk (db_get w) pc ->
  db_wf (db_get (snd (tick_step pc w))) /\ missed_ok clk (db_get (snd (tick_step pc w))) /\
  (forall pc', fst (tick_step pc w) = Ok pc' -> thread_ok clk (db_get (snd (tick_step pc w))) pc').
Proof.
  intros Hwf Hm (Hnow & Hnd & Hp). destruct pc as [now|a rest|a rest|msg rest|msg rest|];
    simpl in Hnd, Hp.
  - unfold tick_step, bind, ret. rewrite find_appointments_read. simpl.
    split; [exact Hwf | split; [exact Hm|]]. intros pc' [= <-]. apply thread_ok_loop_next.
    + apply NoDup_map_filter, Hwf.
    + apply Forall_forall. intros b (Hb & Ho)%filter_In.
      apply is_overdue_true in Ho as (Hs & T & HT & Hlt).
      exists b. repeat split; auto. exists T. split; [exact HT | lia].
  - inversion Hp as [|? ? (x & Hx & Hid & Hs & HT) Hrest]; subst.
    inversion Hnd as [|? ? Hni Hnd']; subst.
    unfold tick_step, bind, ret, save_appointment.
    rewrite update_first_some by (apply Hwf || (rewrite <- Hid; apply in_map, Hx)). simpl.
    rewrite db_get_put, <- Hid.
    destruct (mark_pending_inv clk (db_get w) x Hwf Hm Hx HT) as (Hwf' & Hm' & Hkeep).
    split; [exact Hwf' | split; [exact Hm'|]]. intros pc' [= <-]. repeat split; [exact Hnd'|].
    apply Forall_forall. intros b Hb. apply Hkeep; [| exact (proj1 (Forall_forall _ _) Hrest b Hb)].
    intros E. apply Hni. rewrite <- Hid, <- E. apply list_elem_of_In, in_map, Hb.
  - unfold tick_step, bind, ret. rewrite findOne_schedule_read.
    destruct (find_schedule _ _) as [s|]; [destruct (Nat.ltb _ _)|]; simpl;
      (split; [exact Hwf | split; [exact Hm|]]); intros pc' [= <-];
      [repeat split; auto | apply thread_ok_loop_next; auto ..].
  - apply send_step_inv; auto using gw_sendEmail_db. intros _. repeat split; auto.
  - apply send_step_inv; auto using gw_sendSMS_db. intros _. apply thread_ok_loop_next; auto.
  - simpl. split; [exact Hwf | split; [exact Hm|]]. intros pc' [= <-]. repeat split; constructor.
Qed.

(** A request to [POST /api/rebook] leaves the schedules as they were, and
    either leaves the appointments as they were or books one ['missed']
    appointment. *)
Lemma rebook_db_cases (req_body : json) (w : W) :
  db_wf (db_get w) ->
  schedules (db_get (snd (rebook req_body w))) = schedules (db_get w) /\
  (appointments (db_get (snd (rebook req_body w))) = appointments (db_get w) \/
   exists a t, In a (appointments (db_get w)) /\ Appointment.status a = "missed" /\
     appointments (db_get (snd (rebook req_body w))) =
       update_where Appointment._id (Appointment._id a)
         (Appointment.set_time_status (Some t) "scheduled") (appointments (db_get w))).
Proof.
  intros Hwf. destruct (rebook_unchanged_or_success req_body w Hwf) as [-> | (r & Hr & H200)];
    [split; [reflexivity | left; reflexivity]|].
  destruct (rebook req_body w) as [o w'] eqn:E. simpl in Hr |- *. subst o.
  destruct (rebook_success_path req_body w w' r Hwf E H200) as (a & t & Ha & Hm & _ & ->).
  apply (find_by_cast_in _ _ _ Hwf) in Ha as Hin. split; [reflexivity | right; eauto].
Qed.

Lemma db_eta (d d' : Db) :
  appointments d' = appointments d -> schedules d' = schedules d -> d' = d.
Proof. destruct d, d'; simpl; congruence. Qed.

Lemma thread_ok_transfer (clk : Z) (d d' : Db) (pc : tick_pc) :
  (forall i, pending_ok clk d i -> pending_ok clk d' i) -> thread_ok clk d pc -> thread_ok clk d' pc.
Proof. intros Hi (Hn & Hnd & Hp). repeat split; auto. revert Hp. apply Forall_impl. auto. Qed.

Lemma rebook_step_inv (clk : Z) (req_body : json) (w : W) :
  db_wf (db_get w) -> missed_ok clk (db_get w) ->
  db_wf (db_get (snd (rebook req_body w))) /\ missed_ok clk (db_get (snd (rebook req_body w))) /\
  (forall pc, thread_ok clk (db_get w) pc -> thread_ok clk (db_get (snd (rebook req_body w))) pc).
Proof.
  intros Hwf Hm.
  destruct (rebook_db_cases req_body w Hwf) as [Hsch [Hsame | (a & t & Ha & Hma & Hupd)]].
  - rewrite (db_eta _ _ Hsame Hsch). auto.
  - destruct Hwf as [Hnda Hnds]. split; [|split].
    + split; [rewrite Hupd, update_where_keys; auto with appt | rewrite Hsch; exact Hnds].
    + intros y Hy Hst. rewrite Hupd in Hy.
      apply In_update_where_inv in Hy as (x & Hx & [[_ ->] | [_ ->]]); [discriminate | auto].
    + intros pc. apply thread_ok_transfer. intros i (x & Hx & Hid & Hs & HT). exists x.
      split; [|auto]. rewrite Hupd. apply In_update_where; [exact Hx|]. intros E.
      assert (x = a) as -> by (apply (same_doc (db_get w)); auto; split; auto).
      congruence.
Qed.

End SerialProofs.

Section SerialClaim.
Context {W : Type} `{Gateway W}.

Lemma thread_exec_spec (pc : tick_pc) (w : W) :
  fst (thread_exec pc w) = snd (tick_step pc w) /\
  (forall pc', snd (thread_exec pc w) = Some pc' -> fst (tick_step pc w) = Ok pc').
Proof.
  unfold thread_exec. destruct (tick_step pc w) as [[[]|e] w']; simpl; split; congruence.
Qed.

Lemma serial_inv_step (c c' : Config W) : serial_inv c -> cstep true c c' -> serial_inv c'.
Proof.
  intros (Hwf & Hm & Ht) Hs. destruct Hs as [c now Hle Hser | c i pc Hi | c req]; simpl in *.
  - rewrite (Hser eq_refl). split; [exact Hwf | split; [eapply missed_ok_mono; eauto|]].
    right. exists (TFind now). split; [reflexivity | split; [simpl; lia | split; constructor]].
  - destruct Ht as [Hnil | (pc0 & Hpc & Hok)]; [rewrite Hnil in Hi; discriminate|].
    rewrite Hpc in Hi |- *. apply list_lookup_singleton_Some in Hi as [-> ->].
    destruct (tick_step_inv _ pc _ Hwf Hm Hok) as (Hwf' & Hm' & Hn).
    destruct (thread_exec_spec pc (c_world c)) as [Hw Hr]. rewrite Hw.
    split; [exact Hwf' | split; [exact Hm'|]].
    destruct (snd (thread_exec pc (c_world c))) as [pc'|]; simpl; [|left; reflexivity].
    right. exists pc'. split; [reflexivity | apply Hn, Hr; reflexivity].
  - destruct (rebook_step_inv (c_clock c) req (c_world c) Hwf Hm) as (Hwf' & Hm' & Hk).
    split; [exact Hwf' | split; [exact Hm'|]].
    destruct Ht as [Hnil | (pc0 & Hpc & Hok)]; [left; exact Hnil | right; eauto].
Qed.

(** C22. When every tick ends before the next one fires, every state the
    system reaches keeps the promise of reconciliation: a ['missed']
    appointment has a time more than [GRACE_PERIOD] before the last firing,
    whatever the rebooking requests, each run as one step, and the
    outcomes of the sends. (With requests cut at their own [await]s this
    fails: C12, in Concurrency.) *)
Theorem serial_ticks_only_mark_overdue (c0 c : Config W) :
  serial_inv c0 -> creachable true c0 c -> missed_ok (c_clock c) (db_get (c_world c)).
Proof.
  intros Hinit Hr. assert (serial_inv c) as (_ & Hm & _); [|exact Hm].
  induction Hr; eauto using serial_inv_step.
Qed.

End SerialClaim.

(** ** Overlapping ticks in the world of Reconcile

    A (10:00) and B (10:10) are ['scheduled']; doc1 offers [T1] and [T2]. *)

Definition ex_c0 : Config World := mkConfig ex_world [] T0.

Definition ex_tick1 : Z := T0 + 30 * 60000.
Definition ex_tick2 : Z := ex_tick1 + 60000.

(** Tick 1 reads [A; B], marks A and waits for its e-mail provider; tick 2
    fires 60 s later, reads [B], marks B and notifies; the patient rebooks
    B at [T1]; tick 1 resumes, sends its SMS, and saves its copy of B. *)
Definition overlap_schedule : list choice :=
  [Fire ex_tick1; Step 0; Step 0; Step 0;
   Fire ex_tick2; Step 1; Step 1; Step 1; Step 1; Step 1;
   Request body_B;
   Step 0; Step 0; Step 0].

(** The same events when every tick runs to its end first. *)
Definition serial_schedule : list choice :=
  [Fire ex_tick1; Step 0; Step 0; Step 0; Step 0; Step 0; Step 0; Step 0; Step 0; Step 0;
   Request body_B;
   Fire ex_tick2; Step 0].

Definition ex_serial_final : Config World :=
  match cexec_all true ex_c0 serial_schedule with Some c => c | None => ex_c0 end.

Lemma ex_c0_serial_inv : serial_inv ex_c0.
Proof.
  split; [solve_db_wf | split; [|left; reflexivity]].
  intros a Ha Hs. simpl in Ha. destruct Ha as [<-|[<-|[]]]; discriminate.
Qed.

(** C23. With overlapping ticks the promise of C22 fails: from the same
    initial state, a trace reaches a state where B, which the patient had
    rebooked at [T1] (the next day), is ['missed'] again with that future
    time. The save of line 88 writes the status of the copy [find]
    returned before tick 2 marked B and the rebooking booked it. *)
Theorem overlapping_ticks_remark_rebooked :
  serial_inv ex_c0 /\
  exists c, creachable false ex_c0 c /\
    In (Appointment.mk "65a000000000000000000002" "p2" "doc1" (Some T1) "missed" false)
       (appointments (db_get (c_world c))) /\
    ~ missed_ok (c_clock c) (db_get (c_world c)).
Proof.
  split; [exact ex_c0_serial_inv|].
  destruct (cexec_all false ex_c0 overlap_schedule) as [c|] eqn:E; [|vm_compute in E; discriminate].
  exists c. split; [eapply cexec_all_reachable; [constructor | exact E]|].
  vm_compute in E. injection E as Ec.
  assert (Hin : In (Appointment.mk "65a000000000000000000002" "p2" "doc1" (Some T1) "missed" false)
                   (appointments (db_get (c_world c)))) by (rewrite <- Ec; simpl; auto).
  split; [exact Hin|]. intros Hm. destruct (Hm _ Hin eq_refl) as (T & [= <-] & Hlt).
  rewrite <- Ec in Hlt. simpl in Hlt. unfold T1, T0, ex_tick2, ex_tick1, GRACE_PERIOD in Hlt. lia.
Qed.

Lemma run_thread_detect_no_shows_witness :
  (1 + 4 * length (appointments (db_get ex_world)) <= 9)%nat /\
  run_thread 9 (TFind ex_now) ex_world = detect_no_shows ex_now ex_world.
Proof.
  assert (Hf : (1 + 4 * length (appointments (db_get ex_world)) <= 9)%nat) by (simpl; lia).
  split; [exact Hf | exact (run_thread_detect_no_shows ex_now 9 ex_world Hf)].
Defined.

Lemma serial_ticks_only_mark_overdue_witness :
  serial_inv ex_c0 /\ creachable true ex_c0 ex_serial_final /\
  missed_ok (c_clock ex_serial_final) (db_get (c_world ex_serial_final)).
Proof.
  assert (Hr : creachable true ex_c0 ex_serial_final)
    by (apply (cexec_all_reachable true ex_c0 ex_c0 _ serial_schedule); [constructor | vm_compute; reflexivity]).
  split; [exact ex_c0_serial_inv | split; [exact Hr|]].
  exact (serial_ticks_only_mark_overdue ex_c0 ex_serial_final ex_c0_serial_inv Hr).
Defined.
