(* ===== verification/RebookRace.v ===== *)
(** * Concurrent rebooking requests

    [POST /api/rebook] (src/backend/index.js, lines 115-137) is an [async]
    handler with four [await]s: [findById] (116), [findOne] (122), the
    save of the appointment (129) and the save of the schedule (133).
    Express runs the handlers of concurrent requests interleaved at those
    points. Api models a request as one step; here a request is a thread
    ([rebook_step]), and the saves are what Mongoose sends: a [$set] of the
    paths whose values differ from the document as the request read it.

    - [run_request]: a request run alone is exactly [rebook];
    - one request after the other, a ['missed'] appointment is booked at
      most once: the second request sees ['scheduled'] and is refused
      (C26, proved in Api on the atomic handler);
    - interleaved, two requests for the same appointment both pass the
      status check, both save and both answer 200: the first patient is
      told the appointment is at [T1] while it is stored at [T2].

    The save of the schedule (line 133) assigns an array deep-equal to the
    stored one (C2), so Mongoose marks no path modified and sends no update,
    hence no version check either; the model's write of the same slots has
    the same effect. *)

From Stdlib Require Import ZArith String List Lia.
From S2P Require Import Prelude DateFormat DateProofs JsValue Store Notify Reconcile Api.
Import ListNotations.
#[local] Open Scope string_scope.
#[local] Open Scope Z_scope.
#[local] Open Scope js_scope.

(** Where a request is suspended, or its answer. *)
Inductive rebook_pc :=
| RFind (req_body : json)
| RSchedule (newSlot : option json) (appointment : Appointment.t)
| RSave (newSlot : option json) (appointment : Appointment.t) (doctorSchedule : DoctorSchedule.t)
| RSaveSchedule (newSlot : option json) (appointment : Appointment.t)
                (doctorSchedule : DoctorSchedule.t) (t : Z)
| RAnswered (r : Response)
| RRejected (e : js_error).   (** the handler threw: no answer *)

(** The [$set] of [appointment.save()] after lines 127-128: Mongoose writes
    only the paths whose new value differs from the document [snap] that
    [findById] returned; the stored document gets those paths. *)
Definition rebook_update (snap : Appointment.t) (t : Z) (stored : Appointment.t) : Appointment.t :=
  let stored1 := match Appointment.scheduledTime snap with
                 | Some t0 => if Z.eqb t0 t then stored else Appointment.set_time (Some t) stored
                 | None => Appointment.set_time (Some t) stored
                 end in
  if String.eqb (Appointment.status snap) "scheduled" then stored1
  else Appointment.set_status "scheduled" stored1.

Definition rebook_success (a : Appointment.t) (t : Z) : Response :=
  mkResponse 200 (JObj [("message", JStr "Appointment rescheduled successfully");
                        ("appointment", appointment_to_json (Appointment.set_time_status (Some t) "scheduled" a))]).

Section Requests.
Context {W : Type} `{DbState W}.

(** One [await] of the handler. *)
Definition rebook_step (pc : rebook_pc) : M W rebook_pc :=
  match pc with
  | RFind req_body =>
      appointment <- findById_appointment (req_id req_body) ;;
      match appointment with
      | None => ret (RAnswered (mkResponse 400 (message_body "Invalid or non-missed appointment")))
      | Some a =>
          if negb (String.eqb (Appointment.status a) "missed")
          then ret (RAnswered (mkResponse 400 (message_body "Invalid or non-missed appointment")))
          else ret (RSchedule (req_slot req_body) a)
      end
  | RSchedule newSlot a =>
      doctorSchedule <- findOne_schedule (Appointment.doctorId a) ;;
      match doctorSchedule with
      | None => throw null_schedule_error
      | Some s =>
          if negb (mongoose_includes (DoctorSchedule.availableSlots s) newSlot)
          then ret (RAnswered (mkResponse 400 (message_body "Slot not available")))
          else ret (RSave newSlot a s)
      end
  | RSave newSlot a s =>
      match new_Date newSlot with
      | None => throw (CastError "scheduledTime")
      | Some t =>
          save_appointment (Appointment._id a) (rebook_update a t) ;;
          ret (RSaveSchedule newSlot a s t)
      end
  | RSaveSchedule newSlot a s t =>
      save_schedule (DoctorSchedule._id s)
        (DoctorSchedule.set_slots (filter_slots_ne (DoctorSchedule.availableSlots s) newSlot)) ;;
      ret (RAnswered (rebook_success a t))
  | RAnswered r => ret (RAnswered r)
  | RRejected e => ret (RRejected e)
  end.

(** A request run alone for at most [fuel] steps. *)
Fixpoint run_request (fuel : nat) (pc : rebook_pc) : M W (option Response) :=
  match pc with
  | RAnswered r => ret (Some r)
  | RRejected e => throw e
  | _ => match fuel with
         | O => ret None
         | S f => pc' <- rebook_step pc ;; run_request f pc'
         end
  end.

End Requests.

(** ** A request run alone is the handler of Api *)

(** Updating the first document with key [i] by [f] or by [g] is the same
    when they agree on that document. *)
Lemma update_first_agree {A} (key : A -> string) (i : string) (f g : A -> A) (l : list A) (x : A) :
  find_first (fun y => String.eqb (key y) i) l = Some x -> f x = g x ->
  update_first key i f l = update_first key i g l.
Proof.
  unfold find_first. induction l as [|y l IH]; simpl; [discriminate|].
  destruct (String.eqb (key y) i); [intros [= ->] E; rewrite E; reflexivity|].
  intros Hf E. rewrite (IH Hf E). reflexivity.
Qed.

(** On the document it read, the [$set] of the handler is the assignment
    of lines 127-128. *)
Lemma rebook_update_self (a : Appointment.t) (t : Z) :
  Appointment.status a = "missed" ->
  rebook_update a t a = Appointment.set_time_status (Some t) "scheduled" a.
Proof.
  destruct a as [i p d [t0|] st ns]; simpl; intros ->; unfold rebook_update; simpl;
    [destruct (Z.eqb_spec t0 t) as [->|]|]; reflexivity.
Qed.

Definition outcome_some (o : outcome Response) : outcome (option Response) :=
  match o with Ok r => Ok (Some r) | Throw e => Throw e end.

Section Alone.
Context {W : Type} `{DbState W}.

(** A rebooking request run alone, in its four steps, answers and throws
    exactly as the atomic handler [rebook] of Api, and leaves the same
    world. *)
Theorem run_request_rebook (req_body : json) (w : W) :
  db_wf (db_get w) ->
  run_request 4 (RFind req_body) w = (outcome_some (fst (rebook req_body w)), snd (rebook req_body w)).
Proof.
  intros [Hnd _].
  unfold run_request, rebook_step, rebook, rebook_apply, bind, ret, throw,
    findOne_schedule, save_appointment, save_schedule, req_id, req_slot.
  cbv beta iota zeta delta [negb].
  destruct (findById_appointment_cases (body_field req_body "appointmentId") w) as [(e & _ & ->) | (_ & ->)];
    [reflexivity|].
  destruct (find_by_cast (db_get w) _) as [a|] eqn:Ha; try reflexivity.
  destruct (String.eqb (Appointment.status a) "missed") eqn:Hm; cbv beta iota zeta delta [negb]; try reflexivity.
  destruct (find_schedule (db_get w) (Appointment.doctorId a)) as [s|]; try reflexivity.
  destruct (mongoose_includes (DoctorSchedule.availableSlots s) (body_field req_body "newSlot"));
    cbv beta iota zeta delta [negb]; try reflexivity.
  destruct (new_Date (body_field req_body "newSlot")) as [t|]; try reflexivity.
  destruct (find_by_cast_some _ _ _ Hnd Ha) as [_ Hid].
  rewrite (update_first_agree Appointment._id (Appointment._id a) _ _ _ a Hid
                 (rebook_update_self a t (proj1 (String.eqb_eq _ _) Hm))).
  destruct (update_first _ _ _ _); [|reflexivity].
  destruct (update_first _ _ _ _); reflexivity.
Qed.

End Alone.

(** ** Requests in flight *)

Record RConfig (W : Type) := mkRConfig {
  r_world : W;
  r_requests : list rebook_pc   (** every request received, running or answered *)
}.
Arguments mkRConfig {W} r_world r_requests.
Arguments r_world {W} r.
Arguments r_requests {W} r.

Inductive rchoice :=
| Arrive (req_body : json)
| Resume (i : nat).

Section RSystem.
Context {W : Type} `{DbState W}.

(** The event loop resumes a request at its next [await]; an exception
    ends it without an answer. *)
Definition request_exec (pc : rebook_pc) (w : W) : W * rebook_pc :=
  match rebook_step pc w with
  | (Ok pc', w') => (w', pc')
  | (Throw e, w') => (w', RRejected e)
  end.

Inductive rstep : RConfig W -> RConfig W -> Prop :=
| RArrive (c : RConfig W) (req_body : json) :
    rstep c (mkRConfig (r_world c) (r_requests c ++ [RFind req_body]))
| RResume (c : RConfig W) (i : nat) (pc : rebook_pc) :
    r_requests c !! i = Some pc ->
    rstep c (mkRConfig (fst (request_exec pc (r_world c)))
                       (<[i := snd (request_exec pc (r_world c))]> (r_requests c))).

Inductive rreachable (c0 : RConfig W) : RConfig W -> Prop :=
| RR_refl : rreachable c0 c0
| RR_step (c c' : RConfig W) : rreachable c0 c -> rstep c c' -> rreachable c0 c'.

Definition rexec (c : RConfig W) (ch : rchoice) : option (RConfig W) :=
  match ch with
  | Arrive req_body => Some (mkRConfig (r_world c) (r_requests c ++ [RFind req_body]))
  | Resume i =>
      match r_requests c !! i with
      | Some pc => Some (mkRConfig (fst (request_exec pc (r_world c)))
                                   (<[i := snd (request_exec pc (r_world c))]> (r_requests c)))
      | None => None
      end
  end.

Fixpoint rexec_all (c : RConfig W) (chs : list rchoice) : option (RConfig W) :=
  match chs with
  | [] => Some c
  | ch :: chs' => match rexec c ch with Some c' => rexec_all c' chs' | None => None end
  end.

Lemma rexec_all_reachable (c0 c1 c : RConfig W) (chs : list rchoice) :
  rreachable c0 c1 -> rexec_all c1 chs = Some c -> rreachable c0 c.
Proof.
  revert c1. induction chs as [|[req|i] chs IH]; simpl; intros c1 Hr; [intros [= <-]; exact Hr| |].
  - apply IH. eapply RR_step; [exact Hr | apply RArrive].
  - destruct (r_requests c1 !! i) as [pc|] eqn:E; [|discriminate].
    apply IH. eapply RR_step; [exact Hr | apply RResume; exact E].
Qed.

End RSystem.

(** ** Two requests for the same appointment, interleaved

    In the world of Api where A is ['missed'] and doc1 offers [T1] and
    [T2], two requests name A, one with the text of [T1], one with [T2]. *)

Definition ex_r0 : RConfig World := mkRConfig ex_missed_world [].

(** Both requests read A while it is ['missed']; request 1 saves first,
    request 2 saves its own [$set] over it; both answer. *)
Definition race_schedule : list rchoice :=
  [Arrive body_toString; Arrive body_T2;
   Resume 0; Resume 1;
   Resume 0; Resume 0;
   Resume 1; Resume 1;
   Resume 0; Resume 1].

(** C27. Interleaved at their [await]s, two requests for the same
    ['missed'] appointment both pass the status check of line 118 and both
    answer 200: the first tells its client the appointment is at [T1],
    while the store holds it at [T2], the slot of the second. Run one
    after the other, the second would be refused (C26, in Api). *)
Theorem interleaved_rebook_twice :
  exists c, rreachable ex_r0 c /\
    r_requests c = [RAnswered (rebook_success (Appointment.set_status "missed" apptA) T1);
                    RAnswered (rebook_success (Appointment.set_status "missed" apptA) T2)] /\
    In (Appointment.set_time_status (Some T2) "scheduled" apptA) (appointments (db_get (r_world c))).
Proof.
  destruct (rexec_all ex_r0 race_schedule) as [c|] eqn:E; [|vm_compute in E; discriminate].
  exists c. split; [eapply rexec_all_reachable; [constructor | exact E]|].
  vm_compute in E. injection E as Ec. rewrite <- Ec. split; [reflexivity|]. simpl. auto.
Qed.
