(* ===== verification/Frontend.v ===== *)
(** * The browser client (src/frontend/src/App.js)

    The React component [App] keeps six pieces of state (lines 5-10) and
    reacts to five user events: mounting (the [useEffect] of lines 13-18),
    choosing a doctor (62-65), choosing a slot in the select of lines
    183-195, pressing "Select" beside a missed appointment (161-169), and
    pressing "Rebook" (41-59). Its requests go to the handlers of [Api];
    the client and the server form one system whose state is the pair of
    the component state and the server's [World]. Every other change to
    the server (timer ticks, requests of other clients) is a step of its
    own, so the client's invariants are proved for every interleaving.

    The route [GET /api/missedAppointments] that [fetchMissedAppointments]
    calls (line 33) has no handler in the server: the server only has
    [/api/missedAppointments/:patientId]. Express answers 404, axios
    rejects, and the list of missed appointments is never filled. *)

From Stdlib Require Import ZArith String List Lia.
From S2P Require Import Prelude DateFormat JsValue Store Notify Reconcile Api.
Import ListNotations.
#[local] Open Scope string_scope.
#[local] Open Scope Z_scope.

(** [useState] of lines 5-10, and the alerts shown so far. *)
Record AppState := mkApp {
  doctors : list (string * string);
  selectedDoctor : string;
  availableSlots : list json;
  missedAppointments : json;
  newSlot : string;
  appointmentId : string;
  alerts : list string
}.

Definition initial_app : AppState := mkApp [] "" [] (JArr []) "" "" [].

Inductive ui_event :=
| Mount
| ChangeDoctor (doctorId : string)
| ChangeSlot (value : string)
| ClickSelect (id : string)
| ClickRebook.

(** The [value] attribute React writes for a JSON value: [String(v)]. *)
Definition option_value (v : json) : string :=
  match v with
  | JStr s => s
  | _ => js_to_string v
  end.

(** The [_id] of an entry of the missed-appointments list. *)
Definition entry_id (v : json) : option string :=
  match body_field v "_id" with Some (JStr s) => Some s | _ => None end.

(** The entries [missedAppointments.map] renders when
    [missedAppointments.length] is non-zero (lines 155-172): the elements
    of an array; any other value has no list. *)
Definition listed_entries (v : json) : list json :=
  match v with
  | JArr l => l
  | _ => []
  end.

(** An event the rendered page offers: the doctor select lists the empty
    option and the doctors (lines 127-133); the slot select, disabled while
    there is no slot (line 187), lists the empty option and one option per
    slot (189-194); a "Select" button exists for each listed missed
    appointment (157-170). *)
Definition enabled (st : AppState) (e : ui_event) : Prop :=
  match e with
  | ChangeDoctor d => d = "" \/ In d (map fst (doctors st))
  | ChangeSlot v =>
      availableSlots st <> [] /\ (v = "" \/ In v (map option_value (availableSlots st)))
  | ClickSelect id => In (Some id) (map entry_id (listed_entries (missedAppointments st)))
  | _ => True
  end.

(** The server's answer to an HTTP request, as axios sees it: a response,
    or none when the handler threw (the rejection ends the server process,
    and the request fails without a response). *)
Definition answer (r : outcome Response * World) : option Response * World :=
  match r with
  | (Ok resp, w) => (Some resp, w)
  | (Throw _, w) => (None, w)
  end.

(** [GET /api/slots/:doctorId]: the empty id matches no route (404). *)
Definition http_get_slots (doctorId : string) (w : World) : option Response * World :=
  if String.eqb doctorId "" then (Some (mkResponse 404 JNull), w)
  else answer (get_slots doctorId w).

(** Lines 21-28: [setAvailableSlots(response.data.availableSlots || [])]
    on a 2xx answer; axios rejects any other status, and the [catch] only
    logs. *)
Definition fetchAvailableSlots (doctorId : string) (st : AppState) (w : World) : AppState * World :=
  match http_get_slots doctorId w with
  | (Some r, w') =>
      if (200 <=? statusCode r) && (statusCode r <? 300) then
        match body_field (body r) "availableSlots" with
        | Some (JArr vs) => (mkApp (doctors st) (selectedDoctor st) vs (missedAppointments st)
                                   (newSlot st) (appointmentId st) (alerts st), w')
        | _ => (mkApp (doctors st) (selectedDoctor st) [] (missedAppointments st)
                      (newSlot st) (appointmentId st) (alerts st), w')
        end
      else (st, w')
  | (None, w') => (st, w')
  end.

(** Lines 31-38: [GET /api/missedAppointments] has no route; Express
    answers 404, axios rejects, the [catch] only logs. *)
Definition fetchMissedAppointments (st : AppState) (w : World) : AppState * World := (st, w).

Definition alert (m : string) (st : AppState) : AppState :=
  mkApp (doctors st) (selectedDoctor st) (availableSlots st) (missedAppointments st)
        (newSlot st) (appointmentId st) (alerts st ++ [m]).

Definition response_message (r : Response) : option string :=
  match body_field (body r) "message" with Some (JStr m) => Some m | _ => None end.

(** Lines 41-59. *)
Definition handleRebooking (st : AppState) (w : World) : AppState * World :=
  if String.eqb (appointmentId st) "" || String.eqb (newSlot st) "" then
    (alert "Select an appointment and slot for rebooking!" st, w)
  else
    match answer (rebook (JObj [("appointmentId", JStr (appointmentId st));
                                 ("newSlot", JStr (newSlot st))]) w) with
    | (Some r, w1) =>
        if (200 <=? statusCode r) && (statusCode r <? 300) then
          let st1 := alert (match response_message r with Some m => m | None => "undefined" end) st in
          let '(st2, w2) := fetchMissedAppointments st1 w1 in
          fetchAvailableSlots (selectedDoctor st2) st2 w2
        else
          (alert (match response_message r with Some m => m | None => "Error during rebooking." end) st, w1)
    | (None, w1) => (alert "Error during rebooking." st, w1)
    end.

(** The handlers of the five events. *)
Definition app_handle (e : ui_event) (st : AppState) (w : World) : AppState * World :=
  match e with
  | Mount =>
      (mkApp [("doc1", "Dr. Smith"); ("doc2", "Dr. Johnson")] (selectedDoctor st)
             (availableSlots st) (missedAppointments st) (newSlot st) (appointmentId st) (alerts st), w)
  | ChangeDoctor d =>
      fetchAvailableSlots d (mkApp (doctors st) d (availableSlots st) (missedAppointments st)
                                   (newSlot st) (appointmentId st) (alerts st)) w
  | ChangeSlot v =>
      (mkApp (doctors st) (selectedDoctor st) (availableSlots st) (missedAppointments st)
             v (appointmentId st) (alerts st), w)
  | ClickSelect id =>
      (mkApp (doctors st) (selectedDoctor st) (availableSlots st) (missedAppointments st)
             (newSlot st) id (alerts st), w)
  | ClickRebook => handleRebooking st w
  end.

(** The whole system: a client event, a timer tick at any instant, or a
    rebooking request from any other client. *)
Inductive sys_step : AppState * World -> AppState * World -> Prop :=
| step_ui e st w :
    enabled st e -> sys_step (st, w) (app_handle e st w)
| step_tick now st w :
    sys_step (st, w) (st, snd (detect_no_shows now w))
| step_other_client req_body st w :
    sys_step (st, w) (st, snd (rebook req_body w)).

Inductive reachable : AppState * World -> Prop :=
| reach_init w : reachable (initial_app, w)
| reach_step c c' : reachable c -> sys_step c c' -> reachable c'.

(** ** What the client can do *)

(** The invariant of every reachable state: nothing selected as the
    appointment, no missed-appointment list, every slot the JSON of a date,
    and the chosen slot empty or the option text of such a slot. *)
Definition client_inv (st : AppState) : Prop :=
  appointmentId st = "" /\ missedAppointments st = JArr [] /\
  Forall (fun v => exists t, v = date_toJSON t) (availableSlots st) /\
  (newSlot st = "" \/ exists t, newSlot st = option_value (date_toJSON t)).

Lemma http_get_slots_ok (doctorId : string) (w : World) (r : Response) (w' : World) :
  http_get_slots doctorId w = (Some r, w') -> statusCode r = 200 \/ statusCode r = 404 ->
  (200 <=? statusCode r) && (statusCode r <? 300) = true ->
  exists ts, body_field (body r) "availableSlots" = Some (JArr (map date_toJSON ts)).
Proof.
  unfold http_get_slots, answer, get_slots, bind. rewrite findOne_schedule_read.
  destruct (String.eqb doctorId ""); [intros [= <- _]; discriminate|].
  destruct (find_schedule _ _) as [s|]; simpl; intros [= <- _] _; [|discriminate].
  exists (DoctorSchedule.availableSlots s). reflexivity.
Qed.

Lemma fetchAvailableSlots_inv (d : string) (st : AppState) (w : World) :
  client_inv st -> client_inv (fst (fetchAvailableSlots d st w)).
Proof.
  intros (Hid & Hm & Hf & Hn). unfold fetchAvailableSlots.
  destruct (http_get_slots d w) as [[r|] w'] eqn:E; [|exact (conj Hid (conj Hm (conj Hf Hn)))].
  destruct ((200 <=? statusCode r) && (statusCode r <? 300)) eqn:E2;
    [|exact (conj Hid (conj Hm (conj Hf Hn)))].
  assert (Hc : statusCode r = 200 \/ statusCode r = 404).
  { revert E. unfold http_get_slots, answer, get_slots, bind. rewrite findOne_schedule_read.
    destruct (String.eqb d ""); [intros [= <- _]; auto|].
    destruct (find_schedule _ _); simpl; intros [= <- _]; auto. }
  destruct (http_get_slots_ok d w r w' E Hc E2) as (ts & Hts). rewrite Hts.
  repeat split; auto. apply Forall_forall. intros v Hv. apply in_map_iff in Hv as (t & <- & _). eauto.
Qed.

Lemma client_inv_step (c c' : AppState * World) :
  client_inv (fst c) -> sys_step c c' -> client_inv (fst c').
Proof.
  intros Hinv Hs. destruct Hs as [e st w He | now st w | req st w]; simpl in *; [|exact Hinv..].
  destruct Hinv as (Hid & Hm & Hf & Hn).
  destruct e as [| d | v | id |]; simpl.
  - repeat split; auto.
  - apply fetchAvailableSlots_inv. repeat split; auto.
  - repeat split; auto. destruct He as [_ [-> | Hv]]; [left; reflexivity | right].
    apply in_map_iff in Hv as (x & <- & Hx). rewrite Forall_forall in Hf.
    destruct (Hf x Hx) as (t & ->). eauto.
  - simpl in He. rewrite Hm in He. contradiction.
  - unfold handleRebooking. rewrite Hid. simpl. repeat split; auto.
Qed.

Lemma client_inv_reachable (c : AppState * World) : reachable c -> client_inv (fst c).
Proof.
  induction 1 as [w | c c' _ IH Hs].
  - repeat split; auto.
  - exact (client_inv_step c c' IH Hs).
Qed.

Lemma reach_ui (c : AppState * World) (e : ui_event) :
  reachable c -> enabled (fst c) e -> reachable (app_handle e (fst c) (snd c)).
Proof. destruct c as [st w]. intros Hr He. eapply reach_step; [exact Hr | constructor; exact He]. Qed.

(** C17. In every state the system can reach, whatever the timer and
    other clients do, no appointment is selected in the client, and
    pressing "Rebook" only shows the alert of line 43, without any
    request: the list that would offer the "Select" buttons is filled by
    [fetchMissedAppointments], whose route does not exist. *)
Theorem client_never_rebooks (st : AppState) (w : World) :
  reachable (st, w) ->
  appointmentId st = "" /\
  app_handle ClickRebook st w = (alert "Select an appointment and slot for rebooking!" st, w).
Proof.
  intros Hr. destruct (client_inv_reachable _ Hr) as (Hid & _). simpl in Hid.
  split; [exact Hid|]. simpl. unfold handleRebooking. rewrite Hid. reflexivity.
Qed.

(** C18. In every reachable state, the slot the client holds, sent with
    any appointment identifier to the server in any state, is refused:
    the request changes nothing and, when it answers, answers 400. *)
Theorem client_slot_always_refused (st : AppState) (w : World) (id : string) (w' : World) :
  reachable (st, w) ->
  let req := JObj [("appointmentId", JStr id); ("newSlot", JStr (newSlot st))] in
  snd (rebook req w') = w' /\ (forall r, fst (rebook req w') = Ok r -> statusCode r = 400).
Proof.
  intros Hr. destruct (client_inv_reachable _ Hr) as (_ & _ & _ & Hn). simpl in Hn.
  apply rebook_no_match. intros l. apply mongoose_includes_not_upper.
  destruct Hn as [-> | (t & ->)]; [intros c [=]|].
  unfold date_toJSON. destruct (date_toISOString t) as [iso|] eqn:E.
  - exact (toISOString_not_upper t iso E).
  - intros c [= <-]. reflexivity.
Qed.

(** The client of the scenario: mounted, doc1 chosen, T1 chosen in the
    select, in the world where A has been marked ['missed']. *)
Definition ex_client : AppState * World :=
  let c1 := app_handle Mount initial_app ex_missed_world in
  let c2 := app_handle (ChangeDoctor "doc1") (fst c1) (snd c1) in
  app_handle (ChangeSlot (option_value (date_toJSON T1))) (fst c2) (snd c2).

Lemma ex_client_reachable : reachable (fst ex_client, snd ex_client).
Proof.
  change (reachable ex_client). unfold ex_client.
  apply reach_ui; [apply reach_ui; [apply (reach_ui (initial_app, ex_missed_world)); [constructor|exact I]|]|].
  - simpl. right. left. reflexivity.
  - split; [vm_compute; discriminate | right; vm_compute; left; reflexivity].
Qed.

Lemma client_never_rebooks_witness :
  reachable (fst ex_client, snd ex_client) /\
  appointmentId (fst ex_client) = "" /\
  app_handle ClickRebook (fst ex_client) (snd ex_client)
    = (alert "Select an appointment and slot for rebooking!" (fst ex_client), snd ex_client).
Proof.
  split; [exact ex_client_reachable|].
  exact (client_never_rebooks (fst ex_client) (snd ex_client) ex_client_reachable).
Defined.

Lemma client_slot_always_refused_witness :
  reachable (fst ex_client, snd ex_client) /\
  let req := JObj [("appointmentId", JStr "65a000000000000000000001");
                   ("newSlot", JStr (newSlot (fst ex_client)))] in
  snd (rebook req ex_missed_world) = ex_missed_world /\
  (forall r, fst (rebook req ex_missed_world) = Ok r -> statusCode r = 400).
Proof.
  split; [exact ex_client_reachable|].
  exact (client_slot_always_refused (fst ex_client) (snd ex_client) "65a000000000000000000001"
           ex_missed_world ex_client_reachable).
Defined.

(** C28. Choosing a doctor who has no schedule selects that doctor but
    keeps the slots of the previously chosen one on the page:
    [GET /api/slots] answers 404, axios rejects, and the [catch] of line
    25 only logs, so [setAvailableSlots] is never called. *)
Theorem change_doctor_without_schedule (st : AppState) (w : World) (d : string) :
  find_schedule (w_db w) d = None ->
  app_handle (ChangeDoctor d) st w =
  (mkApp (doctors st) d (availableSlots st) (missedAppointments st) (newSlot st)
         (appointmentId st) (alerts st), w).
Proof.
  intros Hs. simpl. unfold fetchAvailableSlots, http_get_slots, answer, get_slots, bind.
  destruct (String.eqb d ""); [reflexivity|].
  rewrite findOne_schedule_read. change (db_get w) with (w_db w). rewrite Hs. reflexivity.
Qed.

(** doc1 chosen (its two slots shown), then doc2, who has no schedule. *)
Definition ex_client_doc2 : AppState * World :=
  let c1 := app_handle Mount initial_app ex_missed_world in
  let c2 := app_handle (ChangeDoctor "doc1") (fst c1) (snd c1) in
  app_handle (ChangeDoctor "doc2") (fst c2) (snd c2).

Lemma change_doctor_without_schedule_witness :
  find_schedule (w_db ex_missed_world) "doc2" = None /\
  selectedDoctor (fst ex_client_doc2) = "doc2" /\
  availableSlots (fst ex_client_doc2) = map date_toJSON [T1; T2].
Proof.
  assert (Hs : find_schedule (w_db ex_missed_world) "doc2" = None) by reflexivity.
  split; [exact Hs|]. unfold ex_client_doc2.
  rewrite (change_doctor_without_schedule _ _ "doc2" Hs). split; reflexivity.
Defined.
