(* ===== verification/TickRun.v ===== *)
(** * The timer callback runs to its end

    Interleave cuts the callback of [setInterval] (src/backend/index.js,
    lines 80-100) at its [await]s and runs it with fuel. Here the same
    thread is run without fuel, by well-founded recursion on the number of
    [await]s it still has to pass: [pc_measure] counts one for the query and
    four for each appointment of the snapshot (save, [findOne], e-mail,
    SMS), and every step that does not throw makes it smaller. So the
    callback always ends, normally or with the exception of a step, and it
    ends with the result of the atomic tick [detect_no_shows]; any fuel of
    at least [pc_measure] is enough for [run_thread]. *)

From Stdlib Require Import ZArith String List Lia.
From Equations Require Import Equations.
From S2P Require Import Prelude DateFormat JsValue Store Notify Reconcile Interleave.
Import ListNotations.
#[local] Open Scope Z_scope.
#[local] Open Scope js_scope.

(** The [await]s a suspended callback still has to pass. *)
Definition pc_measure {W : Type} `{DbState W} (pc : tick_pc) (w : W) : nat :=
  match pc with
  | TFind _ => 1 + 4 * length (appointments (db_get w))
  | TSave _ rest => 4 + 4 * length rest
  | TFindSchedule _ rest => 3 + 4 * length rest
  | TEmail _ rest => 2 + 4 * length rest
  | TSMS _ rest => 1 + 4 * length rest
  | TDone => 0
  end.

Definition is_done (pc : tick_pc) : bool :=
  match pc with TDone => true | _ => false end.

Lemma loop_next_measure {W : Type} `{DbState W} (l : list Appointment.t) (w : W) :
  pc_measure (loop_next l) w = (4 * length l)%nat.
Proof. destruct l; simpl; lia. Qed.

Section Decrease.
Context {W : Type} `{Gateway W}.

(** Every step of a running callback that does not throw passes one
    [await]. *)
Lemma tick_step_decreases (pc pc' : tick_pc) (w w' : W) :
  is_done pc = false -> tick_step pc w = (Ok pc', w') -> (pc_measure pc' w' < pc_measure pc w)%nat.
Proof.
  destruct pc as [now|a rest|a rest|m rest|m rest|]; simpl; intros Hd; try discriminate;
    unfold bind, ret.
  - rewrite find_appointments_read. intros [= <- <-]. rewrite loop_next_measure.
    pose proof (filter_length_le (is_overdue now) (appointments (db_get w))). lia.
  - destruct (save_appointment _ _ w) as [[[]|e] w1]; intros [= <- <-]; simpl; lia.
  - rewrite findOne_schedule_read.
    destruct (find_schedule _ _) as [s|]; [destruct (Nat.ltb _ _)|]; intros [= <- <-];
      rewrite ?loop_next_measure; simpl; lia.
  - destruct (gw_sendEmail _ _ _ w) as [[r|e] w1]; intros [= <- <-]; simpl; lia.
  - destruct (gw_sendSMS _ _ w) as [[r|e] w1]; intros [= <- <-]; rewrite loop_next_measure; lia.
Qed.

End Decrease.

(** A value packed with its equation, so that a [with] clause remembers
    where its pattern came from. *)
Definition inspect {A} (a : A) : {b | a = b} := exist _ a eq_refl.

Section Run.
Context {W : Type} `{Gateway W}.

Local Notation "x 'eqn:' p" := (exist _ x p) (only parsing, at level 20).

(** The callback resumed at [pc], run to its end: the next [await], then
    the rest; an exception ends it. *)
Equations? run_tick (pc : tick_pc) (w : W) : outcome unit * W by wf (pc_measure pc w) lt :=
run_tick pc w with inspect (is_done pc) := {
  | true eqn: _ => (Ok tt, w);
  | false eqn: Hd with inspect (tick_step pc w) := {
    | (Ok pc', w') eqn: Hs => run_tick pc' w';
    | (Throw e, w') eqn: _ => (Throw e, w') } }.
Proof. exact (tick_step_decreases _ _ _ _ Hd Hs). Qed.

Lemma run_tick_step (pc : tick_pc) (w : W) :
  run_tick pc w =
    if is_done pc then (Ok tt, w)
    else match tick_step pc w with
         | (Ok pc', w') => run_tick pc' w'
         | (Throw e, w') => (Throw e, w')
         end.
Proof.
  funelim (run_tick pc w);
    match goal with Hd : is_done _ = _ |- _ => rewrite Hd end; [reflexivity|..];
    match goal with Hs : tick_step _ _ = _ |- _ => rewrite Hs end; reflexivity.
Qed.

End Run.

Section RunProofs.
Context {W : Type} `{Gateway W}.

(** One more [await] of [run_tick], with the monad unfolded, by the
    equation of [run_tick] in the context. *)
Ltac tick_unfold :=
  match goal with Hstep : forall pc w, run_tick pc w = _ |- _ => rewrite Hstep end;
  cbn [is_done loop_next];
  unfold tick_step, process_appointment, notify_patient, bind, ret;
  rewrite ?findOne_schedule_read.

Lemma run_tick_loop (l : list Appointment.t) (w : W) :
  run_tick (loop_next l) w = for_each process_appointment l w.
Proof.
  pose proof run_tick_step as Hstep.
  revert w. induction l as [|a l IH]; intros w; [rewrite Hstep; reflexivity|].
  cbn [for_each]. tick_unfold.
  destruct (save_appointment _ _ w) as [[[]|e] w1]; [|reflexivity].
  tick_unfold.
  destruct (find_schedule _ _) as [s|]; [destruct (Nat.ltb _ _)|]; try apply IH.
  tick_unfold.
  destruct (gw_sendEmail _ _ _ w1) as [[r|e] w2]; [|reflexivity].
  tick_unfold.
  destruct (gw_sendSMS _ _ w2) as [[r'|e] w3]; [|reflexivity].
  apply IH.
Qed.

Lemma run_thread_S (f : nat) (pc : tick_pc) :
  run_thread (S f) pc = if is_done pc then ret tt else (pc' <- tick_step pc ;; run_thread f pc').
Proof. destruct pc; reflexivity. Qed.

Lemma pc_measure_zero (pc : tick_pc) (w : W) : pc_measure pc w = 0%nat -> is_done pc = true.
Proof. destruct pc; simpl; lia || reflexivity. Qed.

(** The callback of [setInterval] always runs to its end: run
    without any bound on its steps, it returns exactly what the atomic
    tick [detect_no_shows] returns, normally or with the exception of a
    send, in the same world. *)
Theorem run_tick_detect_no_shows (now : Z) (w : W) :
  run_tick (TFind now) w = detect_no_shows now w.
Proof.
  rewrite run_tick_step. cbn [is_done]. unfold tick_step, detect_no_shows, bind, ret.
  rewrite find_appointments_read. apply run_tick_loop.
Qed.

(** Fuel of at least [pc_measure] (one step for the query and four
    per appointment still to come) is enough: [run_thread] then computes
    the whole run of the callback, never stopping early. *)
Theorem run_thread_enough_fuel (f : nat) (pc : tick_pc) (w : W) :
  (pc_measure pc w <= f)%nat -> run_thread f pc w = run_tick pc w.
Proof.
  revert pc w. induction f as [|f IH]; intros pc w Hf.
  - rewrite run_tick_step, (pc_measure_zero pc w) by lia. destruct pc; reflexivity.
  - rewrite run_thread_S, run_tick_step. destruct (is_done pc) eqn:Hd; [reflexivity|].
    unfold bind. destruct (tick_step pc w) as [[pc'|e] w'] eqn:Hs; [|reflexivity].
    apply IH. pose proof (tick_step_decreases pc pc' w w' Hd Hs). lia.
Qed.

End RunProofs.


(** ** Witness: the scenario of Reconcile, two appointments, nine steps *)

Lemma run_thread_enough_fuel_witness :
  (pc_measure (TFind ex_now) ex_world <= 9)%nat /\
  run_thread 9 (TFind ex_now) ex_world = run_tick (TFind ex_now) ex_world.
Proof.
  assert (H : (pc_measure (TFind ex_now) ex_world <= 9)%nat) by (vm_compute; lia).
  split; [exact H | exact (run_thread_enough_fuel 9 (TFind ex_now) ex_world H)].
Defined.
