(* ===== verification/Refinement.v ===== *)
(** * What the server promises, as an abstract machine, and its refinement

    Seen from outside, the server (src/backend/index.js) keeps two maps:
    every appointment's doctor, time and status by identifier, and every
    doctor's offered slots. Its contract, in the words of specification
    4.1 and 4.2 and as the code really keeps it, is [spec_step]: by the
    instant [now], an appointment that was ['scheduled'] more than fifteen
    minutes before [now] may become ['missed'], and a ['missed'] appointment
    may be booked, ['scheduled'] again, on one of its doctor's offered
    valid slots, the slot's milliseconds dropped. Nothing else changes; in
    particular no slot is ever withdrawn (Api, C2).

    [abs] maps a database onto this state with stdpp's [gmap]s: the
    document [findById] or [findOne] returns for a key is the value of the
    key in the map. [server_step now] is the server itself, every handler
    and every tick of the timer up to [now], each run to its end before the
    next begins, for any behaviour of the notification providers; the
    refinement theorem says that every run of it is a run of the abstract
    machine, and the abstract machine's invariants then hold of the code. *)

From Stdlib Require Import ZArith String List Lia.
From stdpp Require Import gmap strings relations.
From S2P Require Import Prelude DateFormat DateProofs JsValue Store Notify Reconcile Api.
Import ListNotations.
#[local] Open Scope Z_scope.

(** ** The abstract state *)

(** What the outside sees of an appointment. *)
Record view := mkView {
  v_doctor : string;
  v_time : option Z;
  v_status : string
}.

Record spec_state := mkSpec {
  sp_appts : gmap string view;          (** by appointment [_id] *)
  sp_offered : gmap string (list Z)     (** by [doctorId] *)
}.

Definition view_of (a : Appointment.t) : view :=
  mkView (Appointment.doctorId a) (Appointment.scheduledTime a) (Appointment.status a).

(** The first document of a key is the one the queries return; it is the
    one [list_to_map] keeps. *)
Definition abs_appts (l : list Appointment.t) : gmap string view :=
  list_to_map (map (fun a => (Appointment._id a, view_of a)) l).

Definition abs_offered (l : list DoctorSchedule.t) : gmap string (list Z) :=
  list_to_map (map (fun s => (DoctorSchedule.doctorId s, DoctorSchedule.availableSlots s)) l).

Definition abs (d : Db) : spec_state := mkSpec (abs_appts (appointments d)) (abs_offered (schedules d)).

(** ** The abstract machine *)

Definition view_overdue (now : Z) (v : view) : bool :=
  String.eqb (v_status v) "scheduled" &&
  match v_time v with Some t => t <? now - GRACE_PERIOD | None => false end.

Definition missed_view (v : view) : view := mkView (v_doctor v) (v_time v) "missed".

Definition booked_view (t : Z) (v : view) : view := mkView (v_doctor v) (Some t) "scheduled".

Inductive spec_step (now : Z) : spec_state -> spec_state -> Prop :=
| spec_mark i v σ :
    sp_appts σ !! i = Some v -> view_overdue now v = true ->
    spec_step now σ (mkSpec (<[i := missed_view v]> (sp_appts σ)) (sp_offered σ))
| spec_rebook i v slots t0 σ :
    sp_appts σ !! i = Some v -> v_status v = "missed" ->
    sp_offered σ !! v_doctor v = Some slots -> In t0 slots -> time_valid t0 = true ->
    spec_step now σ (mkSpec (<[i := booked_view (t0 - msFromTime t0) v]> (sp_appts σ)) (sp_offered σ)).

(** ** The server *)

Inductive server_step {W : Type} `{Gateway W} `{DbConn W} (now : Z) : W -> W -> Prop :=
| srv_tick t w : t <= now -> server_step now w (snd (detect_no_shows t w))
| srv_rebook req_body w : server_step now w (snd (rebook req_body w))
| srv_slots doctorId w : server_step now w (snd (get_slots doctorId w))
| srv_missed patientId w : server_step now w (snd (get_missed_appointments patientId w))
| srv_test req_body w : server_step now w (snd (test_notification req_body w)).

(** ** Lookups in the abstraction *)

Section Lookup.
Context {A V : Type} (key : A -> string) (val : A -> V).

Lemma lookup_list_to_map_find (l : list A) (i : string) :
  (list_to_map (map (fun a => (key a, val a)) l) : gmap string V) !! i =
    val <$> List.find (fun a => String.eqb (key a) i) l.
Proof.
  induction l as [|x l IH]; [reflexivity|]. cbn [map List.find]. rewrite list_to_map_cons.
  destruct (String.eqb_spec (key x) i) as [<-|Hne].
  - apply lookup_insert_eq.
  - rewrite lookup_insert_ne by congruence. exact IH.
Qed.

(** A map over the documents that keeps their keys commutes with the
    first match of a key. *)
Lemma find_key_map (h : A -> A) (l : list A) (i : string) :
  (forall x, key (h x) = key x) ->
  List.find (fun a => String.eqb (key a) i) (map h l) =
    h <$> List.find (fun a => String.eqb (key a) i) l.
Proof.
  intros Hk. induction l as [|x l IH]; [reflexivity|]. simpl. rewrite Hk.
  destruct (String.eqb (key x) i); [reflexivity | exact IH].
Qed.

(** With unique keys, the first document of a member's key is that member. *)
Lemma find_key_unique (l : list A) (x : A) :
  NoDup (map key l) -> In x l -> List.find (fun a => String.eqb (key a) (key x)) l = Some x.
Proof.
  intros Hnd Hx. destruct (List.find _ l) as [y|] eqn:E.
  - apply find_some in E as [Hy Ey]. apply String.eqb_eq in Ey.
    f_equal. exact (nodup_map_inj key l y x Hnd Hy Hx Ey).
  - exfalso. eapply find_none in E; [|exact Hx]. rewrite String.eqb_refl in E. discriminate.
Qed.

End Lookup.

Lemma abs_appts_lookup (d : Db) (i : string) :
  abs_appts (appointments d) !! i = view_of <$> find_by_id d i.
Proof. apply lookup_list_to_map_find. Qed.

Lemma abs_offered_lookup (d : Db) (doc : string) :
  abs_offered (schedules d) !! doc = DoctorSchedule.availableSlots <$> find_schedule d doc.
Proof. apply lookup_list_to_map_find. Qed.

(** An update of the documents of key [i] that acts on the view by [g]
    is [alter g i] on the abstract map. *)
Lemma abs_update_where (i : string) (f : Appointment.t -> Appointment.t) (g : view -> view)
      (l : list Appointment.t) :
  (forall x, Appointment._id (f x) = Appointment._id x) ->
  (forall x, view_of (f x) = g (view_of x)) ->
  abs_appts (update_where Appointment._id i f l) = alter g i (abs_appts l).
Proof.
  intros Hk Hv. apply map_eq. intros j. rewrite lookup_alter. unfold abs_appts.
  rewrite !lookup_list_to_map_find. unfold update_where.
  rewrite find_key_map by (intros x; destruct (String.eqb _ i); auto).
  destruct (decide (i = j)) as [<-|Hne]; destruct (List.find _ l) as [x|] eqn:E; try reflexivity;
    apply find_some in E as [_ Ej]; apply String.eqb_eq in Ej; simpl; rewrite Ej.
  - rewrite String.eqb_refl. simpl. rewrite Hv. reflexivity.
  - destruct (String.eqb_spec j i); [congruence | reflexivity].
Qed.

Lemma alter_lookup_insert {V} (g : V -> V) (m : gmap string V) (i : string) (v : V) :
  m !! i = Some v -> alter g i m = <[i := g v]> m.
Proof.
  intros Hi. apply map_eq. intros j. rewrite lookup_alter.
  destruct (decide (i = j)) as [<-|Hne];
    [rewrite lookup_insert_eq, Hi; reflexivity | rewrite lookup_insert_ne; auto].
Qed.

Lemma view_of_set_status (a : Appointment.t) :
  view_of (Appointment.set_status "missed" a) = missed_view (view_of a).
Proof. reflexivity. Qed.

Lemma view_of_set_time_status (t : Z) (a : Appointment.t) :
  view_of (Appointment.set_time_status (Some t) "scheduled" a) = booked_view t (view_of a).
Proof. reflexivity. Qed.

(** ** A tick is a sequence of abstract marks *)

Lemma marked_refines (now : Z) (off : gmap string (list Z)) (l : list Appointment.t)
      (ids : list string) :
  NoDup (map Appointment._id l) ->
  Forall (fun i => exists a, In a l /\ is_overdue now a = true /\ Appointment._id a = i) ids ->
  rtc (spec_step now) (mkSpec (abs_appts l) off) (mkSpec (abs_appts (marked ids l)) off).
Proof.
  intros Hnd. induction ids as [|i ids IH] using rev_ind; intros Hf.
  - unfold marked. simpl. rewrite map_id. reflexivity.
  - apply Forall_app in Hf as [Hf Hi]. inversion Hi as [|? ? (a & Ha & Hov & <-) _]; subst.
    rewrite <- marked_step, (abs_update_where _ _ missed_view) by reflexivity.
    assert (Hlk : abs_appts (marked ids l) !! Appointment._id a =
                  Some (view_of (if existsb (String.eqb (Appointment._id a)) ids
                                 then Appointment.set_status "missed" a else a))).
    { unfold abs_appts. rewrite lookup_list_to_map_find. unfold marked.
      rewrite find_key_map by (intros x; destruct (existsb _ _); reflexivity).
      rewrite find_key_unique by assumption. reflexivity. }
    destruct (existsb _ ids).
    + rewrite alter_id; [exact (IH Hf)|]. rewrite Hlk. intros x [= <-]. reflexivity.
    + rewrite (alter_lookup_insert _ _ _ _ Hlk). eapply rtc_r; [exact (IH Hf)|].
      exact (spec_mark now _ _ (mkSpec _ off) Hlk Hov).
Qed.


(** ** What each request and tick does to the database *)

(** A successful rebooking: a ['missed'] appointment [a] moved onto the
    valid slot [t0] of its doctor's schedule, without its milliseconds. *)
Definition rebooked (d d' : Db) : Prop :=
  exists a s t0,
    find_by_id d (Appointment._id a) = Some a /\ Appointment.status a = "missed" /\
    find_schedule d (Appointment.doctorId a) = Some s /\
    In t0 (DoctorSchedule.availableSlots s) /\ time_valid t0 = true /\
    d' = mkDb (update_where Appointment._id (Appointment._id a)
                 (Appointment.set_time_status (Some (t0 - msFromTime t0)) "scheduled")
                 (appointments d))
              (schedules d).

(** The type of a stored appointment: [scheduledTime], when present, is a
    valid time value (the schema's [Date]). *)
Definition stored_time_valid (a : Appointment.t) : Prop :=
  match Appointment.scheduledTime a with Some t => time_valid t = true | None => True end.

Definition db_typed (d : Db) : Prop := db_wf d /\ Forall stored_time_valid (appointments d).

Section Server.
Context {W : Type} `{Gateway W} `{DbConn W}.

Lemma rebook_rebooked (req_body : json) (w : W) :
  db_wf (db_get w) ->
  db_get (snd (rebook req_body w)) = db_get w \/ rebooked (db_get w) (db_get (snd (rebook req_body w))).
Proof.
  intros Hwf. unfold rebook, bind. cbv beta zeta. findById_cases; simpl; [left; reflexivity|].
  destruct (find_by_cast _ _) as [a|] eqn:Ha; simpl; [|left; reflexivity].
  destruct (String.eqb_spec (Appointment.status a) "missed") as [Hm|]; simpl; [|left; reflexivity].
  destruct (find_schedule _ _) as [s|] eqn:Hs; simpl; [|left; reflexivity].
  destruct (mongoose_includes _ _) eqn:Hinc; simpl; [|left; reflexivity].
  apply mongoose_includes_true in Hinc as (t0 & Ht0 & Hv).
  destruct (new_Date (body_field req_body "newSlot")) as [t|] eqn:Ht;
    [|unfold rebook_apply; rewrite Ht; left; reflexivity].
  pose proof Ht as Ht'. rewrite Hv in Ht'. apply new_Date_toString_inv in Ht' as [Hval ->].
  destruct (find_by_cast_some _ _ _ (proj1 Hwf) Ha) as [Hain Hid].
  destruct (rebook_apply_run a s _ _ w Hwf Hain (proj1 (find_first_In _ _ _ Hs)) Ht)
    as (w1 & -> & Hdb).
  right. exists a, s, t0. simpl. auto 6.
Qed.

Lemma tick_only_marks (t : Z) (w : W) :
  db_wf (db_get w) -> only_marks_overdue t (db_get w) (db_get (snd (detect_no_shows t w))).
Proof.
  intros Hwf. unfold detect_no_shows, bind at 1. rewrite find_appointments_read.
  apply (for_each_only_marks t _ Hwf), only_marks_overdue_refl.
Qed.

(** Every step of the server leaves the database as it was, marks
    overdue appointments of an instant up to [now], or rebooks. *)
Lemma server_step_db (now : Z) (w w' : W) :
  server_step now w w' -> db_wf (db_get w) ->
  db_get w' = db_get w \/
  (exists t, t <= now /\ only_marks_overdue t (db_get w) (db_get w')) \/
  rebooked (db_get w) (db_get w').
Proof.
  intros Hs Hwf. destruct Hs as [t w Ht|b w|doc w|p w|b w].
  - right; left. exists t. split; [exact Ht | apply tick_only_marks, Hwf].
  - destruct (rebook_rebooked b w Hwf); auto.
  - left. unfold get_slots, bind. rewrite findOne_schedule_read.
    destruct (find_schedule _ _); reflexivity.
  - left. rewrite get_missed_appointments_run. reflexivity.
  - left. apply test_notification_db.
Qed.

End Server.

(** ** The server refines the abstract machine *)

Lemma time_valid_truncate (t0 : Z) : time_valid t0 = true -> time_valid (t0 - msFromTime t0) = true.
Proof.
  unfold time_valid, msFromTime. rewrite !Z.leb_le. intros Hv.
  pose proof (Z.mod_pos_bound t0 1000 ltac:(lia)). assert (t0 = 1000 * (t0 / 1000) + t0 mod 1000) by
    (apply Z.div_mod; lia). lia.
Qed.

(** A rebooking is one abstract step. *)
Lemma rebooked_refines (now : Z) (d d' : Db) :
  rebooked d d' -> rtc (spec_step now) (abs d) (abs d').
Proof.
  intros (a & s & t0 & Ha & Hm & Hsc & Hin & Hval & ->). unfold abs. simpl.
  rewrite (abs_update_where _ _ (booked_view (t0 - msFromTime t0))) by reflexivity.
  assert (Hlk : abs_appts (appointments d) !! Appointment._id a = Some (view_of a))
    by (rewrite abs_appts_lookup, Ha; reflexivity).
  rewrite (alter_lookup_insert _ _ _ _ Hlk). apply rtc_once.
  apply (spec_rebook now _ _ (DoctorSchedule.availableSlots s) t0 (abs d) Hlk Hm);
    [simpl; rewrite abs_offered_lookup, Hsc; reflexivity | exact Hin | exact Hval].
Qed.

Section Refines.
Context {W : Type} `{Gateway W} `{DbConn W}.

Lemma server_step_wf (now : Z) (w w' : W) :
  db_wf (db_get w) -> server_step now w w' -> db_wf (db_get w').
Proof.
  intros Hwf Hs. pose proof Hwf as [Ha0 Hs0].
  destruct (server_step_db now w w' Hs Hwf)
    as [-> | [(t & _ & Hs' & ids & Ha & _) | (a & s & t0 & _ & _ & _ & _ & _ & ->)]];
    [exact Hwf | split | split]; simpl.
  - rewrite Ha, marked_ids. exact Ha0.
  - rewrite Hs'. exact Hs0.
  - rewrite update_where_keys; auto with appt.
  - exact Hs0.
Qed.

Lemma server_step_refines (now : Z) (w w' : W) :
  db_wf (db_get w) -> server_step now w w' -> rtc (spec_step now) (abs (db_get w)) (abs (db_get w')).
Proof.
  intros Hwf Hs.
  destruct (server_step_db now w w' Hs Hwf)
    as [-> | [(t & Ht & Hs' & ids & Ha & Hf) | Hb]].
  - reflexivity.
  - unfold abs. rewrite Hs', Ha. apply marked_refines; [apply Hwf|].
    revert Hf. apply Forall_impl. intros i (a & Hin & Hov & Hid).
    exists a. eauto using is_overdue_mono.
  - apply rebooked_refines, Hb.
Qed.

End Refines.

Lemma spec_step_frame (now : Z) (i : string) (v : view) (off : gmap string (list Z)) :
  view_overdue now v = false -> v_status v <> "missed" -> forall σ σ' : spec_state,
  sp_appts σ !! i = Some v /\ sp_offered σ = off -> spec_step now σ σ' ->
  sp_appts σ' !! i = Some v /\ sp_offered σ' = off.
Proof.
  intros Hov Hm σ σ' [Hi Ho] Hs. destruct Hs as [j u σ Hj Hu | j u slots t0 σ Hj Hu _ _ _]; simpl;
    (split; [|exact Ho]); (destruct (decide (j = i)) as [<-|Hne];
      [rewrite Hi in Hj; injection Hj as <-; congruence | rewrite lookup_insert_ne; auto]).
Qed.

Section Typing.
Context {W : Type} `{Gateway W} `{DbConn W}.

Lemma server_step_typed (now : Z) (w w' : W) :
  db_typed (db_get w) -> server_step now w w' -> db_typed (db_get w').
Proof.
  intros [Hwf Hty] Hs. split; [exact (server_step_wf now w w' Hwf Hs)|].
  destruct (server_step_db now w w' Hs Hwf)
    as [-> | [(t & _ & _ & ids & -> & _) | (a & s & t0 & _ & _ & _ & _ & Hval & ->)]];
    [exact Hty | unfold marked | unfold update_where]; apply Forall_map; revert Hty;
    apply Forall_impl; intros x Hx; case_match; [|exact Hx| |exact Hx]; [exact Hx|].
  apply time_valid_truncate, Hval.
Qed.

End Typing.

(** ** Theorems of the server as a whole *)

Section ServerClaims.
Context {W : Type} `{Gateway W} `{DbConn W}.

(** C29. Refinement: every run of the server up to the instant [now] (any
    requests to any handler, and ticks of the timer at instants up to
    [now] each run to its end, whatever the providers answer), from a
    well-formed database, is seen through [abs] as a run of the abstract
    machine: only appointments overdue at [now] become ['missed'], only
    ['missed'] appointments are booked, on a valid offered slot of their
    doctor without its milliseconds, and the offered slots never change. *)
Theorem server_refines_spec (now : Z) (w w' : W) :
  db_wf (db_get w) -> rtc (server_step now) w w' ->
  rtc (spec_step now) (abs (db_get w)) (abs (db_get w')).
Proof.
  apply (rtc_simulation _ _ (fun w => db_wf (db_get w)) (fun w => abs (db_get w)));
    intros a b; [apply server_step_wf | apply server_step_refines].
Qed.

(** Type preservation: from a database with unique identifiers and
    valid stored times, every run of the server keeps both: every
    [scheduledTime] it writes is a valid time value. *)
Theorem server_typed (now : Z) (w w' : W) :
  db_typed (db_get w) -> rtc (server_step now) w w' -> db_typed (db_get w').
Proof.
  intros Ht Hr. exact (rtc_invariant _ (fun w => db_typed (db_get w)) w w' (server_step_typed now) Ht Hr).
Qed.

(** C30. Whatever runs up to [now], an appointment that is not overdue at
    [now] and not ['missed'] (a later appointment, or one in any other
    status) keeps its doctor, time and status, and every doctor keeps the
    slots it offered. (With overlapping ticks this fails: C23.) *)
Theorem server_keeps_pending (now : Z) (w w' : W) (a : Appointment.t) :
  db_wf (db_get w) -> rtc (server_step now) w w' ->
  find_by_id (db_get w) (Appointment._id a) = Some a ->
  is_overdue now a = false -> Appointment.status a <> "missed" ->
  view_of <$> find_by_id (db_get w') (Appointment._id a) = Some (view_of a) /\
  forall doc, DoctorSchedule.availableSlots <$> find_schedule (db_get w') doc =
              DoctorSchedule.availableSlots <$> find_schedule (db_get w) doc.
Proof.
  intros Hwf Hr Ha Hov Hm.
  pose proof (rtc_simulation _ _ (fun w => db_wf (db_get w)) (fun w => abs (db_get w)) w w'
                (fun a b => server_step_wf now a b) (fun a b => server_step_refines now a b) Hwf Hr)
    as Hsp.
  assert (Hi0 : sp_appts (abs (db_get w)) !! Appointment._id a = Some (view_of a))
    by (simpl; rewrite abs_appts_lookup, Ha; reflexivity).
  destruct (rtc_invariant _ (fun σ => sp_appts σ !! Appointment._id a = Some (view_of a) /\
                                      sp_offered σ = sp_offered (abs (db_get w))) _ _
              (spec_step_frame now _ (view_of a) _ Hov Hm) (conj Hi0 eq_refl) Hsp) as [Hi Ho].
  split; [rewrite <- abs_appts_lookup; exact Hi|].
  intros doc. rewrite <- !abs_offered_lookup. simpl in Ho. rewrite Ho. reflexivity.
Qed.

End ServerClaims.


(** ** Witnesses: the scenario's tick, then the rebooking of A on T1 *)

Definition ex_run_world : World := snd (rebook body_toString (snd (detect_no_shows ex_now ex_world))).

Lemma ex_run : rtc (server_step ex_now) ex_world ex_run_world.
Proof.
  apply (rtc_l _ _ (snd (detect_no_shows ex_now ex_world))); [apply srv_tick; lia|].
  apply rtc_once, srv_rebook.
Qed.

Lemma ex_db_typed : db_typed (db_get ex_world).
Proof.
  split; [solve_db_wf|]. apply Forall_forall. intros x Hx.
  simpl in Hx. destruct Hx as [<-|[<-|[]]]; reflexivity.
Qed.

Lemma server_refines_spec_witness :
  db_wf (db_get ex_world) /\
  rtc (spec_step ex_now) (abs (db_get ex_world)) (abs (db_get ex_run_world)).
Proof.
  assert (H : db_wf (db_get ex_world)) by solve_db_wf.
  split; [exact H | exact (server_refines_spec ex_now ex_world ex_run_world H ex_run)].
Defined.

Lemma server_typed_witness : db_typed (db_get ex_world) /\ db_typed (db_get ex_run_world).
Proof. split; [exact ex_db_typed | exact (server_typed ex_now ex_world ex_run_world ex_db_typed ex_run)]. Defined.

Lemma server_keeps_pending_witness :
  find_by_id (db_get ex_world) (Appointment._id apptB) = Some apptB /\
  is_overdue ex_now apptB = false /\
  view_of <$> find_by_id (db_get ex_run_world) (Appointment._id apptB) = Some (view_of apptB).
Proof.
  assert (Hf : find_by_id (db_get ex_world) (Appointment._id apptB) = Some apptB) by reflexivity.
  assert (Ho : is_overdue ex_now apptB = false) by reflexivity.
  split; [exact Hf | split; [exact Ho|]].
  apply (server_keeps_pending ex_now ex_world ex_run_world apptB); [solve_db_wf | exact ex_run | exact Hf
    | exact Ho | discriminate].
Defined.
