(* ===== verification/ClientAsync.v ===== *)
(** * The client's slot requests in flight (src/frontend/src/App.js)

    [handleDoctorChange] (lines 62-65) sets the selected doctor and calls
    [fetchAvailableSlots] without awaiting it; the function suspends at
    [await axios.get] (line 23) and calls [setAvailableSlots] (line 24)
    whenever the answer arrives. Frontend runs the request to its end
    inside the event; here it is three steps: the request is sent, the
    server answers it when it handles it, and the answer is delivered to
    the component, requests of different events in any order. Nothing
    ties an answer to the doctor selected when it arrives: after a quick
    change from one doctor to another, the first doctor's slots can be the
    ones shown under the second doctor's name. *)

From Stdlib Require Import ZArith String List Lia.
From S2P Require Import Prelude DateFormat JsValue Store Notify Reconcile Api Frontend.
Import ListNotations.
#[local] Open Scope string_scope.
#[local] Open Scope Z_scope.

(** Lines 24-27, once [await axios.get] has resolved (a 2xx answer),
    rejected (any other status), or failed without an answer. *)
Definition receive_slots (r : option Response) (st : AppState) : AppState :=
  match r with
  | Some r =>
      if (200 <=? statusCode r) && (statusCode r <? 300) then
        match body_field (body r) "availableSlots" with
        | Some (JArr vs) => mkApp (doctors st) (selectedDoctor st) vs (missedAppointments st)
                                  (newSlot st) (appointmentId st) (alerts st)
        | _ => mkApp (doctors st) (selectedDoctor st) [] (missedAppointments st)
                     (newSlot st) (appointmentId st) (alerts st)
        end
      else st
  | None => st
  end.

(** [setSelectedDoctor(doctorId)], line 63. *)
Definition select_doctor (d : string) (st : AppState) : AppState :=
  mkApp (doctors st) d (availableSlots st) (missedAppointments st) (newSlot st)
        (appointmentId st) (alerts st).

(** A request of [fetchAvailableSlots]: sent, or answered by the server
    and not yet delivered to the component. *)
Inductive slot_request :=
| Sent (doctorId : string)
| Answered (r : option Response).

Record AsyncClient := mkAsync {
  a_ui : AppState;
  a_pending : list slot_request
}.

(** The system: the component's events, the server answering any request
    in flight, the delivery of any answer, timer ticks and other clients.
    Events other than choosing a doctor run as in Frontend. *)
Inductive async_step : AsyncClient * World -> AsyncClient * World -> Prop :=
| as_choose d c w :
    enabled (a_ui c) (ChangeDoctor d) ->
    async_step (c, w) (mkAsync (select_doctor d (a_ui c)) (a_pending c ++ [Sent d]), w)
| as_serve k d c w :
    a_pending c !! k = Some (Sent d) ->
    async_step (c, w) (mkAsync (a_ui c) (<[k := Answered (fst (http_get_slots d w))]> (a_pending c)),
                       snd (http_get_slots d w))
| as_deliver k r c w :
    a_pending c !! k = Some (Answered r) ->
    async_step (c, w) (mkAsync (receive_slots r (a_ui c)) (delete k (a_pending c)), w)
| as_ui e c w :
    (forall d, e <> ChangeDoctor d) -> enabled (a_ui c) e ->
    async_step (c, w) (mkAsync (fst (app_handle e (a_ui c) w)) (a_pending c), snd (app_handle e (a_ui c) w))
| as_tick now c w :
    async_step (c, w) (c, snd (detect_no_shows now w))
| as_other_client req_body c w :
    async_step (c, w) (c, snd (rebook req_body w)).

Inductive async_reachable : AsyncClient * World -> Prop :=
| areach_init w : async_reachable (mkAsync initial_app [], w)
| areach_step c c' : async_reachable c -> async_step c c' -> async_reachable c'.

(** Frontend's event is the same three steps without anything in between. *)
Lemma change_doctor_split (d : string) (st : AppState) (w : World) :
  app_handle (ChangeDoctor d) st w =
  (receive_slots (fst (http_get_slots d w)) (select_doctor d st), snd (http_get_slots d w)).
Proof.
  simpl. unfold fetchAvailableSlots. destruct (http_get_slots d w) as [[r|] w']; [|reflexivity].
  simpl. destruct (_ && _); [destruct (body_field _ _) as [[]|]|]; reflexivity.
Qed.

(** ** An executable scheduler of the system *)

Inductive async_choice :=
| AMount
| AChoose (d : string)
| AServe (k : nat)
| ADeliver (k : nat).

Definition async_exec (ch : async_choice) (cw : AsyncClient * World) : option (AsyncClient * World) :=
  let '(c, w) := cw in
  match ch with
  | AMount => Some (mkAsync (fst (app_handle Mount (a_ui c) w)) (a_pending c), snd (app_handle Mount (a_ui c) w))
  | AChoose d =>
      if String.eqb d "" || existsb (String.eqb d) (map fst (doctors (a_ui c)))
      then Some (mkAsync (select_doctor d (a_ui c)) (a_pending c ++ [Sent d]), w)
      else None
  | AServe k =>
      match a_pending c !! k with
      | Some (Sent d) =>
          Some (mkAsync (a_ui c) (<[k := Answered (fst (http_get_slots d w))]> (a_pending c)),
                snd (http_get_slots d w))
      | _ => None
      end
  | ADeliver k =>
      match a_pending c !! k with
      | Some (Answered r) => Some (mkAsync (receive_slots r (a_ui c)) (delete k (a_pending c)), w)
      | _ => None
      end
  end.

Fixpoint async_run (l : list async_choice) (cw : AsyncClient * World) : option (AsyncClient * World) :=
  match l with
  | [] => Some cw
  | ch :: l' => cw' ← async_exec ch cw; async_run l' cw'
  end.

Lemma async_exec_step (ch : async_choice) (cw cw' : AsyncClient * World) :
  async_exec ch cw = Some cw' -> async_step cw cw'.
Proof.
  destruct cw as [c w]. destruct ch as [|d|k|k]; simpl.
  - intros [= <-]. apply (as_ui Mount); [discriminate | exact I].
  - destruct (String.eqb_spec d "") as [->|Hne]; simpl.
    + intros [= <-]. apply as_choose. left. reflexivity.
    + destruct (existsb _ _) eqn:E; [|discriminate]. intros [= <-]. apply as_choose. right.
      apply existsb_exists in E as (x & Hx & Ex). apply String.eqb_eq in Ex. subst x. exact Hx.
  - destruct (a_pending c !! k) as [[d|]|] eqn:E; try discriminate. intros [= <-].
    apply as_serve, E.
  - destruct (a_pending c !! k) as [[|r]|] eqn:E; try discriminate. intros [= <-].
    apply as_deliver, E.
Qed.

Lemma async_run_reachable (l : list async_choice) (cw cw' : AsyncClient * World) :
  async_reachable cw -> async_run l cw = Some cw' -> async_reachable cw'.
Proof.
  revert cw. induction l as [|ch l IH]; simpl; intros cw Hr E; [congruence|].
  destruct (async_exec ch cw) as [cw1|] eqn:E1; [|discriminate].
  apply (IH cw1); [apply (areach_step cw); [exact Hr | apply (async_exec_step ch), E1] | exact E].
Qed.

(** ** Two doctors with schedules: doc1 offers T1 and T2, doc2 offers T2 *)

Definition sched2 : DoctorSchedule.t := DoctorSchedule.mk "65a0000000000000000000d2" "doc2" [T2].

Definition ex_two_world : World :=
  mkWorld (mkDb [Appointment.set_status "missed" apptA; apptB] [sched1; sched2]) [] (fun _ => true) true true.

(** Mount, choose doc1 then doc2 at once; the server answers doc2's
    request first and it is delivered, then doc1's. *)
Definition quick_change : list async_choice :=
  [AMount; AChoose "doc1"; AChoose "doc2"; AServe 1; ADeliver 1; AServe 0; ADeliver 0].

Definition stale_client : AsyncClient :=
  mkAsync (mkApp [("doc1", "Dr. Smith"); ("doc2", "Dr. Johnson")] "doc2" (map date_toJSON [T1; T2])
                 (JArr []) "" "" [])
          [].

(** C31. Answers are not matched with the doctor they were asked for: in a
    reachable state with no request in flight, doc2 is selected while the
    page shows doc1's slots, although the server offers doc2 other ones;
    choosing one of the shown slots then asks for a slot of the wrong
    doctor. *)
Theorem stale_slots_after_quick_change :
  exists c, async_reachable (c, ex_two_world) /\ a_pending c = [] /\
    selectedDoctor (a_ui c) = "doc2" /\
    availableSlots (a_ui c) = map date_toJSON [T1; T2] /\
    fst (get_slots "doc2" ex_two_world) =
      Ok (mkResponse 200 (JObj [("availableSlots", JArr (map date_toJSON [T2]))])).
Proof.
  assert (E : async_run quick_change (mkAsync initial_app [], ex_two_world) = Some (stale_client, ex_two_world))
    by (vm_compute; reflexivity).
  exists stale_client. split; [exact (async_run_reachable _ _ _ (areach_init _) E)|].
  repeat split; reflexivity.
Qed.
