(* ===== verification/SerialRefines.v ===== *)
(** * The interleaved timer against the abstract machine

    Interleave runs the callbacks of [setInterval] as threads cut at their
    [await]s, next to rebooking requests. When every callback ends before
    the timer fires again ([cstep true]), each thread step is at most one
    abstract mark, a request at most one abstract rebooking, and a firing
    changes nothing: the system refines the abstract machine of
    Refinement, at the instant of the last firing. When callbacks overlap
    ([cstep false]) it does not: the trace of C23 reaches a database that
    no run of the abstract machine reaches. *)

From Stdlib Require Import ZArith String List Lia.
From stdpp Require Import gmap strings relations.
From S2P Require Import Prelude DateFormat JsValue Store Notify Reconcile Api Interleave Refinement.
Import ListNotations.
#[local] Open Scope Z_scope.

(** The abstract state of a configuration of Interleave: that of its
    database. *)
Definition config_abs {W : Type} `{DbState W} (c : Config W) : spec_state := abs (db_get (c_world c)).

(** ** The abstract machine, at later instants *)

Lemma view_overdue_mono (now now' : Z) (v : view) :
  now <= now' -> view_overdue now v = true -> view_overdue now' v = true.
Proof.
  unfold view_overdue. rewrite !andb_true_iff. intros Hle [Hs Ht]. split; [exact Hs|].
  destruct (v_time v); [apply Z.ltb_lt in Ht; apply Z.ltb_lt; lia | discriminate].
Qed.

Lemma spec_rtc_mono (now now' : Z) (σ σ' : spec_state) :
  now <= now' -> rtc (spec_step now) σ σ' -> rtc (spec_step now') σ σ'.
Proof.
  intros Hle. apply rtc_subrel. intros a b Hs. destruct Hs.
  - eapply spec_mark; eauto using view_overdue_mono.
  - eapply spec_rebook; eauto.
Qed.

(** Every ['missed'] appointment has a time more than [GRACE_PERIOD]
    before [now]: an invariant of the abstract machine. *)
Definition spec_missed_ok (now : Z) (σ : spec_state) : Prop :=
  forall i v, sp_appts σ !! i = Some v -> v_status v = "missed" ->
  exists T, v_time v = Some T /\ T < now - GRACE_PERIOD.

Lemma spec_missed_ok_step (now : Z) (σ σ' : spec_state) :
  spec_missed_ok now σ -> spec_step now σ σ' -> spec_missed_ok now σ'.
Proof.
  intros Hm Hs j u. destruct Hs as [i v σ Hi Hov | i v slots t0 σ Hi _ _ _ _]; simpl;
    (destruct (decide (i = j)) as [<-|Hne];
      [rewrite lookup_insert_eq; intros [= <-] | rewrite lookup_insert_ne by exact Hne; apply Hm]).
  - intros _. unfold view_overdue in Hov. apply andb_true_iff in Hov as [_ Ht].
    simpl. destruct (v_time v) as [T|]; [|discriminate]. apply Z.ltb_lt in Ht. eauto.
  - discriminate.
Qed.

(** ** One step of the serial system *)

Section Steps.
Context {W : Type} `{Gateway W}.

(** A thread step writes the database only at its save, which marks the
    snapshot's document. *)
Lemma tick_step_db (pc : tick_pc) (w : W) :
  db_wf (db_get w) ->
  db_get (snd (tick_step pc w)) = db_get w \/
  exists a rest, pc = TSave a rest /\ In (Appointment._id a) (map Appointment._id (appointments (db_get w))) /\
    db_get (snd (tick_step pc w)) =
      mkDb (update_where Appointment._id (Appointment._id a) (Appointment.set_status "missed")
                         (appointments (db_get w))) (schedules (db_get w)).
Proof.
  intros Hwf. destruct pc as [now|a rest|a rest|m rest|m rest|]; unfold tick_step, bind, ret;
    [left; reflexivity| | | | |left; reflexivity].
  - destruct (in_dec string_dec (Appointment._id a) (map Appointment._id (appointments (db_get w)))) as [Hin|Hni].
    + right. exists a, rest. split; [reflexivity|]. split; [exact Hin|].
      unfold save_appointment. rewrite update_first_some by (apply Hwf || exact Hin).
      simpl. apply db_get_put.
    + left. rewrite save_appointment_missing by exact Hni. reflexivity.
  - rewrite findOne_schedule_read. left. destruct (find_schedule _ _) as [s|]; [destruct (Nat.ltb _ _)|];
      reflexivity.
  - left. pose proof (gw_sendEmail_db (Some (JStr "")) "Missed Appointment" (Some (JStr m)) (db_get w) w eq_refl).
    destruct (gw_sendEmail _ _ _ w) as [[r|e] w1]; assumption.
  - left. pose proof (gw_sendSMS_db (Some (JStr "")) (Some (JStr m)) (db_get w) w eq_refl).
    destruct (gw_sendSMS _ _ w) as [[r|e] w1]; assumption.
Qed.

(** The save of a document that is stored, ['scheduled'] and overdue at
    [clk] is one abstract mark at [clk]. *)
Lemma mark_pending_refines (clk : Z) (d : Db) (i : string) :
  db_wf d -> pending_ok clk d i ->
  rtc (spec_step clk) (abs d)
      (abs (mkDb (update_where Appointment._id i (Appointment.set_status "missed") (appointments d))
                 (schedules d))).
Proof.
  intros [Hnd _] (x & Hx & <- & Hs & T & HT & Hlt). unfold abs. simpl.
  rewrite (abs_update_where _ _ missed_view) by reflexivity.
  assert (Hlk : abs_appts (appointments d) !! Appointment._id x = Some (view_of x)).
  { unfold abs_appts. rewrite lookup_list_to_map_find, find_key_unique by assumption. reflexivity. }
  rewrite (alter_lookup_insert _ _ _ _ Hlk). apply rtc_once.
  apply (spec_mark clk _ _ (abs d) Hlk). unfold view_overdue. simpl. rewrite Hs, HT.
  apply andb_true_iff. split; [reflexivity | apply Z.ltb_lt, Hlt].
Qed.

Lemma cstep_clock (serial : bool) (c c' : Config W) : cstep serial c c' -> c_clock c <= c_clock c'.
Proof. destruct 1; simpl; lia. Qed.

Lemma serial_step_refines (c c' : Config W) :
  serial_inv c -> cstep true c c' ->
  rtc (spec_step (c_clock c')) (abs (db_get (c_world c))) (abs (db_get (c_world c'))).
Proof.
  intros (Hwf & _ & Ht) Hs. destruct Hs as [c now _ _ | c i pc Hi | c req]; simpl.
  - reflexivity.
  - destruct Ht as [Hnil | (pc0 & Hpc & Hok)]; [rewrite Hnil in Hi; discriminate|].
    rewrite Hpc in Hi. apply list_lookup_singleton_Some in Hi as [_ Heq]. subst.
    rewrite (proj1 (thread_exec_spec pc (c_world c))).
    destruct (tick_step_db pc (c_world c) Hwf) as [-> | (a & rest & -> & _ & ->)]; [reflexivity|].
    destruct Hok as (_ & _ & Hp). inversion Hp as [|? ? Ha _]; subst.
    apply mark_pending_refines; assumption.
  - destruct (rebook_rebooked req (c_world c) Hwf) as [-> | Hb]; [reflexivity|].
    apply rebooked_refines, Hb.
Qed.

Lemma serial_inv_reachable (c0 c : Config W) :
  serial_inv c0 -> creachable true c0 c -> serial_inv c.
Proof. intros Hinit Hr. induction Hr; eauto using serial_inv_step. Qed.

End Steps.

(** ** Theorems of the interleaved timer *)

Section SerialClaims.
Context {W : Type} `{Gateway W}.

(** C32. Refinement of the interleaved system: when every callback of
    [setInterval] ends before the timer fires again, every run of the
    system of Interleave (callbacks cut at their [await]s, each rebooking
    request run whole as one step between two of those steps, any provider
    behaviour), from a state of [serial_inv], is
    seen through [abs] as a run of the abstract machine at the instant of
    the last firing: each save of a callback is one abstract mark of an
    appointment overdue then, each successful request one rebooking.
    With requests cut at their own [await]s the refinement fails (C12). *)
Theorem serial_refines_spec (c0 c : Config W) :
  serial_inv c0 -> creachable true c0 c ->
  rtc (spec_step (c_clock c)) (config_abs c0) (config_abs c).
Proof.
  intros Hinit Hr. induction Hr as [|c c' Hr IH Hs]; [reflexivity|].
  etrans; [exact (spec_rtc_mono _ _ _ _ (cstep_clock _ _ _ Hs) IH)|].
  exact (serial_step_refines c c' (serial_inv_reachable c0 c Hinit Hr) Hs).
Qed.

End SerialClaims.

(** Overlapping callbacks do not refine the abstract machine: the
    trace of C23, from the initial state of C22, reaches a database that
    no run of the abstract machine reaches at the instant of the last
    firing, since B is ['missed'] with a time in the future. *)
Theorem overlapping_ticks_not_refining :
  exists c, creachable false ex_c0 c /\
    ~ rtc (spec_step (c_clock c)) (config_abs ex_c0) (config_abs c).
Proof.
  destruct (cexec_all false ex_c0 overlap_schedule) as [c|] eqn:E; [|vm_compute in E; discriminate].
  exists c. split; [eapply cexec_all_reachable; [constructor | exact E]|]. intros Hr.
  assert (Hinit : spec_missed_ok (c_clock c) (config_abs ex_c0)).
  { intros i v. cbn [config_abs abs sp_appts]. rewrite abs_appts_lookup.
    destruct (find_by_id _ i) as [a|] eqn:Ea; [|discriminate]. intros [= <-].
    apply find_first_In in Ea as [Ha _]. simpl in Ha. destruct Ha as [<-|[<-|[]]]; discriminate. }
  pose proof (rtc_invariant _ _ _ _ (spec_missed_ok_step (c_clock c)) Hinit Hr) as Hfin.
  vm_compute in E. injection E as <-.
  destruct (Hfin "65a000000000000000000002" (mkView "doc1" (Some T1) "missed"))
    as (T & [= <-] & Hlt); [simpl; unfold config_abs, abs_appts; rewrite lookup_list_to_map_find; reflexivity | reflexivity |].
  simpl in Hlt. unfold T1, T0, ex_tick2, ex_tick1, GRACE_PERIOD in Hlt. lia.
Qed.

Lemma serial_refines_spec_witness :
  serial_inv ex_c0 /\ creachable true ex_c0 ex_serial_final /\
  rtc (spec_step (c_clock ex_serial_final)) (config_abs ex_c0) (config_abs ex_serial_final).
Proof.
  assert (Hr : creachable true ex_c0 ex_serial_final)
    by (apply (cexec_all_reachable true ex_c0 ex_c0 _ serial_schedule); [constructor | vm_compute; reflexivity]).
  split; [exact ex_c0_serial_inv | split; [exact Hr|]].
  exact (serial_refines_spec ex_c0 ex_serial_final ex_c0_serial_inv Hr).
Defined.
