(* ===== verification/Concurrency.v ===== *)
(** * Timer callbacks and rebooking requests together

    Interleave runs the callbacks of [setInterval] (src/backend/index.js,
    lines 80-100) as threads next to atomic rebooking requests; RebookRace
    runs the requests of [POST /api/rebook] (lines 115-137) as threads
    without the timer. Here both run as threads in one configuration, as
    Node.js runs them: every [await] of either gives the event loop to any
    other. The timer either runs each callback as one step
    ([TicksAtomic]) or as a thread that ends before the next firing
    ([TicksSerial], the setting of C22).

    - With atomic callbacks the promise of C22 holds whatever the requests
      interleave: a request only saves over a document it read as
      ['missed'], and its [$set] then always contains [status:
      'scheduled'].
    - With serial callback threads it fails: a request that read an
      appointment as ['missed'] saves its new time over the document after
      a callback has read it as overdue (another request had booked it on
      a past slot), and the callback then marks it ['missed'] at the new,
      future time. *)

From Stdlib Require Import ZArith String List Lia.
From S2P Require Import Prelude DateFormat JsValue Store Notify Reconcile Api Interleave RebookRace Refinement.
Import ListNotations.
#[local] Open Scope string_scope.
#[local] Open Scope Z_scope.
#[local] Open Scope js_scope.

Inductive tick_mode := TicksAtomic | TicksSerial.

Record KConfig (W : Type) := mkK {
  k_world : W;
  k_ticks : list tick_pc;        (** the callbacks still running *)
  k_requests : list rebook_pc;   (** every request received, running or answered *)
  k_clock : Z                    (** the instant of the last firing *)
}.
Arguments mkK {W} k_world k_ticks k_requests k_clock.
Arguments k_world {W} k.
Arguments k_ticks {W} k.
Arguments k_requests {W} k.
Arguments k_clock {W} k.

Section System.
Context {W : Type} `{Gateway W}.

Inductive kstep (mode : tick_mode) : KConfig W -> KConfig W -> Prop :=
| KFireAtomic (c : KConfig W) (now : Z) :
    mode = TicksAtomic -> k_clock c <= now ->
    kstep mode c (mkK (snd (detect_no_shows now (k_world c))) (k_ticks c) (k_requests c) now)
| KFire (c : KConfig W) (now : Z) :
    mode = TicksSerial -> k_clock c <= now -> k_ticks c = [] ->
    kstep mode c (mkK (k_world c) [TFind now] (k_requests c) now)
| KTick (c : KConfig W) (i : nat) (pc : tick_pc) :
    k_ticks c !! i = Some pc ->
    kstep mode c (mkK (fst (thread_exec pc (k_world c)))
                      (resume i (snd (thread_exec pc (k_world c))) (k_ticks c))
                      (k_requests c) (k_clock c))
| KArrive (c : KConfig W) (req_body : json) :
    kstep mode c (mkK (k_world c) (k_ticks c) (k_requests c ++ [RFind req_body]) (k_clock c))
| KResume (c : KConfig W) (i : nat) (pc : rebook_pc) :
    k_requests c !! i = Some pc ->
    kstep mode c (mkK (fst (request_exec pc (k_world c))) (k_ticks c)
                      (<[i := snd (request_exec pc (k_world c))]> (k_requests c)) (k_clock c)).

Inductive kreachable (mode : tick_mode) (c0 : KConfig W) : KConfig W -> Prop :=
| KR_refl : kreachable mode c0 c0
| KR_step (c c' : KConfig W) : kreachable mode c0 c -> kstep mode c c' -> kreachable mode c0 c'.

End System.

(** ** An executable scheduler *)

Inductive kchoice :=
| KcFire (now : Z)
| KcTick (i : nat)
| KcArrive (req_body : json)
| KcResume (i : nat).

Section Schedules.
Context {W : Type} `{Gateway W}.

Definition kexec (mode : tick_mode) (c : KConfig W) (ch : kchoice) : option (KConfig W) :=
  match ch with
  | KcFire now =>
      if k_clock c <=? now then
        match mode with
        | TicksAtomic => Some (mkK (snd (detect_no_shows now (k_world c))) (k_ticks c) (k_requests c) now)
        | TicksSerial =>
            match k_ticks c with
            | [] => Some (mkK (k_world c) [TFind now] (k_requests c) now)
            | _ => None
            end
        end
      else None
  | KcTick i =>
      match k_ticks c !! i with
      | Some pc => Some (mkK (fst (thread_exec pc (k_world c)))
                             (resume i (snd (thread_exec pc (k_world c))) (k_ticks c))
                             (k_requests c) (k_clock c))
      | None => None
      end
  | KcArrive req_body => Some (mkK (k_world c) (k_ticks c) (k_requests c ++ [RFind req_body]) (k_clock c))
  | KcResume i =>
      match k_requests c !! i with
      | Some pc => Some (mkK (fst (request_exec pc (k_world c))) (k_ticks c)
                             (<[i := snd (request_exec pc (k_world c))]> (k_requests c)) (k_clock c))
      | None => None
      end
  end.

Fixpoint kexec_all (mode : tick_mode) (c : KConfig W) (chs : list kchoice) : option (KConfig W) :=
  match chs with
  | [] => Some c
  | ch :: chs' => c' ← kexec mode c ch; kexec_all mode c' chs'
  end.

Lemma kexec_step (mode : tick_mode) (c c' : KConfig W) (ch : kchoice) :
  kexec mode c ch = Some c' -> kstep mode c c'.
Proof.
  destruct ch as [now|i|req|i]; simpl.
  - destruct (Z.leb_spec (k_clock c) now); [|discriminate].
    destruct mode; [intros [= <-]; apply KFireAtomic; auto|].
    destruct (k_ticks c) eqn:E; [intros [= <-]; apply KFire; auto | discriminate].
  - destruct (k_ticks c !! i) eqn:E; [intros [= <-]; apply KTick, E | discriminate].
  - intros [= <-]. apply KArrive.
  - destruct (k_requests c !! i) eqn:E; [intros [= <-]; apply KResume, E | discriminate].
Qed.

Lemma kexec_all_reachable (mode : tick_mode) (c0 c1 c : KConfig W) (chs : list kchoice) :
  kreachable mode c0 c1 -> kexec_all mode c1 chs = Some c -> kreachable mode c0 c.
Proof.
  revert c1. induction chs as [|ch chs IH]; simpl; intros c1 Hr; [intros [= <-]; exact Hr|].
  destruct (kexec mode c1 ch) as [c2|] eqn:E; [|discriminate].
  apply IH. eapply KR_step; [exact Hr | eapply kexec_step; exact E].
Qed.

End Schedules.

(** ** Atomic callbacks and request threads *)

(** What a request remembers: the appointment it read is ['missed']. *)
Definition req_ok (pc : rebook_pc) : Prop :=
  match pc with
  | RSchedule _ a | RSave _ a _ | RSaveSchedule _ a _ _ => Appointment.status a = "missed"
  | _ => True
  end.

Definition atomic_inv {W : Type} `{DbState W} (c : KConfig W) : Prop :=
  db_wf (db_get (k_world c)) /\ missed_ok (k_clock c) (db_get (k_world c)) /\
  k_ticks c = [] /\ Forall req_ok (k_requests c).

Lemma rebook_update_id (a : Appointment.t) (t : Z) (x : Appointment.t) :
  Appointment._id (rebook_update a t x) = Appointment._id x.
Proof.
  unfold rebook_update. destruct (Appointment.scheduledTime a) as [t0|]; [destruct (Z.eqb t0 t)|];
    destruct (String.eqb _ _); reflexivity.
Qed.

(** The [$set] of a request that read a ['missed'] document always
    contains [status: 'scheduled']. *)
Lemma rebook_update_status (a : Appointment.t) (t : Z) (x : Appointment.t) :
  Appointment.status a = "missed" -> Appointment.status (rebook_update a t x) = "scheduled".
Proof. intros Ha. unfold rebook_update. rewrite Ha. reflexivity. Qed.

Lemma missed_ok_update_scheduled (clk : Z) (d : Db) (i : string) (f : Appointment.t -> Appointment.t) :
  (forall x, Appointment.status (f x) = "scheduled") -> missed_ok clk d ->
  missed_ok clk (mkDb (update_where Appointment._id i f (appointments d)) (schedules d)).
Proof.
  intros Hf Hm y Hy Hs. simpl in Hy.
  apply In_update_where_inv in Hy as (x & Hx & [[_ ->] | [_ ->]]); [|exact (Hm x Hx Hs)].
  rewrite Hf in Hs. discriminate.
Qed.

(** An atomic tick at [now] keeps the promise at [now]. *)
Lemma only_marks_missed_ok (clk now : Z) (d d' : Db) :
  db_wf d -> missed_ok clk d -> clk <= now -> only_marks_overdue now d d' ->
  db_wf d' /\ missed_ok now d'.
Proof.
  intros Hwf Hm Hle (Hs & ids & Ha & Hf). pose proof Hwf as [Hnd Hnds]. split.
  - split; [rewrite Ha, marked_ids; exact Hnd | rewrite Hs; exact Hnds].
  - intros y Hy Hst. rewrite Ha in Hy. unfold marked in Hy. apply in_map_iff in Hy as (x & <- & Hx).
    destruct (existsb _ ids) eqn:E.
    + apply existsb_exists in E as (i & Hi & Ei). apply String.eqb_eq in Ei.
      rewrite Forall_forall in Hf. destruct (Hf i Hi) as (a & Ha' & Hov & Hid).
      assert (x = a) as -> by (apply (same_doc d); auto; congruence).
      apply is_overdue_true in Hov as (_ & T & HT & Hlt). exists T. auto.
    + apply (missed_ok_mono clk now d Hle Hm x Hx Hst).
Qed.

Section AtomicProofs.
Context {W : Type} `{Gateway W}.

Lemma save_appointment_db (i : string) (f : Appointment.t -> Appointment.t) (w : W) :
  db_wf (db_get w) ->
  db_get (snd (save_appointment i f w)) = db_get w \/
  db_get (snd (save_appointment i f w)) =
    mkDb (update_where Appointment._id i f (appointments (db_get w))) (schedules (db_get w)).
Proof.
  intros [Hnd _]. unfold save_appointment.
  destruct (in_dec string_dec i (map Appointment._id (appointments (db_get w)))) as [Hin|Hni].
  - rewrite update_first_some by assumption. right. apply db_get_put.
  - rewrite update_first_none by assumption. left. reflexivity.
Qed.

Lemma save_schedule_db (i : string) (f : DoctorSchedule.t -> DoctorSchedule.t) (w : W) :
  db_wf (db_get w) ->
  db_get (snd (save_schedule i f w)) = db_get w \/
  db_get (snd (save_schedule i f w)) =
    mkDb (appointments (db_get w)) (update_where DoctorSchedule._id i f (schedules (db_get w))).
Proof.
  intros [_ Hnd]. unfold save_schedule.
  destruct (in_dec string_dec i (map DoctorSchedule._id (schedules (db_get w)))) as [Hin|Hni].
  - rewrite update_first_some by assumption. right. apply db_get_put.
  - rewrite update_first_none by assumption. left. reflexivity.
Qed.

(** Closing a request step that leaves the database as it was. *)
Ltac req_same := split; [assumption | split; [assumption | intros ? [=]; subst; simpl; auto]].

(** A request step keeps unique identifiers and the promise, and a
    request that continues still holds a ['missed'] document. *)
Lemma request_step_inv (clk : Z) (pc : rebook_pc) (w : W) :
  db_wf (db_get w) -> missed_ok clk (db_get w) -> req_ok pc ->
  db_wf (db_get (snd (rebook_step pc w))) /\ missed_ok clk (db_get (snd (rebook_step pc w))) /\
  (forall pc', fst (rebook_step pc w) = Ok pc' -> req_ok pc').
Proof.
  intros Hwf Hm Hpc. destruct pc as [b|ns a|ns a s|ns a s t|r|e]; simpl in Hpc;
    unfold rebook_step, bind, ret, throw.
  - findById_cases; simpl; [req_same|].
    destruct (find_by_cast _ _) as [a|]; simpl; [|req_same].
    destruct (String.eqb_spec (Appointment.status a) "missed"); simpl; req_same.
  - rewrite findOne_schedule_read.
    destruct (find_schedule _ _); [destruct (negb _)|]; simpl; req_same.
  - destruct (new_Date ns) as [t|]; simpl; [|req_same].
    pose proof (save_appointment_db (Appointment._id a) (rebook_update a t) w Hwf) as E.
    destruct (save_appointment _ _ w) as [[[]|e] w1]; simpl in E |- *;
      (destruct E as [E|E]; rewrite E; [req_same|]); (split; [|split]).
    1,4: split; simpl; [rewrite update_where_keys; [apply Hwf | apply rebook_update_id] | apply Hwf].
    1,3: apply missed_ok_update_scheduled; [intros x; apply rebook_update_status, Hpc | exact Hm].
    all: intros ? [=]; subst; exact Hpc.
  - pose proof (save_schedule_db (DoctorSchedule._id s)
                  (DoctorSchedule.set_slots (filter_slots_ne (DoctorSchedule.availableSlots s) ns)) w Hwf) as E.
    destruct (save_schedule _ _ w) as [[[]|e] w1]; simpl in E |- *;
      (destruct E as [E|E]; rewrite E; [req_same|]); (split; [|split]).
    1,4: split; simpl; [apply Hwf | rewrite update_where_keys; [apply Hwf | apply set_slots_id]].
    1,3: exact Hm.
    all: intros ? [=]; subst; exact I.
  - req_same.
  - req_same.
Qed.

Lemma request_exec_inv (clk : Z) (pc : rebook_pc) (w : W) :
  db_wf (db_get w) -> missed_ok clk (db_get w) -> req_ok pc ->
  db_wf (db_get (fst (request_exec pc w))) /\ missed_ok clk (db_get (fst (request_exec pc w))) /\
  req_ok (snd (request_exec pc w)).
Proof.
  intros Hwf Hm Hpc. destruct (request_step_inv clk pc w Hwf Hm Hpc) as (Hwf' & Hm' & Hn).
  unfold request_exec. destruct (rebook_step pc w) as [[pc'|e] w']; simpl in *; auto.
Qed.

Lemma kstep_atomic_inv (c c' : KConfig W) :
  atomic_inv c -> kstep TicksAtomic c c' -> atomic_inv c'.
Proof.
  intros (Hwf & Hm & Ht & Hr) Hs.
  destruct Hs as [c now _ Hle | c now Hmode | c i pc Hi | c b | c i pc Hi]; simpl in *.
  - destruct (only_marks_missed_ok (k_clock c) now _ _ Hwf Hm Hle (tick_only_marks now _ Hwf))
      as [Hwf' Hm']. exact (conj Hwf' (conj Hm' (conj Ht Hr))).
  - discriminate.
  - rewrite Ht in Hi. discriminate.
  - refine (conj Hwf (conj Hm (conj Ht _))).
    apply Forall_app. split; [exact Hr | constructor; [exact I | constructor]].
  - destruct (request_exec_inv (k_clock c) pc (k_world c) Hwf Hm (Forall_lookup_1 _ _ _ _ Hr Hi))
      as (Hwf' & Hm' & Hpc'). refine (conj Hwf' (conj Hm' (conj Ht _))).
    apply Forall_insert; assumption.
Qed.

End AtomicProofs.

Section AtomicClaim.
Context {W : Type} `{Gateway W}.

(** C16. With each callback of the timer run as one step, rebooking
    requests interleaved at their [await]s in any way keep the promise of
    C22: in every reachable state each ['missed'] appointment has a time
    more than [GRACE_PERIOD] before the last firing. A request only saves
    over a document it read as ['missed'], and its [$set] then always
    contains [status: 'scheduled']. *)
Theorem atomic_ticks_racing_requests_ok (c0 c : KConfig W) :
  atomic_inv c0 -> kreachable TicksAtomic c0 c -> missed_ok (k_clock c) (db_get (k_world c)).
Proof.
  intros Hinit Hr. assert (atomic_inv c) as (_ & Hm & _); [|exact Hm].
  induction Hr; eauto using kstep_atomic_inv.
Qed.

End AtomicClaim.

(** ** Serial callback threads and request threads *)

(** A is ['missed'] (at [T0]); doc1 offers a past slot [TP] and [T1]. *)
Definition TP : Z := T0 + 5 * 60000.

Definition schedP : DoctorSchedule.t := DoctorSchedule.mk "65a0000000000000000000d1" "doc1" [TP; T1].

Definition ex_k0 : KConfig World :=
  mkK (mkWorld (mkDb [Appointment.set_status "missed" apptA] [schedP]) [] (fun _ => true) true true)
      [] [] (T0 + 20 * 60000).

Definition body_TP : json := rebook_request "65a000000000000000000001" (JStr (date_toString TP)).

(** Request 1 (for [T1]) reads A, ['missed']; request 2 books A on the
    past slot [TP]; the timer fires and its callback reads A, overdue;
    request 1 saves its [$set] (time [T1], status ['scheduled']); the
    callback saves its copy's status ['missed']. *)
Definition remark_schedule : list kchoice :=
  [KcArrive body_toString; KcResume 0;
   KcArrive body_TP; KcResume 1; KcResume 1; KcResume 1; KcResume 1;
   KcFire (T0 + 30 * 60000); KcTick 0;
   KcResume 0; KcResume 0;
   KcTick 0].

Lemma ex_k0_missed_ok : missed_ok (k_clock ex_k0) (db_get (k_world ex_k0)).
Proof.
  intros a Ha _. simpl in Ha. destruct Ha as [<-|[]]. exists T0. split; [reflexivity|].
  unfold GRACE_PERIOD. simpl. lia.
Qed.

(** C12. With callback threads that each end before the next firing, and
    rebooking requests running at their own [await]s, the promise of C22
    fails: from a state where it holds, with no callback running, a trace
    reaches a state where A is ['missed'] at [T1], the next day. Request 1
    read A while ['missed'] and saves its [$set] of time and status after
    the callback read A, booked meanwhile on a past slot, as overdue. *)
Theorem serial_ticks_racing_request_remark :
  db_wf (db_get (k_world ex_k0)) /\ missed_ok (k_clock ex_k0) (db_get (k_world ex_k0)) /\
  k_ticks ex_k0 = [] /\
  exists c, kreachable TicksSerial ex_k0 c /\
    In (Appointment.set_time_status (Some T1) "missed" apptA) (appointments (db_get (k_world c))) /\
    ~ missed_ok (k_clock c) (db_get (k_world c)).
Proof.
  split; [solve_db_wf|]. split; [exact ex_k0_missed_ok|]. split; [reflexivity|].
  destruct (kexec_all TicksSerial ex_k0 remark_schedule) as [c|] eqn:E; [|vm_compute in E; discriminate].
  exists c. split; [eapply kexec_all_reachable; [constructor | exact E]|].
  vm_compute in E. injection E as Ec.
  assert (Hin : In (Appointment.set_time_status (Some T1) "missed" apptA)
                   (appointments (db_get (k_world c)))) by (rewrite <- Ec; simpl; auto).
  split; [exact Hin|]. intros Hm. destruct (Hm _ Hin eq_refl) as (T & [= <-] & Hlt).
  rewrite <- Ec in Hlt. simpl in Hlt. unfold T1, T0, GRACE_PERIOD in Hlt. lia.
Qed.

(** The same requests with the callback run as one step: the firing marks
    A (booked on [TP]) ['missed'], then request 1 books it on [T1]. *)
Definition atomic_schedule : list kchoice :=
  [KcArrive body_toString; KcResume 0;
   KcArrive body_TP; KcResume 1; KcResume 1; KcResume 1; KcResume 1;
   KcFire (T0 + 30 * 60000);
   KcResume 0; KcResume 0].

Definition ex_atomic_final : KConfig World :=
  match kexec_all TicksAtomic ex_k0 atomic_schedule with Some c => c | None => ex_k0 end.

Lemma atomic_ticks_racing_requests_ok_witness :
  atomic_inv ex_k0 /\ kreachable TicksAtomic ex_k0 ex_atomic_final /\
  missed_ok (k_clock ex_atomic_final) (db_get (k_world ex_atomic_final)).
Proof.
  assert (Hi : atomic_inv ex_k0)
    by (split; [solve_db_wf | split; [exact ex_k0_missed_ok | split; [reflexivity | constructor]]]).
  assert (Hr : kreachable TicksAtomic ex_k0 ex_atomic_final)
    by (apply (kexec_all_reachable TicksAtomic ex_k0 ex_k0 _ atomic_schedule); [constructor | vm_compute; reflexivity]).
  split; [exact Hi | split; [exact Hr|]].
  exact (atomic_ticks_racing_requests_ok ex_k0 ex_atomic_final Hi Hr).
Defined.

